(** * vcf2tsv: the header schema extractor, the row stream transformer and
      the header line renderer of [src/vcf2tsv/cli.py]

    A [str] is represented by its UTF-8 encoding: text is a list of bytes,
    one [ascii] each, and token lists are lists of text.  The separators,
    the stripped characters and the literals of the patterns are all
    ASCII, and in UTF-8 an ASCII byte is always a character of its own, so
    splitting, joining, stripping, replacing and matching over the bytes
    is doing so over the characters.  Python's list slices, [str.split],
    [str.join], [str.strip], [str.replace], [str.startswith],
    [bytes.decode], [re.sub] and [re.finditer] are written out with the
    semantics the interpreter gives them, including negative slice bounds,
    the [IndexError] of an out-of-range subscript and the
    [UnicodeDecodeError] of bytes that are not UTF-8. *)

From Stdlib Require Import Ascii String.
From Stdlib Require Import List ZArith Lia Bool Arith.
Import ListNotations.

Local Open Scope list_scope.

(** ** Text *)

Definition text := list ascii.

(** what the engine writes, before it is decoded *)
Definition bytes := list ascii.

Definition txt (s : string) : text := list_ascii_of_string s.

Definition TAB : ascii := ascii_of_nat 9.
Definition NL : ascii := ascii_of_nat 10.

Definition text_eqb (a b : text) : bool :=
  if list_eq_dec ascii_dec a b then true else false.

(** ** Python sequence operations *)

Module Py.

(** [l[i:]], [l[:j]] and [l[i:j]] with Python's treatment of negative and
    out-of-range bounds: a negative bound counts from the end, and every
    bound is clamped to [0 .. len l]. *)
Definition norm_bound {A} (l : list A) (i : Z) : nat :=
  let n := Z.of_nat (length l) in
  let i' := if (i <? 0)%Z then (i + n)%Z else i in
  Z.to_nat (Z.min n (Z.max 0 i')).

Definition slice_from {A} (i : Z) (l : list A) : list A :=
  skipn (norm_bound l i) l.

Definition slice_to {A} (j : Z) (l : list A) : list A :=
  firstn (norm_bound l j) l.

Definition slice {A} (i j : Z) (l : list A) : list A :=
  skipn (norm_bound l i) (firstn (norm_bound l j) l).

(** [l[i]] for [0 <= i]: [None] stands for [IndexError]. *)
Definition index {A} (l : list A) (i : nat) : option A := nth_error l i.

(** [l.index(x)]: position of the first occurrence. *)
Fixpoint list_index (x : text) (l : list text) : option nat :=
  match l with
  | [] => None
  | y :: l' =>
      if text_eqb y x then Some 0
      else option_map S (list_index x l')
  end.

(** [x in l] *)
Definition list_in (x : text) (l : list text) : bool :=
  existsb (fun y => text_eqb y x) l.

(** [s.split(c)] for a one-character separator. *)
Fixpoint split (c : ascii) (s : text) : list text :=
  match s with
  | [] => [[]]
  | x :: s' =>
      if Ascii.eqb x c then [] :: split c s'
      else match split c s' with
           | h :: t => (x :: h) :: t
           | [] => [[x]]
           end
  end.

(** [sep.join(l)] *)
Fixpoint join (sep : text) (l : list text) : text :=
  match l with
  | [] => []
  | [x] => x
  | x :: l' => x ++ sep ++ join sep l'
  end.

(** [s.lstrip(chars)], [s.rstrip(chars)] and [s.strip(chars)] *)
Definition in_chars (chars : text) (c : ascii) : bool :=
  existsb (Ascii.eqb c) chars.

Fixpoint lstrip (chars : text) (s : text) : text :=
  match s with
  | [] => []
  | c :: s' => if in_chars chars c then lstrip chars s' else s
  end.

Definition rstrip (chars : text) (s : text) : text :=
  rev (lstrip chars (rev s)).

Definition strip (chars : text) (s : text) : text :=
  rstrip chars (lstrip chars s).

(** [s.startswith(p)] *)
Fixpoint startswith (p s : text) : bool :=
  match p, s with
  | [], _ => true
  | _ :: _, [] => false
  | a :: p', b :: s' => Ascii.eqb a b && startswith p' s'
  end.

(** [p in s] for text *)
Fixpoint contains (p s : text) : bool :=
  startswith p s ||
  match s with
  | [] => false
  | _ :: s' => contains p s'
  end.

(** [s.replace(old, new)] for a non-empty [old]: leftmost, non-overlapping
    occurrences.  [skip] counts the characters of an occurrence that is
    being passed over. *)
Fixpoint replace_from (old new : text) (skip : nat) (s : text) : text :=
  match s with
  | [] => []
  | c :: s' =>
      match skip with
      | S k => replace_from old new k s'
      | O =>
          if startswith old s
          then new ++ replace_from old new (length old - 1) s'
          else c :: replace_from old new 0 s'
      end
  end.

Definition replace (old new s : text) : text := replace_from old new 0 s.

(** [b.decode("UTF-8")]: the bytes must be well-formed UTF-8, with no stray
    continuation byte and no truncated, overlong or surrogate sequence, and
    nothing above U+10FFFF.  [expect] is what the decoder is in the middle
    of: [None] between two characters, [Some (k, lo, hi)] when the next
    byte must lie in [lo .. hi] and [k] continuation bytes follow it.  The
    text decoded is the bytes themselves; [None] stands for
    [UnicodeDecodeError]. *)
Fixpoint utf8_from (expect : option (nat * nat * nat)) (s : bytes) : bool :=
  match s with
  | [] => match expect with None => true | Some _ => false end
  | b :: s' =>
      let n := nat_of_ascii b in
      match expect with
      | Some (k, lo, hi) =>
          (lo <=? n) && (n <=? hi)
          && utf8_from (match k with
                        | O => None
                        | S k' => Some (k', 128, 191)
                        end) s'
      | None =>
          if n <? 128 then utf8_from None s'
          else if (194 <=? n) && (n <=? 223)
          then utf8_from (Some (0, 128, 191)) s'
          else if n =? 224 then utf8_from (Some (1, 160, 191)) s'
          else if n =? 237 then utf8_from (Some (1, 128, 159)) s'
          else if (225 <=? n) && (n <=? 239)
          then utf8_from (Some (1, 128, 191)) s'
          else if n =? 240 then utf8_from (Some (2, 144, 191)) s'
          else if (241 <=? n) && (n <=? 243)
          then utf8_from (Some (2, 128, 191)) s'
          else if n =? 244 then utf8_from (Some (2, 128, 143)) s'
          else false
      end
  end.

Definition utf8_valid (s : bytes) : bool := utf8_from None s.

Definition decode (raw : bytes) : option text :=
  if utf8_valid raw then Some raw else None.

End Py.

(** ** Regular expressions

    The fragment of Python's [re] that the program's three patterns use,
    with the backtracking order of the interpreter: [run] lists every way
    a pattern can match at the cursor, most preferred first, so the match
    [re] reports is the head of that list.  A cursor carries the character
    before it, which is what [^] under [re.MULTILINE] looks at.  The
    patterns repeat one-character classes only, so [Star] and [Plus] take
    a class.  The repeated classes (any character but the newline, but
    the comma, but the quote) hold every character outside ASCII and each
    repetition is followed by an ASCII literal, so reading them byte by
    byte gives the matches and the captures of reading them character by
    character.  One departure: in a [str] pattern [\d] also matches the
    decimal digits outside ASCII, and here it is [[0-9]]; [number_re]
    below is the number of the two header patterns for headers whose
    numbers are written with ASCII digits. *)

Module Re.

Inductive re : Type :=
| Eps
| Bol                              (* ^ with re.MULTILINE *)
| Chr (c : ascii)
| Cls (p : ascii -> bool)
| Seq (a b : re)
| Alt (a b : re)                   (* a|b *)
| Opt (a : re)                     (* a? *)
| Star (p : ascii -> bool)         (* [p]* *)
| Plus (p : ascii -> bool)         (* [p]+ *)
| Group (name : string) (a : re).  (* (?P<name>a) *)

Definition cursor := (option ascii * text)%type.
Definition captures := list (string * text).
Definition outcome := (cursor * captures)%type.

Definition at_bol (prev : option ascii) : bool :=
  match prev with
  | None => true
  | Some c => Ascii.eqb c NL
  end.

(** every way [[p]*] can match, longest first *)
Fixpoint star (p : ascii -> bool) (prev : option ascii) (s : text)
  : list cursor :=
  match s with
  | [] => [(prev, [])]
  | c :: s' =>
      if p c then star p (Some c) s' ++ [(prev, s)] else [(prev, s)]
  end.

Fixpoint run (r : re) (cur : cursor) (caps : captures) : list outcome :=
  match r with
  | Eps => [(cur, caps)]
  | Bol => if at_bol (fst cur) then [(cur, caps)] else []
  | Chr c =>
      match snd cur with
      | x :: s' => if Ascii.eqb x c then [((Some x, s'), caps)] else []
      | [] => []
      end
  | Cls p =>
      match snd cur with
      | x :: s' => if p x then [((Some x, s'), caps)] else []
      | [] => []
      end
  | Seq a b => flat_map (fun o => run b (fst o) (snd o)) (run a cur caps)
  | Alt a b => run a cur caps ++ run b cur caps
  | Opt a => run a cur caps ++ [(cur, caps)]
  | Star p => map (fun c => (c, caps)) (star p (fst cur) (snd cur))
  | Plus p =>
      match snd cur with
      | x :: s' =>
          if p x then map (fun c => (c, caps)) (star p (Some x) s') else []
      | [] => []
      end
  | Group name a =>
      map (fun o =>
             let taken := length (snd cur) - length (snd (fst o)) in
             (fst o, (name, firstn taken (snd cur)) :: snd o))
          (run a cur caps)
  end.

(** a literal run of characters *)
Fixpoint lit (s : text) : re :=
  match s with
  | [] => Eps
  | c :: s' => Seq (Chr c) (lit s')
  end.

(** the match at the cursor, if the pattern matches there *)
Definition match_at (r : re) (prev : option ascii) (s : text)
  : option outcome :=
  hd_error (run r (prev, s) []).

(** [m.groupdict()[name]] *)
Fixpoint group (name : string) (caps : captures) : text :=
  match caps with
  | [] => []
  | (n, v) :: caps' => if String.eqb n name then v else group name caps'
  end.

(** [r.finditer(s)]: the captures of the leftmost non-overlapping matches,
    left to right.  [skip] counts the characters of a match that is being
    passed over.  (None of the program's patterns matches the empty text;
    an empty match is recorded and the scan moves on by one character.) *)
Fixpoint finditer_from (r : re) (prev : option ascii) (skip : nat)
    (s : text) : list captures :=
  match s with
  | [] =>
      match skip, match_at r prev [] with
      | O, Some o => [snd o]
      | _, _ => []
      end
  | c :: s' =>
      match skip with
      | S k => finditer_from r (Some c) k s'
      | O =>
          match match_at r prev s with
          | Some o =>
              snd o ::
              finditer_from r (Some c)
                (length s - length (snd (fst o)) - 1) s'
          | None => finditer_from r (Some c) 0 s'
          end
      end
  end.

Definition finditer (r : re) (s : text) : list captures :=
  finditer_from r None 0 s.

(** [re.sub(r, repl, s)] for a replacement without group references *)
Fixpoint sub_from (r : re) (repl : text) (prev : option ascii) (skip : nat)
    (s : text) : text :=
  match s with
  | [] =>
      match skip, match_at r prev [] with
      | O, Some _ => repl
      | _, _ => []
      end
  | c :: s' =>
      match skip with
      | S k => sub_from r repl (Some c) k s'
      | O =>
          match match_at r prev s with
          | Some o =>
              match length s - length (snd (fst o)) with
              | O => repl ++ c :: sub_from r repl (Some c) 0 s'
              | S k => repl ++ sub_from r repl (Some c) k s'
              end
          | None => c :: sub_from r repl (Some c) 0 s'
          end
      end
  end.

Definition sub (r : re) (repl s : text) : text := sub_from r repl None 0 s.

(** character classes; [is_digit] is [[0-9]], the class of the marker
    pattern, and stands for [\d] in the header patterns *)
Definition is_digit (c : ascii) : bool :=
  let n := nat_of_ascii c in (48 <=? n) && (n <=? 57).
Definition dot (c : ascii) : bool := negb (Ascii.eqb c NL).
Definition not_char (x : ascii) (c : ascii) : bool := negb (Ascii.eqb c x).
Definition one_of (chars : text) (c : ascii) : bool :=
  existsb (Ascii.eqb c) chars.

End Re.

(** ** The program: [src/vcf2tsv/cli.py] *)

Import Re.

Definition QUOTE : ascii := ascii_of_nat 34.
Definition COMMA : ascii := ascii_of_nat 44.
Definition PIPE : ascii := ascii_of_nat 124.
Definition COLON : ascii := ascii_of_nat 58.

Inductive OutputFormat : Type := wide | long.

Definition OutputFormat_eqb (a b : OutputFormat) : bool :=
  match a, b with
  | wide, wide | long, long => true
  | _, _ => false
  end.

(** [-?\d+|\.|[AG]] and [-?\d+|\.|[AGR]] *)
Definition number_re (letters : string) : re :=
  Alt (Seq (Opt (Chr "-")) (Plus is_digit))
      (Alt (Chr ".") (Cls (one_of (txt letters)))).

(** [Integer|Float|Flag|Character|String] *)
Definition type_re : re :=
  Alt (lit (txt "Integer"))
  (Alt (lit (txt "Float"))
  (Alt (lit (txt "Flag"))
  (Alt (lit (txt "Character"))
       (lit (txt "String"))))).

(** [RE_INFO], compiled with [re.VERBOSE | re.MULTILINE]: the white space
    of the pattern text is not part of the pattern. *)
Definition RE_INFO : re :=
  Seq Bol
  (Seq (lit (txt "##INFO=<"))
  (Seq (lit (txt "ID="))
  (Seq (Group "id" (Plus (not_char COMMA)))
  (Seq (lit (txt ",Number="))
  (Seq (Group "number" (number_re "AG"))
  (Seq (lit (txt ",Type="))
  (Seq (Group "type" type_re)
  (Seq (lit (txt ",Description="))
  (Seq (Chr QUOTE)
  (Seq (Group "desc" (Star (not_char QUOTE)))
  (Seq (Chr QUOTE)
  (Seq (Star dot)
       (Chr ">"))))))))))))).

Definition RE_FORMAT : re :=
  Seq Bol
  (Seq (lit (txt "##FORMAT=<"))
  (Seq (lit (txt "ID="))
  (Seq (Group "id" (Plus dot))
  (Seq (lit (txt ",Number="))
  (Seq (Group "number" (number_re "AGR"))
  (Seq (lit (txt ",Type="))
  (Seq (Group "type" (Plus dot))
  (Seq (lit (txt ",Description="))
  (Seq (Chr QUOTE)
  (Seq (Group "desc" (Star dot))
  (Seq (Chr QUOTE)
  (Seq (Star dot)
       (Chr ">"))))))))))))).

(** [\[[0-9]+\]], the positional marker of the engine's header line *)
Definition RE_MARKER : re :=
  Seq (Chr "[") (Seq (Plus is_digit) (Chr "]")).

Definition ANN_HEADER : list text :=
  map txt
    [ "allele"; "effect"; "impact"; "gene_name"; "gene_id";
      "feature_type"; "feature_id"; "transcript_biotype";
      "exon_intron_rank"; "nt_change"; "aa_change";
      "cDNA_position/cDNA_len"; "protein_position";
      "distance_to_feature"; "error" ]%string.

(** lines 97-98 *)
Definition info_fields_of (raw_header : text) : list text :=
  map (group "id") (finditer RE_INFO raw_header).

Definition format_fields_of (raw_header : text) : list text :=
  map (group "id") (finditer RE_FORMAT raw_header).

(** lines 101-121: the argument vector handed to the engine.  The source
    writes [\\t] and [\\n]: the template holds a backslash and a letter. *)
Definition fixed_columns : text :=
  txt "%CHROM\t%POS\t%ID\t%REF\t%ALT\t%QUAL\t%FILTER\t".

Definition query_string (output_format : OutputFormat)
    (info_fields format_fields : list text) : text :=
  match output_format with
  | long =>
      fixed_columns
      ++ Py.join (txt "\t") (map (fun x => txt "%" ++ x) info_fields)
      ++ txt "\t[-->%SAMPLE\t"
      ++ Py.join (txt "\t") (map (fun x => txt "%" ++ x) format_fields)
      ++ txt "\n]"
  | wide =>
      fixed_columns
      ++ Py.join (txt "\t") (map (fun x => txt "%INFO/" ++ x) info_fields)
      ++ txt "[\t%SAMPLE\t"
      ++ Py.join (txt "\t") (map (fun x => txt "%" ++ x) format_fields)
      ++ txt "]\n"
  end.

Definition command (output_format : OutputFormat) (print_header : bool)
    (info_fields format_fields : list text) (filename : text) : list text :=
  let header_flag := if print_header then txt "--print-header" else [] in
  filter (fun a => negb (Nat.eqb (length a) 0))
    [ txt "bcftools"; txt "query"; header_flag; txt "-f";
      query_string output_format info_fields format_fields; filename ].

(** lines 125-127 *)
Definition ann_location (expand_ann : bool) (info_fields : list text)
  : option nat :=
  if expand_ann && Py.list_in (txt "ANN") info_fields
  then option_map (fun i => i + 7) (Py.list_index (txt "ANN") info_fields)
  else None.

(** *** The row stream transformer and the header line renderer *)

Record Schema : Type := {
  info_fields : list text;
  format_fields : list text;
  samples : list text
}.

Record Options : Type := {
  output_format : OutputFormat;
  print_header : bool;
  expand_ann : bool
}.

Definition SENTINEL : text := txt "-->".

(** [re.sub(r"\[[0-9]+\]", "", line).strip("#\n ")] *)
Definition clean_header (line : text) : text :=
  Py.strip ("#"%char :: NL :: " "%char :: nil) (Re.sub RE_MARKER [] line).

(** lines 136-140 *)
Definition wide_header (ann_loc : option nat) (line : text) : text :=
  let line :=
    match ann_loc with
    | Some a =>
        let parts := Py.split TAB line in
        let parts :=
          Py.slice_to (Z.of_nat a - 1) parts ++ ANN_HEADER
          ++ Py.slice_from (Z.of_nat a + 1) parts in
        Py.join [TAB] parts
    | None => line
    end in
  Py.replace [COLON] (txt "_") (clean_header line).

(** lines 144-151: the column names of the long header, before the [F_]
    prefix.  [var.split(":")[1]] exists whenever [":" in var]. *)
Definition unqualify (var : text) : text :=
  if Py.contains [COLON] var then nth 1 (Py.split COLON var) [] else var.

Definition long_header_names (ann_loc : option nat) (line : text)
  : list text :=
  let header := map unqualify (Py.split TAB (clean_header line)) in
  match ann_loc with
  | Some a =>
      Py.slice_to (Z.of_nat a - 1) header ++ ANN_HEADER
      ++ Py.slice_from (Z.of_nat a + 1) header
  | None => header
  end.

(** line 153: the [F_] prefix *)
Definition long_header_columns (ann_loc : option nat)
    (format_fields : list text) (line : text) : list text :=
  let header := long_header_names ann_loc line in
  let k := Z.of_nat (length format_fields) in
  Py.slice_to (- k) header
  ++ map (fun x => txt "F_" ++ x) (Py.slice_from (- k) header).

(** line 154 *)
Definition long_header (ann_loc : option nat) (format_fields : list text)
    (line : text) : text :=
  Py.replace SENTINEL []
    (Py.join [TAB] (long_header_columns ann_loc format_fields line)).

(** lines 170 and 180: one spliced row *)
Definition ann_splice (a : nat) (parts : list text) (var_effect : text)
  : list text :=
  Py.slice_to (Z.of_nat a - 1) parts ++ Py.split PIPE var_effect
  ++ Py.slice_from (Z.of_nat a + 2) parts.

(** lines 162-166: the reconstruction of a long-format row and the new
    value of [fill_fields] *)
Definition long_parts (n_info : nat) (fill_fields : list text) (line : text)
  : list text * list text :=
  let parts := Py.split TAB (Py.strip [NL] line) in
  if Py.startswith SENTINEL (nth 0 parts [])
  then
    (fill_fields
     ++ Py.slice_from
          (Z.of_nat (length parts) - Z.of_nat (length fill_fields)) parts,
     fill_fields)
  else (parts, Py.slice 0 (7 + Z.of_nat n_info) parts).

(** lines 168-173; [None] is the [IndexError] of [parts[ann_loc]] *)
Definition long_rows (ann_loc : option nat) (parts : list text)
  : option (list text) :=
  match ann_loc with
  | Some a =>
      match Py.index parts a with
      | Some ann =>
          Some (map (fun var_effect =>
                       Py.replace SENTINEL []
                         (Py.strip [NL]
                            (Py.join [TAB] (ann_splice a parts var_effect))))
                    (Py.split COMMA ann))
      | None => None
      end
  | None => Some [Py.replace SENTINEL [] (Py.join [TAB] parts)]
  end.

(** lines 177-183 *)
Definition wide_rows (ann_loc : option nat) (line : text)
  : option (list text) :=
  match ann_loc with
  | Some a =>
      let parts := Py.split TAB line in
      match Py.index parts a with
      | Some ann =>
          Some (map (fun var_effect =>
                       Py.strip [NL]
                         (Py.join [TAB] (ann_splice a parts var_effect)))
                    (Py.split COMMA ann))
      | None => None
      end
  | None => Some [Py.strip [NL] line]
  end.

(** The body of the loop (lines 134-183) for raw line [n], once line 132
    has decoded it: the texts it prints and the next [fill_fields], or
    [None] when it raises [IndexError]. *)
Definition process_line (sc : Schema) (opts : Options)
    (ann_loc : option nat) (fill_fields : list text) (n : nat) (line : text)
  : option (list text * list text) :=
  let fmt := output_format opts in
  if Nat.eqb n 0 && print_header opts && OutputFormat_eqb fmt wide then
    Some ([wide_header ann_loc line], fill_fields)
  else if Nat.eqb n 0 && print_header opts && OutputFormat_eqb fmt long then
    Some ([long_header ann_loc (format_fields sc) line], fill_fields)
  else if Nat.ltb n (length (samples sc)) && OutputFormat_eqb fmt long then
    Some ([], fill_fields)
  else if Nat.leb (length (samples sc)) n && OutputFormat_eqb fmt long then
    let '(parts, fill') :=
      long_parts (length (info_fields sc)) fill_fields line in
    option_map (fun rows => (rows, fill')) (long_rows ann_loc parts)
  else
    option_map (fun rows => (rows, fill_fields)) (wide_rows ann_loc line).

(** How a run ends. *)
Inductive Ending : Type :=
| Returned
| Exit (code : Z)
| IndexError
| UnicodeDecodeError.

(** The loop over lines that are decoded already, from raw line [n] on:
    the printed texts in order and how the loop ends. *)
Fixpoint transform_from (sc : Schema) (opts : Options) (ann_loc : option nat)
    (fill_fields : list text) (n : nat) (lines : list text)
  : list text * Ending :=
  match lines with
  | [] => ([], Returned)
  | line :: rest =>
      match process_line sc opts ann_loc fill_fields n line with
      | Some (printed, fill') =>
          let '(out, e) := transform_from sc opts ann_loc fill' (S n) rest in
          (printed ++ out, e)
      | None => ([], IndexError)
      end
  end.

(** lines 125-129, then the loop over decoded lines: [ann_loc] and
    [fill_fields] are set up afresh, and the loop runs from raw line 0. *)
Definition transform (sc : Schema) (opts : Options) (lines : list text)
  : list text * Ending :=
  transform_from sc opts (ann_location (expand_ann opts) (info_fields sc))
    [] 0 lines.

(** The loop of lines 131-183 over what the engine writes: each line is
    decoded when its turn comes (line 132) and then goes through the body;
    a line that does not decode ends the run, after the rows of the lines
    before it have been printed. *)
Fixpoint transform_raw_from (sc : Schema) (opts : Options)
    (ann_loc : option nat) (fill_fields : list text) (n : nat)
    (raw_lines : list bytes) : list text * Ending :=
  match raw_lines with
  | [] => ([], Returned)
  | raw :: rest =>
      match Py.decode raw with
      | None => ([], UnicodeDecodeError)
      | Some line =>
          match process_line sc opts ann_loc fill_fields n line with
          | Some (printed, fill') =>
              let '(out, e) :=
                transform_raw_from sc opts ann_loc fill' (S n) rest in
              (printed ++ out, e)
          | None => ([], IndexError)
          end
      end
  end.

(** lines 125-183: [ann_loc] and [fill_fields] are set up afresh, then the
    loop runs over what the engine writes, from raw line 0. *)
Definition transform_raw (sc : Schema) (opts : Options)
    (raw_lines : list bytes) : list text * Ending :=
  transform_raw_from sc opts
    (ann_location (expand_ann opts) (info_fields sc)) [] 0 raw_lines.

(** *** The command: lines 73-183 *)

Inductive Event : Type :=
| EchoErr (msg : text)          (* typer.echo(msg, err=True) *)
| OpenVCF (path : text)         (* VCF(vcf_path) *)
| Popen (cmd : list text)       (* Popen(cmd, ...) *)
| Print (s : text).             (* print(s) *)

Section Convert.

(** The collaborators: the file system, the variant-file reader (its
    [raw_header] and [samples]) and the lines the engine writes for an
    argument vector. *)
Variable isfile : text -> bool.
Variable VCF : text -> text * list text.
Variable engine : list text -> list bytes.

Definition convert_vcf_to_tsv (vcf_path : text) (fmt : OutputFormat)
    (header ann : bool) : list Event * Ending :=
  if negb (isfile vcf_path) && negb (text_eqb vcf_path (txt "-")) then
    ([EchoErr (txt "Error: " ++ vcf_path ++ txt " does not exist")], Exit 1)
  else
    let '(raw_header, smpls) := VCF vcf_path in
    let sc := {| info_fields := info_fields_of raw_header;
                 format_fields := format_fields_of raw_header;
                 samples := smpls |} in
    let opts := {| output_format := fmt; print_header := header;
                   expand_ann := ann |} in
    let cmd :=
      command fmt header (info_fields sc) (format_fields sc) vcf_path in
    let '(out, e) := transform_raw sc opts (engine cmd) in
    (OpenVCF vcf_path :: Popen cmd :: map Print out, e).

End Convert.

(** *** The entry point: lines 186-206 *)

Section Main.

Variable isfile : text -> bool.
Variable VCF : text -> text * list text.
Variable engine : list text -> list bytes.

(** lines 186-206: the entry point.  An option that the command line does
    not give ([None]) takes the default of the signature. *)
Definition main (vcf : text) (format : option OutputFormat)
    (header ann : option bool) : list Event * Ending :=
  convert_vcf_to_tsv isfile VCF engine vcf
    (match format with Some f => f | None => wide end)
    (match header with Some h => h | None => false end)
    (match ann with Some b => b | None => false end).

End Main.

(** the standard output of a run *)
Definition stdout_of (tr : list Event) : list text :=
  flat_map (fun e => match e with Print s => [s] | _ => [] end) tr.

(** * The vocabulary of the statements

    Nothing below is part of the program: these are the notions the
    theorems are stated with. *)

(** ** Options and columns *)

Definition wide_options (header expand : bool) : Options :=
  {| output_format := wide; print_header := header; expand_ann := expand |}.

Definition long_options (header expand : bool) : Options :=
  {| output_format := long; print_header := header; expand_ann := expand |}.

(** the number of tab-separated columns of a line *)
Definition columns (row : text) : nat := length (Py.split TAB row).

(** the number of tabs of a text *)
Definition tabs (s : text) : nat :=
  length (filter (fun x => Ascii.eqb x TAB) s).

(** ** Decoding *)

(** the lines before the first one that does not decode *)
Fixpoint decoded_prefix (raw_lines : list bytes) : list text :=
  match raw_lines with
  | [] => []
  | raw :: rest =>
      match Py.decode raw with
      | Some line => line :: decoded_prefix rest
      | None => []
      end
  end.

(** how a run over [raw_lines] ends when its subscripts are in range *)
Definition decoding_end (raw_lines : list bytes) : Ending :=
  if forallb Py.utf8_valid raw_lines then Returned else UnicodeDecodeError.

(** ** Matching *)

(** the outcome the interpreter settles on *)
Definition first (r : re) (cur : cursor) (caps : captures)
  : option outcome :=
  hd_error (run r cur caps).

(** the character before the cursor once [u] has been read *)
Definition before (prev : option ascii) (u : text) : option ascii :=
  match rev u with
  | [] => prev
  | c :: _ => Some c
  end.

(** [[p]*] cannot read on at [t] *)
Definition stops (p : ascii -> bool) (t : text) : Prop :=
  match t with
  | [] => True
  | y :: _ => p y = false
  end.

(** no character or class of the pattern matches a newline *)
Fixpoint reads_no_nl (r : re) : bool :=
  match r with
  | Eps | Bol => true
  | Chr c => negb (Ascii.eqb c NL)
  | Cls p | Star p | Plus p => negb (p NL)
  | Seq a b | Alt a b => reads_no_nl a && reads_no_nl b
  | Opt a | Group _ a => reads_no_nl a
  end.

(** the cursor is still in the line [u] that precedes [NL :: v] *)
Definition in_line (u v : text) (cur : cursor) : Prop :=
  exists u1 u2, u = u1 ++ u2 /\ snd cur = u2 ++ NL :: v.

(** the pattern has a group called [name] *)
Fixpoint binds (name : string) (r : re) : bool :=
  match r with
  | Eps | Bol | Chr _ | Cls _ | Star _ | Plus _ => false
  | Seq a b | Alt a b => binds name a || binds name b
  | Opt a => binds name a
  | Group n a => String.eqb n name || binds name a
  end.

(** ** Header lines

    A header is looked at as a list of lines: declarations that [RE_INFO]
    or [RE_FORMAT] accepts, given by their parts, and other lines.  The
    [wf_] conditions say when the parts are what the groups of the pattern
    can capture within one line. *)

Definition is_nil {A} (l : list A) : bool :=
  match l with
  | [] => true
  | _ :: _ => false
  end.

(** the text holds no newline *)
Definition no_nl (t : text) : bool := forallb dot t.

(** the texts that [-?\d+|\.|[letters]] matches in full *)
Definition wf_number (letters : string) (num : text) : bool :=
  match num with
  | [] => false
  | c :: rest =>
      if Ascii.eqb c "-" then negb (is_nil rest) && forallb is_digit rest
      else if is_digit c then forallb is_digit rest
      else (Ascii.eqb c "." || one_of (txt letters) c) && is_nil rest
  end.

(** the alternatives of [type_re] *)
Definition type_names : list text :=
  map txt ["Integer"; "Float"; "Flag"; "Character"; "String"]%string.

(** The parts of a declaration line [##KIND=<ID=id,Number=number,
    Type=type,Description="desc"tail>]: [d_tail] is whatever stands between
    the closing quote and the final [>]. *)
Record Declaration : Type := {
  d_id : text;
  d_number : text;
  d_type : text;
  d_desc : text;
  d_tail : text
}.

Definition decl_attributes (d : Declaration) : text :=
  txt ",Number=" ++ d_number d ++ txt ",Type=" ++ d_type d
  ++ txt ",Description=" ++ QUOTE :: d_desc d ++ QUOTE :: d_tail d
  ++ txt ">".

Definition decl_body (d : Declaration) : text :=
  d_id d ++ decl_attributes d.

Definition info_line (d : Declaration) : text :=
  txt "##INFO=<" ++ txt "ID=" ++ decl_body d.

Definition format_line (d : Declaration) : text :=
  txt "##FORMAT=<" ++ txt "ID=" ++ decl_body d.

(** [info_line d] is one line that [RE_INFO] matches with the parts of
    [d] as its captures: the identifier is not empty and has no comma, the
    number and the type are those of the pattern, the description has no
    quote, and no part has a newline. *)
Definition wf_info (d : Declaration) : bool :=
  negb (is_nil (d_id d))
  && forallb (not_char COMMA) (d_id d) && no_nl (d_id d)
  && wf_number "AG" (d_number d)
  && Py.list_in (d_type d) type_names
  && forallb (not_char QUOTE) (d_desc d) && no_nl (d_desc d)
  && no_nl (d_tail d).

(** [RE_FORMAT] from [,Number=] on *)
Definition format_attributes_re : re :=
  Seq (lit (txt ",Number="))
  (Seq (Group "number" (number_re "AGR"))
  (Seq (lit (txt ",Type="))
  (Seq (Group "type" (Plus dot))
  (Seq (lit (txt ",Description="))
  (Seq (Chr QUOTE)
  (Seq (Group "desc" (Star dot))
  (Seq (Chr QUOTE)
  (Seq (Star dot)
       (Chr ">"))))))))).

(** [format_line d] is one line that [RE_FORMAT] matches with [d_id d]
    as its [id] capture: identifier and type are not empty, the number is
    one of the pattern, no part has a newline, and [,Number=] does not
    occur again after the identifier (the group [.+] is greedy: it takes
    the longest identifier that leaves a match for the rest). *)
Definition wf_format (d : Declaration) : bool :=
  negb (is_nil (d_id d)) && no_nl (d_id d)
  && wf_number "AGR" (d_number d)
  && negb (is_nil (d_type d)) && no_nl (d_type d)
  && no_nl (d_desc d)
  && no_nl (d_tail d)
  && negb (Py.contains (txt ",Number=") (tl (decl_attributes d))).

Inductive HeaderLine : Type :=
| InfoLine (d : Declaration)
| FormatLine (d : Declaration)
| OtherLine (l : text).

Definition line_text (hl : HeaderLine) : text :=
  match hl with
  | InfoLine d => info_line d
  | FormatLine d => format_line d
  | OtherLine l => l
  end.

(** any other line has no newline and starts with neither
    [##INFO=<ID=] nor [##FORMAT=<ID=] *)
Definition wf_line (hl : HeaderLine) : bool :=
  match hl with
  | InfoLine d => wf_info d
  | FormatLine d => wf_format d
  | OtherLine l =>
      no_nl l
      && negb (Py.startswith (txt "##INFO=<ID=") l)
      && negb (Py.startswith (txt "##FORMAT=<ID=") l)
  end.

(** the header text: every line ends with a newline *)
Definition header_text (ls : list HeaderLine) : text :=
  flat_map (fun hl => line_text hl ++ [NL]) ls.

(** the identifiers of the INFO and of the FORMAT declarations, in the
    order of the lines, with repetitions *)
Definition info_ids (ls : list HeaderLine) : list text :=
  flat_map (fun hl => match hl with InfoLine d => [d_id d] | _ => [] end) ls.

Definition format_ids (ls : list HeaderLine) : list text :=
  flat_map (fun hl => match hl with FormatLine d => [d_id d] | _ => [] end)
    ls.

Definition is_info_line (hl : HeaderLine) : bool :=
  match hl with InfoLine _ => true | _ => false end.

Definition is_format_line (hl : HeaderLine) : bool :=
  match hl with FormatLine _ => true | _ => false end.

(** The claim read line by line: the ID captures of the header lines that
    match the pattern, in the order of the lines. *)
Definition ids_of_matching_lines (r : re) (raw_header : text) : list text :=
  flat_map (fun l => match match_at r None l with
                     | Some o => [group "id" (snd o)]
                     | None => []
                     end)
    (Py.split NL raw_header).

(** ** Matches that stay in their lines *)

(** the outcome has not read into the suffix [t] *)
Definition within (t : text) (o : outcome) : bool :=
  length t <=? length (snd (fst o)).

(** the outcome of a text, seen in the text followed by [t] *)
Definition shift (t : text) (o : outcome) : outcome :=
  ((fst (fst o), snd (fst o) ++ t), snd o).

(** the pattern has no [^] *)
Fixpoint bol_free (r : re) : bool :=
  match r with
  | Bol => false
  | Eps | Chr _ | Cls _ | Star _ | Plus _ => true
  | Seq a b | Alt a b => bol_free a && bol_free b
  | Opt a | Group _ a => bol_free a
  end.

(** an outcome without the character before its cursor *)
Definition reading (o : outcome) : text * captures := (snd (fst o), snd o).

(** the text of a header given by its lines: every line ends with a
    newline *)
Definition text_of_lines (ls : list text) : text :=
  flat_map (fun l => l ++ [NL]) ls.

(** No match that starts at the start of a line of the header reads past
    the end of that line. *)
Fixpoint stays_in_lines (r : re) (prev : option ascii) (ls : list text)
  : bool :=
  match ls with
  | [] => true
  | l :: ls' =>
      match match_at r prev (l ++ NL :: text_of_lines ls') with
      | Some o => within (NL :: text_of_lines ls') o
      | None => true
      end
      && stays_in_lines r (Some NL) ls'
  end.

(** the lines of the header, taken alone, that the pattern matches *)
Definition matching_lines (r : re) (ls : list text) : list text :=
  filter (fun l => match match_at r None l with
                   | Some _ => true
                   | None => false
                   end) ls.

(** ** The engine's header line *)

(** a column of the engine's header line: the digits of its marker and
    its name *)
Definition marker_ok (c : text * text) : bool :=
  negb (is_nil (fst c)) && forallb is_digit (fst c)
  && forallb (fun x => negb (Ascii.eqb x "[")) (snd c).

(** the header line of the columns [cols], without the leading [#] and the
    newline: every name with its marker [[digits]] in front *)
Definition marked (cols : list (text * text)) : text :=
  Py.join [TAB]
    (map (fun c => "["%char :: fst c ++ "]"%char :: snd c) cols).

(** ** Concrete inputs *)

(** Concrete rows: info fields [DP], [ANN], [AF] and one sample. *)
Definition ex_info : list text := map txt ["DP"; "ANN"; "AF"]%string.

Definition ex_row (ann : string) : list text :=
  map txt ["chr1"; "100"; "rs1"; "A"; "T"; "30"; "PASS";
           "12"; ann; "0.5"; "S1"; "0/1"]%string.

Definition ex_line (ann : string) : text :=
  Py.join [TAB] (ex_row ann) ++ [NL].

Definition ex_ann15 : string :=
  "T|missense|HIGH|G|g1|tr|t1|pc|1/2|c.1A>T|p.K1N|1/9|1|0|".
Definition ex_ann2 : string := "T|missense|HIGH,T|synonymous|LOW".

Definition ex_wide_header_line : text :=
  txt "#[1]CHROM" ++ [TAB] ++ txt "[2]POS" ++ [TAB] ++ txt "[3]ID" ++ [TAB]
  ++ txt "[4]REF" ++ [TAB] ++ txt "[5]ALT" ++ [TAB] ++ txt "[6]QUAL" ++ [TAB]
  ++ txt "[7]FILTER" ++ [TAB] ++ txt "[8]DP" ++ [TAB] ++ txt "[9]ANN"
  ++ [TAB] ++ txt "[10]AF" ++ [TAB] ++ txt "[11]S1:SAMPLE" ++ [TAB]
  ++ txt "[12]S1:GT" ++ [NL].

Definition ex_wide_schema : Schema :=
  {| info_fields := ex_info; format_fields := [txt "GT"];
     samples := [txt "S1"] |}.

(** A concrete world: one file, a header without ANN, two samples. *)
Definition ex_isfile (path : text) : bool := text_eqb path (txt "a.vcf").

Definition ex_raw_header : text :=
  txt "##fileformat=VCFv4.2" ++ [NL]
  ++ txt "##INFO=<ID=DP,Number=1,Type=Integer,Description=" ++ [QUOTE]
  ++ txt "Depth" ++ [QUOTE] ++ txt ">" ++ [NL]
  ++ txt "##FORMAT=<ID=GT,Number=1,Type=String,Description=" ++ [QUOTE]
  ++ txt "Genotype" ++ [QUOTE] ++ txt ">" ++ [NL].

Definition ex_VCF (path : text) : text * list text :=
  (ex_raw_header, map txt ["S1"; "S2"]%string).

Definition ex_engine (cmd : list text) : list bytes :=
  [ Py.join [TAB]
      (map txt ["chr1"; "100"; "rs1"; "A"; "T"; "30"; "PASS"; "12";
                "S1"; "0/1"; "S2"; "1/1"]%string) ++ [NL] ].

(** a line that is not UTF-8: a lone byte [0xE9] *)
Definition ex_undecodable : bytes := [ascii_of_nat 233; NL].

Definition ex_schema : Schema :=
  {| info_fields := [txt "DP"]; format_fields := [txt "GT"];
     samples := map txt ["S1"; "S2"]%string |}.

Definition ex_long_header_line : text :=
  txt "#[1]CHROM" ++ [TAB] ++ txt "[2]POS" ++ [TAB] ++ txt "[3]ID" ++ [TAB]
  ++ txt "[4]REF" ++ [TAB] ++ txt "[5]ALT" ++ [TAB] ++ txt "[6]QUAL" ++ [TAB]
  ++ txt "[7]FILTER" ++ [TAB] ++ txt "[8]DP" ++ [TAB]
  ++ txt "[9]-->S1:SAMPLE" ++ [TAB] ++ txt "[10]S1:GT" ++ [NL].

Definition ex_long_lines : list text :=
  [ txt "placeholder" ++ [NL]; txt "placeholder" ++ [NL];
    Py.join [TAB]
      (map txt ["chr1"; "100"; "rs1"; "A"; "T"; "30"; "PASS"; "12";
                "-->S1"; "0/1"]%string) ++ [NL];
    Py.join [TAB] (map txt ["-->S2"; "1/1"]%string) ++ [NL] ].

Definition ex_fill : list text :=
  map txt ["chr1"; "100"; "rs1"; "A"; "T"; "30"; "PASS"]%string.

Definition ex_continuation : text :=
  Py.join [TAB] (map txt ["-->S2"; "0/0"; "12"; "80"]%string) ++ [NL].

(** One info field, four format fields, two samples; raw lines 0 and 1 are
    the ones the loop skips, lines 2 and 3 are one variant. *)
Definition ex_four_formats : Schema :=
  {| info_fields := [txt "DP"];
     format_fields := map txt ["GT"; "AD"; "DP"; "GQ"]%string;
     samples := map txt ["S1"; "S2"]%string |}.

Definition ex_variant_lines : list text :=
  [ txt "skipped" ++ [NL]; txt "skipped" ++ [NL];
    Py.join [TAB]
      (map txt ["chr1"; "200"; "rs2"; "G"; "C"; "40"; "PASS"; "15";
                "-->S1"; "0/1"; "3,4"; "7"; "50"]%string) ++ [NL];
    Py.join [TAB]
      (map txt ["-->S2"; "1/1"; "0,9"; "9"; "60"]%string) ++ [NL] ].

Definition ex_unclosed_header : text :=
  txt "##INFO=<ID=A" ++ [NL]
  ++ txt "##INFO=<ID=B,Number=1,Type=Flag,Description=" ++ [QUOTE]
  ++ txt "x" ++ [QUOTE] ++ txt ">" ++ [NL].

Definition ex_unclosed_format_header : text :=
  txt "##FORMAT=<ID=A" ++ [NL]
  ++ txt "##FORMAT=<ID=B,Number=1,Type=Flag,Description=" ++ [QUOTE]
  ++ txt "x" ++ [QUOTE] ++ txt ">" ++ [NL].

Definition ex_decl (id number type desc : string) : Declaration :=
  {| d_id := txt id; d_number := txt number; d_type := txt type;
     d_desc := txt desc; d_tail := [] |}.

Definition ex_header_lines : list HeaderLine :=
  [ OtherLine (txt "##fileformat=VCFv4.2");
    InfoLine (ex_decl "DP" "1" "Integer" "Total depth");
    InfoLine (ex_decl "AF" "A" "Float" "Allele frequency");
    OtherLine (txt "##INFO=<broken");
    FormatLine (ex_decl "GT" "1" "String" "Genotype");
    InfoLine (ex_decl "DP" "1" "Integer" "Total depth, again");
    FormatLine (ex_decl "AD" "R" "Integer" "Allelic depths");
    OtherLine (txt "#CHROM") ].

Definition ex_text_lines : list text := map line_text ex_header_lines.

(** * Proofs *)

(** ** The sequence operations *)

Lemma text_eqb_eq (a b : text) : text_eqb a b = true <-> a = b.
Proof.
  unfold text_eqb. destruct (list_eq_dec ascii_dec a b); split; congruence.
Qed.

Lemma norm_bound_nonneg {A} (l : list A) (i : Z) :
  (0 <= i)%Z -> Py.norm_bound l i = Nat.min (length l) (Z.to_nat i).
Proof.
  intros Hi. unfold Py.norm_bound.
  destruct (i <? 0)%Z eqn:E; [apply Z.ltb_lt in E; lia|]. lia.
Qed.

Lemma slice_to_nonneg {A} (l : list A) (j : Z) :
  (0 <= j)%Z -> Py.slice_to j l = firstn (Z.to_nat j) l.
Proof.
  intros Hj. unfold Py.slice_to. rewrite norm_bound_nonneg by assumption.
  destruct (Nat.le_ge_cases (length l) (Z.to_nat j)) as [H|H].
  - rewrite Nat.min_l by assumption.
    rewrite !firstn_all2; auto.
  - rewrite Nat.min_r by assumption. reflexivity.
Qed.

Lemma slice_from_nonneg {A} (l : list A) (i : Z) :
  (0 <= i)%Z -> Py.slice_from i l = skipn (Z.to_nat i) l.
Proof.
  intros Hi. unfold Py.slice_from. rewrite norm_bound_nonneg by assumption.
  destruct (Nat.le_ge_cases (length l) (Z.to_nat i)) as [H|H].
  - rewrite Nat.min_l by assumption.
    rewrite !skipn_all2; auto.
  - rewrite Nat.min_r by assumption. reflexivity.
Qed.

Lemma slice_to_zero {A} (l : list A) : Py.slice_to 0 l = [].
Proof. rewrite slice_to_nonneg by lia. reflexivity. Qed.

Lemma slice_from_zero {A} (l : list A) : Py.slice_from 0 l = l.
Proof. rewrite slice_from_nonneg by lia. reflexivity. Qed.

Lemma slice_to_neg {A} (l : list A) (k : nat) :
  0 < k <= length l ->
  Py.slice_to (- Z.of_nat k) l = firstn (length l - k) l.
Proof.
  intros Hk. unfold Py.slice_to, Py.norm_bound.
  destruct (- Z.of_nat k <? 0)%Z eqn:E; [|apply Z.ltb_ge in E; lia].
  f_equal. lia.
Qed.

Lemma slice_from_neg {A} (l : list A) (k : nat) :
  0 < k <= length l ->
  Py.slice_from (- Z.of_nat k) l = skipn (length l - k) l.
Proof.
  intros Hk. unfold Py.slice_from, Py.norm_bound.
  destruct (- Z.of_nat k <? 0)%Z eqn:E; [|apply Z.ltb_ge in E; lia].
  f_equal. lia.
Qed.

Lemma list_index_spec (x : text) (l : list text) (i : nat) :
  Py.list_index x l = Some i ->
  nth_error l i = Some x /\ forall j, j < i -> nth_error l j <> Some x.
Proof.
  revert i. induction l as [|y l IH]; simpl; intros i H; [discriminate|].
  destruct (text_eqb y x) eqn:E.
  - injection H as <-. apply text_eqb_eq in E. subst y.
    split; [reflexivity|]. intros j Hj. lia.
  - destruct (Py.list_index x l) as [k|]; [|discriminate].
    injection H as <-. destruct (IH k eq_refl) as [Hk Hmin].
    split; [exact Hk|]. intros [|j] Hj; simpl.
    + intros Heq. injection Heq as ->.
      assert (text_eqb x x = true) by (apply text_eqb_eq; reflexivity).
      congruence.
    + apply Hmin. lia.
Qed.

Lemma list_index_in (x : text) (l : list text) (i : nat) :
  Py.list_index x l = Some i -> Py.list_in x l = true.
Proof.
  revert i. induction l as [|y l IH]; simpl; intros i H; [discriminate|].
  destruct (text_eqb y x); [reflexivity|]. simpl.
  destruct (Py.list_index x l) as [k|]; [|discriminate]. eauto.
Qed.

Lemma list_in_index (x : text) (l : list text) :
  Py.list_in x l = true -> exists i, Py.list_index x l = Some i.
Proof.
  induction l as [|y l IH]; simpl; [discriminate|].
  destruct (text_eqb y x); [intros _; exists 0; reflexivity|]. simpl.
  intros H. destruct (IH H) as [i ->]. exists (S i). reflexivity.
Qed.

Lemma list_in_false_index (x : text) (l : list text) :
  Py.list_in x l = false -> Py.list_index x l = None.
Proof.
  induction l as [|y l IH]; simpl; [reflexivity|].
  destruct (text_eqb y x); [discriminate|]. simpl. intros H.
  rewrite (IH H). reflexivity.
Qed.

Lemma split_not_nil (c : ascii) (s : text) : Py.split c s <> [].
Proof.
  destruct s as [|x s]; simpl; [discriminate|].
  destruct (Ascii.eqb x c); [discriminate|].
  destruct (Py.split c s); discriminate.
Qed.

Lemma hd_error_app_live {A} (l1 l2 : list A) (x : A) :
  hd_error l1 = Some x -> hd_error (l1 ++ l2) = Some x.
Proof. destruct l1; simpl; congruence. Qed.

Lemma flat_map_map_compose {A B C} (g : A -> B) (f : B -> list C)
    (l : list A) :
  flat_map f (map g l) = flat_map (fun x => f (g x)) l.
Proof.
  induction l as [|x l IH]; simpl; [reflexivity|]. rewrite IH. reflexivity.
Qed.

Lemma firstn_length_sub {A} (u t : list A) :
  firstn (length (u ++ t) - length t) (u ++ t) = u.
Proof.
  rewrite length_app, Nat.add_sub. rewrite firstn_app, Nat.sub_diag.
  rewrite firstn_all. simpl. apply app_nil_r.
Qed.

Lemma Forall_firstn {A} (P : A -> Prop) (n : nat) (l : list A) :
  Forall P l -> Forall P (firstn n l).
Proof.
  intros H. revert n. induction H; intros [|n]; simpl; constructor; auto.
Qed.

Lemma Forall_skipn {A} (P : A -> Prop) (n : nat) (l : list A) :
  Forall P l -> Forall P (skipn n l).
Proof.
  intros H. revert n. induction H; intros [|n]; simpl; auto.
Qed.

Lemma dot_not_nl (c : ascii) : dot c = true -> Ascii.eqb c NL = false.
Proof. unfold dot. destruct (Ascii.eqb c NL); [discriminate|reflexivity]. Qed.

Lemma no_nl_app (a b : text) :
  no_nl (a ++ b) = no_nl a && no_nl b.
Proof. apply forallb_app. Qed.

Lemma startswith_app {p l : text} (t : text) :
  Py.startswith p l = true -> Py.startswith p (l ++ t) = true.
Proof.
  revert l. induction p as [|a p IH]; intros l H; [reflexivity|].
  destruct l as [|x l]; [discriminate|]. simpl in *.
  apply andb_true_iff in H. destruct H as [-> H]. simpl. apply IH. exact H.
Qed.

Lemma startswith_before_nl (p l v : text) :
  no_nl p = true ->
  Py.startswith p (l ++ NL :: v) = true -> Py.startswith p l = true.
Proof.
  revert l. induction p as [|a p IH]; intros l Hp H; [reflexivity|].
  simpl in Hp. apply andb_true_iff in Hp. destruct Hp as [Ha Hp].
  destruct l as [|x l]; simpl in *.
  - apply dot_not_nl in Ha. rewrite Ha in H. discriminate.
  - apply andb_true_iff in H. destruct H as [-> H]. simpl. apply IH; assumption.
Qed.

Lemma startswith_app_split (a b s : text) :
  Py.startswith a s = true ->
  Py.startswith (a ++ b) s = Py.startswith b (skipn (length a) s).
Proof.
  revert s. induction a as [|x a IH]; intros s H; [reflexivity|].
  destruct s as [|y s]; [discriminate|]. simpl in *.
  apply andb_true_iff in H. destruct H as [-> H]. simpl. apply IH. exact H.
Qed.

Lemma startswith_app_l (a b s : text) :
  Py.startswith a s = false -> Py.startswith (a ++ b) s = false.
Proof.
  revert s. induction a as [|x a IH]; intros s H; [discriminate|].
  destruct s as [|y s]; [reflexivity|]. simpl in *.
  destruct (Ascii.eqb x y); simpl in *; [apply IH; exact H|reflexivity].
Qed.

Lemma startswith_skipn (a s : text) :
  Py.startswith a s = true -> s = a ++ skipn (length a) s.
Proof.
  revert s. induction a as [|c a IH]; intros s H; [reflexivity|].
  destruct s as [|y s]; [discriminate|]. simpl in H.
  apply andb_true_iff in H. destruct H as [Hc Hs].
  apply Ascii.eqb_eq in Hc. subst y. simpl. f_equal. apply IH. exact Hs.
Qed.

Lemma contains_app_r (p a b : text) :
  Py.contains p (a ++ b) = false -> Py.contains p b = false.
Proof.
  induction a as [|x a IH]; intros H; [exact H|].
  simpl in H. apply orb_false_iff in H. destruct H as [_ H]. apply IH.
  exact H.
Qed.

Lemma contains_startswith (p s : text) :
  Py.contains p s = false -> Py.startswith p s = false.
Proof.
  destruct s; simpl; intros H; apply orb_false_iff in H; apply H.
Qed.

(** ** Counting columns *)

Lemma tabs_app (a b : text) : tabs (a ++ b) = tabs a + tabs b.
Proof. unfold tabs. rewrite filter_app, length_app. reflexivity. Qed.

Lemma tabs_cons (c : ascii) (s : text) :
  tabs (c :: s) = (if Ascii.eqb c TAB then 1 else 0) + tabs s.
Proof. unfold tabs. simpl. destruct (Ascii.eqb c TAB); reflexivity. Qed.

Lemma tabs_rev (s : text) : tabs (rev s) = tabs s.
Proof.
  induction s as [|c s IH]; [reflexivity|].
  simpl. rewrite tabs_app, IH, !tabs_cons. unfold tabs at 2. simpl. lia.
Qed.

Lemma columns_tabs (s : text) : columns s = S (tabs s).
Proof.
  unfold columns. induction s as [|c s IH]; [reflexivity|].
  rewrite tabs_cons. simpl.
  destruct (Ascii.eqb c TAB); simpl; [rewrite IH; reflexivity|].
  destruct (Py.split TAB s); simpl in *; lia.
Qed.

Lemma split_tab_free (c : ascii) (s : text) :
  Ascii.eqb c TAB = false -> tabs s = 0 ->
  Forall (fun t => tabs t = 0) (Py.split c s).
Proof.
  intros Hc. induction s as [|x s IH]; intros Hs.
  - repeat constructor.
  - rewrite tabs_cons in Hs.
    destruct (Ascii.eqb x TAB) eqn:Ex; [simpl in Hs; lia|].
    simpl in Hs. specialize (IH Hs). simpl.
    destruct (Ascii.eqb x c).
    + constructor; [reflexivity|exact IH].
    + destruct (Py.split c s) as [|h t]; [repeat constructor|].
      * rewrite tabs_cons, Ex. reflexivity.
      * inversion IH; subst. constructor; [|assumption].
        rewrite tabs_cons, Ex. simpl. assumption.
Qed.

Lemma split_tab_tokens (s : text) :
  Forall (fun t => tabs t = 0) (Py.split TAB s).
Proof.
  induction s as [|x s IH]; [repeat constructor|].
  simpl. destruct (Ascii.eqb x TAB) eqn:Ex.
  - constructor; [reflexivity|exact IH].
  - destruct (Py.split TAB s) as [|h t]; [repeat constructor|].
    + rewrite tabs_cons, Ex. reflexivity.
    + inversion IH; subst. constructor; [|assumption].
      rewrite tabs_cons, Ex. simpl. assumption.
Qed.

Lemma tabs_join (l : list text) :
  Forall (fun t => tabs t = 0) l ->
  S (tabs (Py.join [TAB] l)) = Nat.max 1 (length l).
Proof.
  induction 1 as [|x l Hx Hl IH]; [reflexivity|].
  destruct l as [|y l].
  - simpl. rewrite Hx. reflexivity.
  - change (Py.join [TAB] (x :: y :: l))
      with (x ++ [TAB] ++ Py.join [TAB] (y :: l)).
    rewrite !tabs_app, Hx. change (tabs [TAB]) with 1.
    simpl length in *. lia.
Qed.

Lemma in_chars_not_tab (chars : text) (c : ascii) :
  Py.in_chars chars TAB = false -> Py.in_chars chars c = true ->
  Ascii.eqb c TAB = false.
Proof.
  intros Ht Hc. destruct (Ascii.eqb_spec c TAB); [|reflexivity].
  subst c. congruence.
Qed.

Lemma tabs_lstrip (chars s : text) :
  Py.in_chars chars TAB = false -> tabs (Py.lstrip chars s) = tabs s.
Proof.
  intros Ht. induction s as [|c s IH]; [reflexivity|]. simpl.
  destruct (Py.in_chars chars c) eqn:Ec; [|reflexivity].
  rewrite tabs_cons, (in_chars_not_tab chars c Ht Ec). exact IH.
Qed.

Lemma tabs_strip (chars s : text) :
  Py.in_chars chars TAB = false -> tabs (Py.strip chars s) = tabs s.
Proof.
  intros Ht. unfold Py.strip, Py.rstrip.
  rewrite tabs_rev, tabs_lstrip, tabs_rev, tabs_lstrip by exact Ht.
  reflexivity.
Qed.

Lemma tabs_replace_char (old new : ascii) (s : text) :
  Ascii.eqb old TAB = false -> Ascii.eqb new TAB = false ->
  tabs (Py.replace [old] [new] s) = tabs s.
Proof.
  intros Ho Hn. unfold Py.replace.
  induction s as [|c s IH]; [reflexivity|].
  cbn [Py.replace_from Py.startswith length Nat.sub].
  destruct (Ascii.eqb old c) eqn:E; cbn [andb].
  - apply Ascii.eqb_eq in E. subst c. cbn [app].
    rewrite !tabs_cons, Ho, Hn. exact (f_equal _ IH).
  - rewrite !tabs_cons. exact (f_equal _ IH).
Qed.

(** ** Matching *)

Lemma first_seq (a b : re) cur caps o o' :
  first a cur caps = Some o ->
  first b (fst o) (snd o) = Some o' ->
  first (Seq a b) cur caps = Some o'.
Proof.
  unfold first. simpl.
  destruct (run a cur caps) as [|x l]; simpl; [discriminate|].
  intros [= ->] H. apply hd_error_app_live. exact H.
Qed.

Lemma first_alt_l (a b : re) cur caps o :
  first a cur caps = Some o -> first (Alt a b) cur caps = Some o.
Proof. unfold first. simpl. apply hd_error_app_live. Qed.

Lemma first_alt_r (a b : re) cur caps :
  run a cur caps = [] -> first (Alt a b) cur caps = first b cur caps.
Proof. unfold first. simpl. intros ->. reflexivity. Qed.

Lemma first_opt_l (a : re) cur caps o :
  first a cur caps = Some o -> first (Opt a) cur caps = Some o.
Proof. unfold first. simpl. apply hd_error_app_live. Qed.

Lemma first_opt_r (a : re) cur caps :
  run a cur caps = [] -> first (Opt a) cur caps = Some (cur, caps).
Proof. unfold first. simpl. intros ->. reflexivity. Qed.

Lemma first_group (name : string) (a : re) cur caps o :
  first a cur caps = Some o ->
  first (Group name a) cur caps
  = Some (fst o,
          (name, firstn (length (snd cur) - length (snd (fst o))) (snd cur))
          :: snd o).
Proof.
  unfold first. simpl. destruct (run a cur caps); simpl; [discriminate|].
  intros [= ->]. reflexivity.
Qed.

Lemma first_bol prev s caps :
  at_bol prev = true -> first Bol (prev, s) caps = Some ((prev, s), caps).
Proof. unfold first. simpl. intros ->. reflexivity. Qed.

Lemma first_chr (c : ascii) prev t caps :
  first (Chr c) (prev, c :: t) caps = Some ((Some c, t), caps).
Proof. unfold first. simpl. rewrite Ascii.eqb_refl. reflexivity. Qed.

Lemma run_chr_mismatch (c x : ascii) prev t caps :
  Ascii.eqb x c = false -> run (Chr c) (prev, x :: t) caps = [].
Proof. simpl. intros ->. reflexivity. Qed.

Lemma before_cons prev c u : before prev (c :: u) = before (Some c) u.
Proof.
  unfold before. simpl. destruct (rev u) eqn:E; simpl; reflexivity.
Qed.

Lemma run_lit_prefix (s t : text) prev caps :
  run (lit s) (prev, s ++ t) caps = [((before prev s, t), caps)].
Proof.
  revert prev. induction s as [|c s IH]; intros prev; simpl.
  - reflexivity.
  - rewrite Ascii.eqb_refl. simpl. rewrite IH, before_cons. reflexivity.
Qed.

Lemma run_lit_mismatch (s t : text) prev caps :
  Py.startswith s t = false -> run (lit s) (prev, t) caps = [].
Proof.
  revert prev t. induction s as [|c s IH]; intros prev t; simpl.
  - discriminate.
  - destruct t as [|x t]; [reflexivity|].
    rewrite Ascii.eqb_sym.
    destruct (Ascii.eqb x c); simpl; [|reflexivity].
    intros H. rewrite IH by exact H. reflexivity.
Qed.

Lemma run_lit_startswith (a s : text) prev caps :
  Py.startswith a s = true ->
  run (lit a) (prev, s) caps
  = [((before prev a, skipn (length a) s), caps)].
Proof.
  intros H. rewrite (startswith_skipn a s H) at 1. apply run_lit_prefix.
Qed.

Lemma first_lit (s t : text) prev caps :
  first (lit s) (prev, s ++ t) caps = Some ((before prev s, t), caps).
Proof. unfold first. rewrite run_lit_prefix. reflexivity. Qed.

Lemma first_lit_startswith (s x : text) prev caps :
  Py.startswith s x = true ->
  first (lit s) (prev, x) caps
  = Some ((before prev s, skipn (length s) x), caps).
Proof.
  intros H.
  assert (E : x = s ++ skipn (length s) x).
  { revert x H. induction s as [|c s IH]; intros x H; [reflexivity|].
    destruct x as [|y x]; [discriminate|]. simpl in H.
    apply andb_true_iff in H. destruct H as [Hc Hs].
    apply Ascii.eqb_eq in Hc. subst y. simpl. f_equal. apply IH. exact Hs. }
  rewrite E at 1. apply first_lit.
Qed.

Lemma match_at_not_bol (r : re) prev s :
  at_bol prev = false -> match_at (Seq Bol r) prev s = None.
Proof. unfold match_at. simpl. intros ->. reflexivity. Qed.

(** A line that does not start with the two literals of a pattern is not
    matched. *)
Lemma match_at_without_prefix (a b : text) (r : re) (l v : text) prev :
  no_nl (a ++ b) = true ->
  Py.startswith (a ++ b) l = false ->
  match_at (Seq Bol (Seq (lit a) (Seq (lit b) r))) prev (l ++ NL :: v) = None.
Proof.
  intros Hp Hl.
  assert (Hs : Py.startswith (a ++ b) (l ++ NL :: v) = false).
  { destruct (Py.startswith (a ++ b) (l ++ NL :: v)) eqn:E; [|reflexivity].
    apply startswith_before_nl in E; [congruence|exact Hp]. }
  unfold match_at. cbn [run fst snd]. destruct (at_bol prev); [|reflexivity].
  cbn [flat_map fst snd]. rewrite app_nil_r.
  destruct (Py.startswith a (l ++ NL :: v)) eqn:Ea.
  - rewrite run_lit_startswith by exact Ea.
    cbn [flat_map fst snd]. rewrite app_nil_r.
    rewrite startswith_app_split in Hs by exact Ea.
    rewrite run_lit_mismatch by exact Hs. reflexivity.
  - rewrite run_lit_mismatch by exact Ea. reflexivity.
Qed.

Lemma star_stops (p : ascii -> bool) prev t :
  stops p t -> star p prev t = [(prev, t)].
Proof.
  destruct t as [|y t]; simpl; [reflexivity|]. intros ->. reflexivity.
Qed.

(** Backtracking over [[p]*]: the candidates that read further than [u1]
    come first; when the rest of the pattern ([f]) fails after each of
    them, the outcomes after [u1] are the preferred ones. *)
Lemma star_dead {B} (f : cursor -> list B) (p : ascii -> bool) (t : text) :
  stops p t ->
  forall w prev,
    forallb p w = true ->
    (forall prev' w1 w2, w = w1 ++ w2 -> w1 <> [] -> f (prev', w2 ++ t) = []) ->
    flat_map f (star p prev (w ++ t)) = f (prev, w ++ t).
Proof.
  intros Ht. induction w as [|c w IH]; intros prev Hp Hdead.
  - simpl. rewrite star_stops by assumption. simpl. apply app_nil_r.
  - simpl in Hp. apply andb_true_iff in Hp. destruct Hp as [Hc Hw].
    simpl. rewrite Hc, flat_map_app. simpl. rewrite app_nil_r.
    rewrite IH.
    + rewrite (Hdead (Some c) [c] w eq_refl) by discriminate. reflexivity.
    + exact Hw.
    + intros prev' w1 w2 -> Hne. apply (Hdead prev' (c :: w1) w2 eq_refl).
      discriminate.
Qed.

Lemma star_backtrack {B} (f : cursor -> list B) (p : ascii -> bool)
    (w t : text) :
  stops p t ->
  (forall prev' w1 w2, w = w1 ++ w2 -> w1 <> [] -> f (prev', w2 ++ t) = []) ->
  forall u1 prev,
    forallb p (u1 ++ w) = true ->
    exists L,
      flat_map f (star p prev (u1 ++ w ++ t))
      = f (before prev u1, w ++ t) ++ L.
Proof.
  intros Ht Hdead. induction u1 as [|c u1 IH]; intros prev Hp.
  - exists []. simpl app at 1. rewrite star_dead by assumption.
    rewrite app_nil_r. reflexivity.
  - simpl in Hp. apply andb_true_iff in Hp. destruct Hp as [Hc Hu].
    destruct (IH (Some c) Hu) as [L HL].
    exists (L ++ f (prev, c :: u1 ++ w ++ t)).
    simpl. rewrite Hc, flat_map_app, HL, before_cons. simpl.
    rewrite app_nil_r. symmetry. apply app_assoc.
Qed.

Lemma star_head (p : ascii -> bool) (u t : text) prev :
  forallb p u = true -> stops p t ->
  hd_error (star p prev (u ++ t)) = Some (before prev u, t).
Proof.
  revert prev. induction u as [|c u IH]; intros prev Hp Ht.
  - simpl. rewrite star_stops by assumption. reflexivity.
  - simpl in Hp. apply andb_true_iff in Hp. destruct Hp as [Hc Hu].
    simpl. rewrite Hc. rewrite before_cons.
    apply hd_error_app_live. apply IH; assumption.
Qed.

(** what a candidate of [[p]*] has read *)
Lemma star_inv (p : ascii -> bool) (s : text) :
  forall prev cur,
    In cur (star p prev s) ->
    exists u, s = u ++ snd cur /\ forallb p u = true.
Proof.
  induction s as [|x s IH]; intros prev cur H.
  - simpl in H. destruct H as [<-|[]]. exists []. split; reflexivity.
  - simpl in H. destruct (p x) eqn:Ex.
    + apply in_app_or in H. destruct H as [H|[<-|[]]].
      * destruct (IH _ _ H) as [u [-> Hu]]. exists (x :: u).
        split; [reflexivity|]. simpl. rewrite Ex. exact Hu.
      * exists []. split; reflexivity.
    + destruct H as [<-|[]]. exists []. split; reflexivity.
Qed.

Lemma first_plus_greedy (p : ascii -> bool) (c : ascii) (u t : text)
    prev caps :
  p c = true -> forallb p u = true -> stops p t ->
  first (Plus p) (prev, c :: u ++ t) caps
  = Some ((before (Some c) u, t), caps).
Proof.
  intros Hc Hu Ht. unfold first. simpl. rewrite Hc.
  pose proof (star_head p u t (Some c) Hu Ht) as H.
  destruct (star p (Some c) (u ++ t)); simpl in *; [discriminate|].
  injection H as ->. reflexivity.
Qed.

(** [(?P<name>[p]+)] followed by [b]: the capture is [c :: u1] when [b]
    fails after every longer candidate and matches after [c :: u1]. *)
Lemma first_seq_group_plus (name : string) (p : ascii -> bool) (b : re)
    prev caps c u1 w t o :
  p c = true ->
  forallb p (u1 ++ w) = true ->
  stops p t ->
  (forall prev' caps' w1 w2,
     w = w1 ++ w2 -> w1 <> [] -> run b (prev', w2 ++ t) caps' = []) ->
  first b (before (Some c) u1, w ++ t) ((name, c :: u1) :: caps) = Some o ->
  first (Seq (Group name (Plus p)) b) (prev, c :: u1 ++ w ++ t) caps
  = Some o.
Proof.
  intros Hc Hp Ht Hdead Hb. unfold first in *. simpl. rewrite Hc.
  rewrite !flat_map_map_compose. simpl.
  set (f := fun x : cursor =>
              run b x
                ((name,
                  firstn (S (length (u1 ++ w ++ t)) - length (snd x))
                    (c :: u1 ++ w ++ t)) :: caps)).
  destruct (star_backtrack f p w t Ht) with (u1 := u1) (prev := Some c)
    as [L HL].
  - intros prev' w1 w2 Hw Hne. unfold f. apply (Hdead _ _ w1 w2 Hw Hne).
  - exact Hp.
  - change (hd_error (flat_map f (star p (Some c) (u1 ++ w ++ t))) = Some o).
    rewrite HL. apply hd_error_app_live. unfold f. simpl snd.
    replace (firstn (S (length (u1 ++ w ++ t)) - length (w ++ t))
               (c :: u1 ++ w ++ t)) with (c :: u1); [exact Hb|].
    change (c :: u1 ++ w ++ t) with ((c :: u1) ++ (w ++ t)).
    replace (S (length (u1 ++ w ++ t)))
      with (length ((c :: u1) ++ (w ++ t)))
      by (simpl; reflexivity).
    symmetry. apply firstn_length_sub.
Qed.

Lemma first_seq_group_star (name : string) (p : ascii -> bool) (b : re)
    prev caps u1 w t o :
  forallb p (u1 ++ w) = true ->
  stops p t ->
  (forall prev' caps' w1 w2,
     w = w1 ++ w2 -> w1 <> [] -> run b (prev', w2 ++ t) caps' = []) ->
  first b (before prev u1, w ++ t) ((name, u1) :: caps) = Some o ->
  first (Seq (Group name (Star p)) b) (prev, u1 ++ w ++ t) caps = Some o.
Proof.
  intros Hp Ht Hdead Hb. unfold first in *. simpl.
  rewrite !flat_map_map_compose. simpl.
  set (f := fun x : cursor =>
              run b x
                ((name,
                  firstn (length (u1 ++ w ++ t) - length (snd x))
                    (u1 ++ w ++ t)) :: caps)).
  destruct (star_backtrack f p w t Ht) with (u1 := u1) (prev := prev)
    as [L HL].
  - intros prev' w1 w2 Hw Hne. unfold f. apply (Hdead _ _ w1 w2 Hw Hne).
  - exact Hp.
  - change (hd_error (flat_map f (star p prev (u1 ++ w ++ t))) = Some o).
    rewrite HL. apply hd_error_app_live. unfold f. simpl snd.
    rewrite firstn_length_sub. exact Hb.
Qed.

Lemma first_seq_star (p : ascii -> bool) (b : re) prev caps u1 w t o :
  forallb p (u1 ++ w) = true ->
  stops p t ->
  (forall prev' caps' w1 w2,
     w = w1 ++ w2 -> w1 <> [] -> run b (prev', w2 ++ t) caps' = []) ->
  first b (before prev u1, w ++ t) caps = Some o ->
  first (Seq (Star p) b) (prev, u1 ++ w ++ t) caps = Some o.
Proof.
  intros Hp Ht Hdead Hb. unfold first in *. simpl.
  rewrite !flat_map_map_compose. simpl.
  set (f := fun x : cursor => run b x caps).
  destruct (star_backtrack f p w t Ht) with (u1 := u1) (prev := prev)
    as [L HL].
  - intros prev' w1 w2 Hw Hne. unfold f. apply (Hdead _ _ w1 w2 Hw Hne).
  - exact Hp.
  - change (hd_error (flat_map f (star p prev (u1 ++ w ++ t))) = Some o).
    rewrite HL. apply hd_error_app_live. exact Hb.
Qed.

Lemma in_first (r : re) cur caps o :
  first r cur caps = Some o -> In o (run r cur caps).
Proof.
  unfold first. destruct (run r cur caps); simpl; [discriminate|].
  intros [= ->]. left. reflexivity.
Qed.

Lemma live_seq (a b : re) cur caps o :
  In o (run a cur caps) ->
  run b (fst o) (snd o) <> [] ->
  run (Seq a b) cur caps <> [].
Proof.
  intros Ho Hb. simpl. destruct (run b (fst o) (snd o)) as [|o' L] eqn:E;
    [contradiction|].
  intros Hnil.
  assert (Hin : In o' (flat_map (fun o => run b (fst o) (snd o))
                         (run a cur caps))).
  { apply in_flat_map. exists o. split; [exact Ho|].
    rewrite E. left. reflexivity. }
  rewrite Hnil in Hin. contradiction.
Qed.

Lemma in_star (p : ascii -> bool) (u t : text) prev :
  forallb p u = true -> In (before prev u, t) (star p prev (u ++ t)).
Proof.
  revert prev. induction u as [|c u IH]; intros prev Hu.
  - simpl. destruct t as [|y t]; simpl; [left; reflexivity|].
    destruct (p y); [apply in_or_app; right|]; left; reflexivity.
  - simpl in Hu. apply andb_true_iff in Hu. destruct Hu as [Hc Hu].
    simpl. rewrite Hc, before_cons. apply in_or_app. left. apply IH.
    exact Hu.
Qed.

Lemma in_group_plus (name : string) (p : ascii -> bool) (c : ascii)
    (u t : text) prev caps :
  p c = true -> forallb p u = true ->
  In ((before (Some c) u, t), (name, c :: u) :: caps)
     (run (Group name (Plus p)) (prev, c :: u ++ t) caps).
Proof.
  intros Hc Hu. cbn [run fst snd]. rewrite Hc.
  apply in_map_iff. exists ((before (Some c) u, t), caps). split.
  - cbn [fst snd]. f_equal. f_equal. f_equal.
    apply (firstn_length_sub (c :: u) t).
  - apply (in_map (fun x : cursor => (x, caps))). apply in_star. exact Hu.
Qed.

Lemma in_group_star (name : string) (p : ascii -> bool) (u t : text)
    prev caps :
  forallb p u = true ->
  In ((before prev u, t), (name, u) :: caps)
     (run (Group name (Star p)) (prev, u ++ t) caps).
Proof.
  intros Hu. cbn [run fst snd].
  apply in_map_iff. exists ((before prev u, t), caps). split.
  - cbn [fst snd]. f_equal. f_equal. f_equal. apply firstn_length_sub.
  - apply (in_map (fun x : cursor => (x, caps))). apply in_star. exact Hu.
Qed.

Lemma in_run_star (p : ascii -> bool) (u t : text) prev caps :
  forallb p u = true ->
  In ((before prev u, t), caps) (run (Star p) (prev, u ++ t) caps).
Proof.
  intros Hu. cbn [run fst snd].
  apply (in_map (fun c => (c, caps))). apply in_star. exact Hu.
Qed.

Lemma in_line_start (u v : text) prev : in_line u v (prev, u ++ NL :: v).
Proof. exists [], u. split; reflexivity. Qed.

Lemma in_line_step (u v : text) cur x s :
  in_line u v cur -> snd cur = x :: s -> Ascii.eqb x NL = false ->
  forall prev', in_line u v (prev', s).
Proof.
  intros [u1 [u2 [Eu Ec]]] Hs Hx prev'. rewrite Ec in Hs.
  destruct u2 as [|y u2]; simpl in Hs; injection Hs as Ex Es.
  - rewrite <- Ex, Ascii.eqb_refl in Hx. discriminate.
  - exists (u1 ++ [y]), u2. split; [|symmetry; exact Es].
    rewrite <- app_assoc. exact Eu.
Qed.

Lemma star_in_line (p : ascii -> bool) (u v : text) :
  p NL = false ->
  forall s prev cur,
    in_line u v (prev, s) -> In cur (star p prev s) -> in_line u v cur.
Proof.
  intros Hp. induction s as [|x s IH]; intros prev cur Hin Hc.
  - simpl in Hc. destruct Hc as [<-|[]]. exact Hin.
  - simpl in Hc. destruct (p x) eqn:Ex.
    + apply in_app_or in Hc. destruct Hc as [Hc|[<-|[]]]; [|exact Hin].
      apply (IH (Some x)); [|exact Hc].
      apply (in_line_step u v (prev, x :: s) x s Hin eq_refl).
      destruct (Ascii.eqb_spec x NL); [subst; congruence|reflexivity].
    + destruct Hc as [<-|[]]. exact Hin.
Qed.

(** A pattern that reads no newline ends in the line it started in. *)
Lemma run_in_line (u v : text) (r : re) :
  reads_no_nl r = true ->
  forall cur caps o,
    in_line u v cur -> In o (run r cur caps) -> in_line u v (fst o).
Proof.
  induction r as [| |c|p|a IHa b IHb|a IHa b IHb|a IHa|p|p|name a IHa];
    intros Hr [prev s] caps o Hin Ho; simpl in Hr, Ho.
  - destruct Ho as [<-|[]]. exact Hin.
  - destruct (at_bol prev); [|contradiction].
    destruct Ho as [<-|[]]. exact Hin.
  - destruct s as [|x s]; [contradiction|].
    destruct (Ascii.eqb x c) eqn:E; [|contradiction].
    destruct Ho as [<-|[]]. simpl.
    apply (in_line_step u v (prev, x :: s) x s Hin eq_refl).
    apply Ascii.eqb_eq in E. subst x. apply negb_true_iff. exact Hr.
  - destruct s as [|x s]; [contradiction|].
    destruct (p x) eqn:E; [|contradiction].
    destruct Ho as [<-|[]]. simpl.
    apply (in_line_step u v (prev, x :: s) x s Hin eq_refl).
    apply negb_true_iff in Hr.
    destruct (Ascii.eqb_spec x NL); [subst; congruence|reflexivity].
  - apply andb_true_iff in Hr. destruct Hr as [Ha Hb].
    apply in_flat_map in Ho. destruct Ho as [o1 [Ho1 Ho]].
    apply (IHb Hb (fst o1) (snd o1)); [|exact Ho].
    apply (IHa Ha (prev, s) caps); assumption.
  - apply andb_true_iff in Hr. destruct Hr as [Ha Hb].
    apply in_app_or in Ho. destruct Ho as [Ho|Ho].
    + apply (IHa Ha (prev, s) caps); assumption.
    + apply (IHb Hb (prev, s) caps); assumption.
  - apply in_app_or in Ho. destruct Ho as [Ho|[<-|[]]].
    + apply (IHa Hr (prev, s) caps); assumption.
    + exact Hin.
  - apply in_map_iff in Ho. destruct Ho as [cur [<- Hc]]. simpl.
    apply negb_true_iff in Hr.
    apply (star_in_line p u v Hr s prev); assumption.
  - destruct s as [|x s]; [contradiction|].
    destruct (p x) eqn:E; [|contradiction].
    apply in_map_iff in Ho. destruct Ho as [cur [<- Hc]]. simpl.
    apply negb_true_iff in Hr.
    apply (star_in_line p u v Hr s (Some x)); [|exact Hc].
    apply (in_line_step u v (prev, x :: s) x s Hin eq_refl).
    destruct (Ascii.eqb_spec x NL); [subst; congruence|reflexivity].
  - apply in_map_iff in Ho. destruct Ho as [o1 [<- Ho1]]. simpl.
    apply (IHa Hr (prev, s) caps); assumption.
Qed.

(** A pattern leaves the captures it does not bind as they are. *)
Lemma run_keeps_group (name : string) (r : re) :
  binds name r = false ->
  forall cur caps o,
    In o (run r cur caps) -> group name (snd o) = group name caps.
Proof.
  induction r as [| |c|p|a IHa b IHb|a IHa b IHb|a IHa|p|p|n a IHa];
    intros Hr [prev s] caps o Ho; simpl in Hr, Ho.
  - destruct Ho as [<-|[]]. reflexivity.
  - destruct (at_bol prev); [|contradiction].
    destruct Ho as [<-|[]]. reflexivity.
  - destruct s as [|x s]; [contradiction|].
    destruct (Ascii.eqb x c); [|contradiction].
    destruct Ho as [<-|[]]. reflexivity.
  - destruct s as [|x s]; [contradiction|].
    destruct (p x); [|contradiction].
    destruct Ho as [<-|[]]. reflexivity.
  - apply orb_false_iff in Hr. destruct Hr as [Ha Hb].
    apply in_flat_map in Ho. destruct Ho as [o1 [Ho1 Ho]].
    rewrite (IHb Hb _ _ _ Ho). apply (IHa Ha _ _ _ Ho1).
  - apply orb_false_iff in Hr. destruct Hr as [Ha Hb].
    apply in_app_or in Ho. destruct Ho as [Ho|Ho]; eauto.
  - apply in_app_or in Ho. destruct Ho as [Ho|[<-|[]]]; eauto.
  - apply in_map_iff in Ho. destruct Ho as [cur [<- _]]. reflexivity.
  - destruct s as [|x s]; [contradiction|].
    destruct (p x); [|contradiction].
    apply in_map_iff in Ho. destruct Ho as [cur [<- _]]. reflexivity.
  - apply orb_false_iff in Hr. destruct Hr as [Hn Ha].
    apply in_map_iff in Ho. destruct Ho as [o1 [<- Ho1]]. simpl.
    rewrite Hn. apply (IHa Ha _ _ _ Ho1).
Qed.

Arguments first : simpl never.

Ltac read_literal :=
  eapply first_seq;
  [ apply first_lit_startswith; reflexivity
  | cbn [fst snd skipn length txt list_ascii_of_string app] ].

(** ** The positional markers of the header line *)

(** what [RE_MARKER] matches: a bracket, digits, a bracket *)
Lemma match_marker_inv prev (s : text) (o : outcome) :
  match_at RE_MARKER prev s = Some o ->
  exists ds,
    s = "["%char :: ds ++ "]"%char :: snd (fst o)
    /\ forallb is_digit ds = true.
Proof.
  unfold match_at. intros H.
  assert (Hin : In o (run RE_MARKER (prev, s) [])).
  { destruct (run RE_MARKER (prev, s) []); [discriminate|].
    injection H as ->. left. reflexivity. }
  clear H. unfold RE_MARKER in Hin. cbn [run fst snd] in Hin.
  destruct s as [|x s]; [contradiction|].
  destruct (Ascii.eqb x "[") eqn:Ex; [|contradiction].
  apply Ascii.eqb_eq in Ex. subst x. cbn [flat_map fst snd] in Hin.
  rewrite app_nil_r in Hin. apply in_flat_map in Hin.
  destruct Hin as [o1 [Ho1 Ho]].
  destruct s as [|d s]; [contradiction|].
  destruct (is_digit d) eqn:Ed; [|contradiction].
  apply in_map_iff in Ho1. destruct Ho1 as [cur [<- Hcur]].
  apply star_inv in Hcur. destruct Hcur as [u [-> Hu]].
  cbn [fst snd] in Ho. destruct (snd cur) as [|y rest]; [contradiction|].
  destruct (Ascii.eqb y "]") eqn:Ey; [|contradiction].
  apply Ascii.eqb_eq in Ey. subst y. destruct Ho as [<-|[]].
  exists (d :: u). split; [reflexivity|]. simpl. rewrite Ed. exact Hu.
Qed.

Lemma digits_no_tab (ds : text) : forallb is_digit ds = true -> tabs ds = 0.
Proof.
  induction ds as [|d ds IH]; [reflexivity|]. simpl. intros H.
  apply andb_true_iff in H. destruct H as [Hd Hds].
  rewrite tabs_cons, (IH Hds).
  destruct (Ascii.eqb_spec d TAB); [subst d; discriminate Hd|reflexivity].
Qed.

(** removing the markers removes no tab *)
Lemma tabs_sub_marker (s : text) :
  forall k prev,
    tabs (firstn k s) = 0 ->
    tabs (sub_from RE_MARKER [] prev k s) = tabs s.
Proof.
  induction s as [|c s IH]; intros k prev Hk.
  - simpl. destruct k; [destruct (match_at RE_MARKER prev [])|]; reflexivity.
  - cbn [sub_from]. destruct k as [|k].
    + destruct (match_at RE_MARKER prev (c :: s)) as [o|] eqn:Em.
      * destruct (match_marker_inv _ _ _ Em) as [ds [Es Hds]].
        injection Es as -> ->.
        replace (length ("["%char :: ds ++ "]"%char :: snd (fst o))
                 - length (snd (fst o))) with (S (S (length ds)))
          by (cbn [length]; rewrite length_app; cbn [length]; lia).
        cbn [app]. rewrite IH.
        -- rewrite tabs_cons. reflexivity.
        -- replace (S (length ds)) with (length (ds ++ ["]"%char]))
             by (rewrite length_app; simpl; lia).
           change (ds ++ "]"%char :: snd (fst o))
             with (ds ++ ["]"%char] ++ snd (fst o)).
           rewrite app_assoc, firstn_app, Nat.sub_diag, firstn_all.
           simpl firstn. rewrite app_nil_r, tabs_app.
           rewrite (digits_no_tab ds Hds). reflexivity.
      * rewrite !tabs_cons. f_equal. apply IH. reflexivity.
    + simpl in Hk. rewrite tabs_cons in Hk. rewrite tabs_cons.
      destruct (Ascii.eqb c TAB); [simpl in Hk; lia|].
      simpl in *. apply IH. exact Hk.
Qed.

Lemma tabs_clean_header (line : text) :
  tabs (clean_header line) = tabs line.
Proof.
  unfold clean_header. rewrite tabs_strip by reflexivity.
  unfold Re.sub. apply tabs_sub_marker. reflexivity.
Qed.

(** ** ANN expansion: C1 and C4 *)

(** The splice keeps the tokens before index [a - 1] and from index
    [a + 2] on; [a] is at least 7, so no bound is negative. *)
Lemma ann_splice_eq (i : nat) (parts : list text) (var_effect : text) :
  ann_splice (i + 7) parts var_effect
  = firstn (i + 6) parts ++ Py.split PIPE var_effect ++ skipn (i + 9) parts.
Proof.
  unfold ann_splice.
  rewrite slice_to_nonneg, slice_from_nonneg by lia.
  replace (Z.to_nat (Z.of_nat (i + 7) - 1)) with (i + 6) by lia.
  replace (Z.to_nat (Z.of_nat (i + 7) + 2)) with (i + 9) by lia.
  reflexivity.
Qed.

Lemma ann_location_index (info : list text) (i : nat) :
  Py.list_index (txt "ANN") info = Some i ->
  ann_location true info = Some (i + 7).
Proof.
  intros H. unfold ann_location. rewrite (list_index_in _ _ _ H), H.
  reflexivity.
Qed.

Lemma ann_location_absent (expand : bool) (info : list text) :
  Py.list_in (txt "ANN") info = false -> ann_location expand info = None.
Proof.
  intros H. unfold ann_location. rewrite H, andb_false_r. reflexivity.
Qed.

(** Which raw lines are data rows: every line but the header line in wide
    format, and in long format every line from index [sampleCount] on but
    the header line. *)
Lemma process_line_wide_data (sc : Schema) (header expand : bool)
    (a : option nat) (fill : list text) (n : nat) (line : text) :
  n <> 0 \/ header = false ->
  process_line sc (wide_options header expand) a fill n line
  = option_map (fun rows => (rows, fill)) (wide_rows a line).
Proof.
  intros Hh. unfold process_line. simpl.
  assert (E : Nat.eqb n 0 && header = false).
  { destruct Hh as [Hn0| ->]; [|apply andb_false_r].
    apply Nat.eqb_neq in Hn0. rewrite Hn0. reflexivity. }
  rewrite !andb_true_r, !andb_false_r, E. reflexivity.
Qed.

Lemma process_line_long_data (sc : Schema) (header expand : bool)
    (a : option nat) (fill : list text) (n : nat) (line : text) :
  length (samples sc) <= n ->
  n <> 0 \/ header = false ->
  process_line sc (long_options header expand) a fill n line
  = option_map
      (fun rows => (rows, snd (long_parts (length (info_fields sc)) fill line)))
      (long_rows a (fst (long_parts (length (info_fields sc)) fill line))).
Proof.
  intros Hn Hh. unfold process_line. simpl.
  assert (E : Nat.eqb n 0 && header = false).
  { destruct Hh as [Hn0| ->]; [|apply andb_false_r].
    apply Nat.eqb_neq in Hn0. rewrite Hn0. reflexivity. }
  rewrite !andb_true_r, !andb_false_r, E.
  assert (E1 : Nat.ltb n (length (samples sc)) = false)
    by (apply Nat.ltb_ge; exact Hn).
  assert (E2 : Nat.leb (length (samples sc)) n = true)
    by (apply Nat.leb_le; exact Hn).
  rewrite E1, E2.
  destruct (long_parts (length (info_fields sc)) fill line). reflexivity.
Qed.

(** C1. When expansion is requested and ["ANN"] occurs in [infoFields],
    [annLocation] is the 0-based index of its first occurrence plus 7; a
    data row that has a token at [annLocation] yields, for each
    comma-separated sub-record of that token and in their order, one output
    row made of the row's tokens before index [annLocation - 1], the
    pipe-split sub-fields of the sub-record and the row's tokens from index
    [annLocation + 2] on, in wide format (line 180) and in long format
    (line 170); a token with [k] sub-records yields exactly [k] rows.  The
    last two parts say it of the loop body, for the raw lines that are data
    rows. *)
Theorem ann_fan_out (info : list text) (i : nat) (parts : list text)
    (ann : text)
    (Hocc : Py.list_in (txt "ANN") info = true)
    (Hidx : Py.list_index (txt "ANN") info = Some i)
    (Htok : nth_error parts (i + 7) = Some ann) :
  let a := i + 7 in
  let row := fun var_effect =>
    firstn (a - 1) parts ++ Py.split PIPE var_effect ++ skipn (a + 2) parts in
  nth_error info i = Some (txt "ANN") /\
  ann_location true info = Some a /\
  (forall line, Py.split TAB line = parts ->
     wide_rows (ann_location true info) line
     = Some (map (fun ve => Py.strip [NL] (Py.join [TAB] (row ve)))
                 (Py.split COMMA ann))) /\
  long_rows (ann_location true info) parts
  = Some (map (fun ve =>
                 Py.replace SENTINEL []
                   (Py.strip [NL] (Py.join [TAB] (row ve))))
              (Py.split COMMA ann)) /\
  (forall rows,
     long_rows (ann_location true info) parts = Some rows ->
     length rows = length (Py.split COMMA ann)) /\
  (forall sc header fill n line,
     info_fields sc = info ->
     n <> 0 \/ header = false ->
     Py.split TAB line = parts ->
     process_line sc (wide_options header true)
       (ann_location true (info_fields sc)) fill n line
     = Some (map (fun ve => Py.strip [NL] (Py.join [TAB] (row ve)))
                 (Py.split COMMA ann), fill)) /\
  (forall sc header fill n line,
     info_fields sc = info ->
     length (samples sc) <= n ->
     n <> 0 \/ header = false ->
     fst (long_parts (length info) fill line) = parts ->
     process_line sc (long_options header true)
       (ann_location true (info_fields sc)) fill n line
     = Some (map (fun ve =>
                    Py.replace SENTINEL []
                      (Py.strip [NL] (Py.join [TAB] (row ve))))
                 (Py.split COMMA ann),
             snd (long_parts (length info) fill line))).
Proof.
  intros a row. subst a row.
  pose proof (ann_location_index _ _ Hidx) as Hloc.
  replace (i + 7 - 1) with (i + 6) by lia.
  replace (i + 7 + 2) with (i + 9) by lia.
  assert (Hlong :
    long_rows (ann_location true info) parts
    = Some (map (fun ve =>
                   Py.replace SENTINEL []
                     (Py.strip [NL]
                        (Py.join [TAB]
                           (firstn (i + 6) parts ++ Py.split PIPE ve
                            ++ skipn (i + 9) parts))))
                (Py.split COMMA ann))).
  { rewrite Hloc. unfold long_rows, Py.index. rewrite Htok. f_equal.
    apply map_ext. intros ve. rewrite ann_splice_eq. reflexivity. }
  assert (Hwide : forall line, Py.split TAB line = parts ->
    wide_rows (ann_location true info) line
    = Some (map (fun ve =>
                   Py.strip [NL]
                     (Py.join [TAB]
                        (firstn (i + 6) parts ++ Py.split PIPE ve
                         ++ skipn (i + 9) parts)))
                (Py.split COMMA ann))).
  { intros line Hline. rewrite Hloc. unfold wide_rows, Py.index.
    rewrite Hline, Htok. f_equal.
    apply map_ext. intros ve. rewrite ann_splice_eq. reflexivity. }
  split; [apply (list_index_spec _ _ _ Hidx)|].
  split; [exact Hloc|].
  split; [exact Hwide|].
  split; [exact Hlong|].
  split; [|split].
  - intros rows Hrows. rewrite Hlong in Hrows. injection Hrows as <-.
    apply length_map.
  - intros sc header fill n line Hsc Hh Hline.
    rewrite process_line_wide_data by exact Hh.
    rewrite Hsc, (Hwide line Hline). reflexivity.
  - intros sc header fill n line Hsc Hn Hh Hparts.
    rewrite process_line_long_data by assumption.
    rewrite Hsc, Hparts, Hlong. reflexivity.
Qed.

Lemma ann_fan_out_witness :
  wide_rows (ann_location true ex_info) (ex_line ex_ann2)
  = Some [ txt "chr1" ++ [TAB] ++ txt "100" ++ [TAB] ++ txt "rs1" ++ [TAB]
           ++ txt "A" ++ [TAB] ++ txt "T" ++ [TAB] ++ txt "30" ++ [TAB]
           ++ txt "PASS" ++ [TAB] ++ txt "T" ++ [TAB] ++ txt "missense"
           ++ [TAB] ++ txt "HIGH" ++ [TAB] ++ txt "S1" ++ [TAB] ++ txt "0/1";
           txt "chr1" ++ [TAB] ++ txt "100" ++ [TAB] ++ txt "rs1" ++ [TAB]
           ++ txt "A" ++ [TAB] ++ txt "T" ++ [TAB] ++ txt "30" ++ [TAB]
           ++ txt "PASS" ++ [TAB] ++ txt "T" ++ [TAB] ++ txt "synonymous"
           ++ [TAB] ++ txt "LOW" ++ [TAB] ++ txt "S1" ++ [TAB] ++ txt "0/1" ].
Proof.
  exact (proj1 (proj2 (proj2
           (ann_fan_out ex_info 1 (Py.split TAB (ex_line ex_ann2))
              (txt ex_ann2) eq_refl eq_refl eq_refl)))
         (ex_line ex_ann2) eq_refl).
Defined.

(** C4, as stated, fails: the row emitted for an empty ANN token does not
    have the column count of a row emitted for a 15-field sub-record. *)
Lemma empty_ann_fifteen_columns_fails :
  ~ (forall r_empty r_full,
       wide_rows (Some 8) (ex_line "") = Some [r_empty] ->
       wide_rows (Some 8) (ex_line ex_ann15) = Some [r_full] ->
       length (Py.split TAB r_empty) = length (Py.split TAB r_full)).
Proof.
  intros H.
  specialize (H _ _ eq_refl eq_refl). vm_compute in H. discriminate.
Qed.

(** C4, amended. With expansion active, a data row whose ANN token is the
    empty string produces exactly one output row, in which a single empty
    column stands where the ANN sub-fields go: the row has 14 columns fewer
    than a row produced from a 15-field sub-record. *)
Theorem empty_ann_single_blank (i : nat) (parts : list text)
    (Htok : nth_error parts (i + 7) = Some []) :
  let row := firstn (i + 6) parts ++ [[]] ++ skipn (i + 9) parts in
  (forall line, Py.split TAB line = parts ->
     wide_rows (Some (i + 7)) line
     = Some [Py.strip [NL] (Py.join [TAB] row)]) /\
  long_rows (Some (i + 7)) parts
  = Some [Py.replace SENTINEL [] (Py.strip [NL] (Py.join [TAB] row))] /\
  (forall var_effect,
     length (Py.split PIPE var_effect) = 15 ->
     length (ann_splice (i + 7) parts var_effect) = length row + 14).
Proof.
  intros row. subst row. split; [|split].
  - intros line Hline. unfold wide_rows, Py.index.
    rewrite Hline, Htok. simpl. rewrite ann_splice_eq. reflexivity.
  - unfold long_rows, Py.index. rewrite Htok. simpl.
    rewrite ann_splice_eq. reflexivity.
  - intros ve Hve. rewrite ann_splice_eq.
    rewrite !length_app, Hve. unfold text. simpl. lia.
Qed.

Lemma empty_ann_single_blank_witness :
  long_rows (Some 8) (ex_row "")
  = Some [Py.replace SENTINEL []
            (Py.strip [NL]
               (Py.join [TAB]
                  (firstn 7 (ex_row "") ++ [[]] ++ skipn 10 (ex_row ""))))].
Proof.
  exact (proj1 (proj2 (empty_ann_single_blank 1 (ex_row "") eq_refl))).
Defined.

(** ** Header and data columns in wide format: C2 *)

Lemma ann_header_tab_free : Forall (fun t => tabs t = 0) ANN_HEADER.
Proof. repeat constructor. Qed.

(** Without expansion the header line and a data row keep the columns of
    their raw lines. *)
Lemma wide_columns_without_expansion (line : text) :
  columns (wide_header None line) = columns line
  /\ exists row, wide_rows None line = Some [row]
                 /\ columns row = columns line.
Proof.
  split.
  - unfold wide_header. rewrite !columns_tabs.
    change (txt "_") with ["_"%char].
    rewrite tabs_replace_char by reflexivity.
    rewrite tabs_clean_header. reflexivity.
  - eexists. split; [reflexivity|].
    rewrite !columns_tabs, tabs_strip by reflexivity. reflexivity.
Qed.

(** With expansion the header line replaces two tokens by the 15 names. *)
Lemma wide_header_columns_with_expansion (i : nat) (line : text) :
  i + 8 <= columns line ->
  columns (wide_header (Some (i + 7)) line) = columns line + 13.
Proof.
  intros H. unfold wide_header. rewrite columns_tabs.
  change (txt "_") with ["_"%char].
  rewrite tabs_replace_char by reflexivity.
  rewrite tabs_clean_header.
  rewrite slice_to_nonneg, slice_from_nonneg by lia.
  replace (Z.to_nat (Z.of_nat (i + 7) - 1)) with (i + 6) by lia.
  replace (Z.to_nat (Z.of_nat (i + 7) + 1)) with (i + 8) by lia.
  rewrite tabs_join.
  - unfold columns in H. rewrite !length_app, length_firstn, length_skipn.
    change (length ANN_HEADER) with 15. unfold columns. lia.
  - apply Forall_app. split; [|apply Forall_app; split].
    + apply Forall_firstn, split_tab_tokens.
    + exact ann_header_tab_free.
    + apply Forall_skipn, split_tab_tokens.
Qed.

(** With expansion a data row replaces three tokens by the sub-fields of
    the sub-record. *)
Lemma wide_row_columns_with_expansion (i : nat) (line ann : text) :
  i + 9 <= columns line ->
  nth_error (Py.split TAB line) (i + 7) = Some ann ->
  exists rows,
    wide_rows (Some (i + 7)) line = Some rows
    /\ length rows = length (Py.split COMMA ann)
    /\ forall k row var_effect,
         nth_error rows k = Some row ->
         nth_error (Py.split COMMA ann) k = Some var_effect ->
         columns row + 3
         = columns line + length (Py.split PIPE var_effect).
Proof.
  intros H Hann. unfold wide_rows, Py.index. rewrite Hann.
  eexists. split; [reflexivity|]. split; [apply length_map|].
  intros k row ve Hrow Hve.
  rewrite nth_error_map, Hve in Hrow. simpl in Hrow. injection Hrow as <-.
  rewrite columns_tabs, tabs_strip by reflexivity.
  rewrite ann_splice_eq.
  assert (Htok : tabs ann = 0).
  { pose proof (split_tab_tokens line) as Hall.
    rewrite Forall_forall in Hall. apply Hall.
    apply (nth_error_In _ _ Hann). }
  assert (Hve0 : tabs ve = 0).
  { pose proof (split_tab_free COMMA ann eq_refl Htok) as Hall.
    rewrite Forall_forall in Hall. apply Hall.
    apply (nth_error_In _ _ Hve). }
  rewrite tabs_join.
  - unfold columns in *.
    rewrite !length_app, length_firstn, length_skipn.
    pose proof (split_not_nil PIPE ve) as Hne.
    destruct (Py.split PIPE ve) as [|f fs]; [contradiction|].
    simpl length. lia.
  - apply Forall_app. split; [|apply Forall_app; split].
    + apply Forall_firstn, split_tab_tokens.
    + apply split_tab_free; [reflexivity|exact Hve0].
    + apply Forall_skipn, split_tab_tokens.
Qed.

(** The defect behind C2 in general: when the raw header line and a raw
    data line have the same number of tokens, and the sub-records of the
    row have 15 fields each, the header line has one column more than every
    row printed for that line. *)
Lemma wide_header_longer_than_rows (i : nat) (header_line line ann : text) :
  columns header_line = columns line ->
  i + 9 <= columns line ->
  nth_error (Py.split TAB line) (i + 7) = Some ann ->
  Forall (fun ve => length (Py.split PIPE ve) = 15) (Py.split COMMA ann) ->
  exists rows,
    wide_rows (Some (i + 7)) line = Some rows
    /\ Forall (fun row =>
                 columns (wide_header (Some (i + 7)) header_line)
                 = columns row + 1) rows.
Proof.
  intros Heq Hlen Hann H15.
  destruct (wide_row_columns_with_expansion i line ann Hlen Hann)
    as [rows [Hrows [Hcount Hcols]]].
  exists rows. split; [exact Hrows|].
  rewrite wide_header_columns_with_expansion by lia.
  apply Forall_forall. intros row Hin.
  apply In_nth_error in Hin. destruct Hin as [k Hk].
  assert (Hk' : k < length (Py.split COMMA ann)).
  { rewrite <- Hcount. apply nth_error_Some. congruence. }
  destruct (nth_error (Py.split COMMA ann) k) as [ve|] eqn:Eve.
  - specialize (Hcols k row ve Hk Eve).
    rewrite Forall_forall in H15.
    rewrite (H15 ve (nth_error_In _ _ Eve)) in Hcols. lia.
  - apply nth_error_None in Eve. lia.
Qed.

(** C2, at a failing input: info fields [DP], [ANN], [AF], one sample, and
    one variant whose ANN value is a single sub-record of 15 fields.  The
    raw header line and the raw data line have 12 tokens each.  The header
    replaces two tokens (indices 7 and 8) by the 15 names and has 25
    columns; the data row replaces three tokens (indices 7, 8 and 9) by the
    15 sub-fields and has 24.  Without expansion both have 12. *)
Theorem wide_header_one_column_longer :
  columns ex_wide_header_line = columns (ex_line ex_ann15)
  /\ (exists hdr row,
        transform ex_wide_schema (wide_options true true)
          [ex_wide_header_line; ex_line ex_ann15]
        = ([hdr; row], Returned)
        /\ columns hdr = 25 /\ columns row = 24)
  /\ (exists hdr row,
        transform ex_wide_schema (wide_options true false)
          [ex_wide_header_line; ex_line ex_ann15]
        = ([hdr; row], Returned)
        /\ columns hdr = 12 /\ columns row = 12).
Proof.
  split; [reflexivity|]. split.
  - eexists. eexists. split; [vm_compute; reflexivity|].
    split; vm_compute; reflexivity.
  - eexists. eexists. split; [vm_compute; reflexivity|].
    split; vm_compute; reflexivity.
Qed.

(** ** Continuation rows in long format: C3 *)

(** Whatever the continuation line holds, the reconstructed row starts with
    the stored prefix. *)
Lemma long_parts_continuation_prefix (n_info : nat) (fill : list text)
    (line : text) :
  Py.startswith SENTINEL (nth 0 (Py.split TAB (Py.strip [NL] line)) [])
  = true ->
  firstn (length fill) (fst (long_parts n_info fill line)) = fill
  /\ snd (long_parts n_info fill line) = fill.
Proof.
  intros H. unfold long_parts. rewrite H. simpl. split; [|reflexivity].
  rewrite firstn_app, Nat.sub_diag, firstn_all. simpl.
  apply app_nil_r.
Qed.

(** C3, at failing inputs.  With no info field and three format fields,
    the continuation line of sample [S2] has four tokens and the stored
    prefix seven, so [parts[len(parts) - len(fill_fields):]] is
    [parts[-3:]]: the reconstructed row is the prefix followed by the last
    three tokens, and the sample token is lost.  With one info field and
    four format fields the slice is again [parts[-3:]]: the row printed for
    [S2] has lost the sample token and the genotype. *)
Theorem continuation_drops_sample_token :
  fst (long_parts 0 ex_fill ex_continuation)
  = ex_fill ++ map txt ["0/0"; "12"; "80"]%string
  /\ fst (long_parts 0 ex_fill ex_continuation)
     <> ex_fill ++ Py.split TAB (Py.strip [NL] ex_continuation)
  /\ long_rows None (fst (long_parts 0 ex_fill ex_continuation))
     = Some [Py.join [TAB]
               (map txt ["chr1"; "100"; "rs1"; "A"; "T"; "30"; "PASS";
                         "0/0"; "12"; "80"]%string)]
  /\ transform ex_four_formats (long_options false false) ex_variant_lines
     = ([ Py.join [TAB]
            (map txt ["chr1"; "200"; "rs2"; "G"; "C"; "40"; "PASS"; "15";
                      "S1"; "0/1"; "3,4"; "7"; "50"]%string);
          Py.join [TAB]
            (map txt ["chr1"; "200"; "rs2"; "G"; "C"; "40"; "PASS"; "15";
                      "0,9"; "9"; "60"]%string) ],
        Returned).
Proof.
  split; [reflexivity|]. split; [|split; reflexivity].
  vm_compute. discriminate.
Qed.

(** ** The header schema extractor: C5 *)

(** The number group and the type group read a well-formed number and a
    type name in full. *)
Lemma first_number (letters : string) (num t : text) prev caps :
  wf_number letters num = true ->
  stops is_digit t ->
  first (number_re letters) (prev, num ++ t) caps
  = Some ((before prev num, t), caps).
Proof.
  intros Hwf Ht. destruct num as [|c rest]; [discriminate|].
  simpl in Hwf. unfold number_re.
  destruct (Ascii.eqb c "-") eqn:Eminus.
  - apply Ascii.eqb_eq in Eminus. subst c.
    apply andb_true_iff in Hwf. destruct Hwf as [Hne Hd].
    destruct rest as [|d ds]; [discriminate|].
    simpl in Hd. apply andb_true_iff in Hd. destruct Hd as [Hd Hds].
    apply first_alt_l.
    eapply first_seq; [apply first_opt_l; apply first_chr|].
    simpl fst. simpl snd. simpl app.
    rewrite first_plus_greedy by assumption.
    rewrite !before_cons. reflexivity.
  - destruct (is_digit c) eqn:Edig.
    + apply first_alt_l.
      eapply first_seq.
      * apply first_opt_r. apply run_chr_mismatch. exact Eminus.
      * simpl fst. simpl snd. simpl app.
        rewrite first_plus_greedy by assumption.
        rewrite before_cons. reflexivity.
    + apply andb_true_iff in Hwf. destruct Hwf as [Hc Hnil].
      destruct rest; [|discriminate]. simpl app.
      rewrite first_alt_r.
      2:{ simpl. rewrite Eminus. simpl. rewrite Edig. reflexivity. }
      destruct (Ascii.eqb c ".") eqn:Edot.
      * apply Ascii.eqb_eq in Edot. subst c.
        apply first_alt_l. apply first_chr.
      * rewrite first_alt_r by (apply run_chr_mismatch; exact Edot).
        simpl in Hc. unfold first. simpl. rewrite Hc. reflexivity.
Qed.

Lemma first_type (ty t : text) prev caps :
  Py.list_in ty type_names = true ->
  first type_re (prev, ty ++ t) caps = Some ((before prev ty, t), caps).
Proof.
  unfold Py.list_in, type_names. simpl. rewrite orb_false_r.
  intros H.
  repeat (apply orb_true_iff in H; destruct H as [H|H]);
    apply text_eqb_eq in H; subst ty; unfold type_re.
  - apply first_alt_l. apply first_lit.
  - rewrite first_alt_r by (apply run_lit_mismatch; reflexivity).
    apply first_alt_l. apply first_lit.
  - do 2 rewrite first_alt_r by (apply run_lit_mismatch; reflexivity).
    apply first_alt_l. apply first_lit.
  - do 3 rewrite first_alt_r by (apply run_lit_mismatch; reflexivity).
    apply first_alt_l. apply first_lit.
  - do 4 rewrite first_alt_r by (apply run_lit_mismatch; reflexivity).
    apply first_lit.
Qed.

(** [RE_INFO] at the start of a well-formed INFO line: the match is the
    whole line and the captures are the parts of the declaration. *)
Lemma match_info (d : Declaration) prev v :
  wf_info d = true ->
  at_bol prev = true ->
  match_at RE_INFO prev (info_line d ++ NL :: v)
  = Some ((Some ">"%char, NL :: v),
          [("desc"%string, d_desc d); ("type"%string, d_type d);
           ("number"%string, d_number d); ("id"%string, d_id d)]).
Proof.
  unfold wf_info. intros Hwf Hbol.
  repeat (apply andb_true_iff in Hwf; destruct Hwf as [Hwf ?]).
  destruct d as [id num ty desc tail].
  cbn [d_id d_number d_type d_desc d_tail] in *.
  destruct id as [|c id]; [discriminate|].
  match goal with
  | [ H : forallb (not_char COMMA) (c :: id) = true |- _ ] =>
      simpl in H; apply andb_true_iff in H; destruct H as [Hc Hid]
  end.
  unfold match_at, info_line, decl_body, decl_attributes, RE_INFO.
  cbn [d_id d_number d_type d_desc d_tail].
  change (hd_error (run ?r ?c ?k)) with (first r c k).
  rewrite <- !app_assoc.
  cbn [txt list_ascii_of_string app].
  eapply first_seq; [apply first_bol; exact Hbol|]. cbn [fst snd].
  read_literal. read_literal.
  eapply first_seq_group_plus with (w := []);
    [ exact Hc | rewrite app_nil_r; exact Hid | reflexivity
    | intros ? ? [|? ?] ? ? ?; [contradiction|discriminate] | ].
  cbn [app]. read_literal.
  eapply first_seq;
    [apply first_group; apply first_number; [eassumption|reflexivity]|].
  cbn [fst snd]. rewrite firstn_length_sub. read_literal.
  eapply first_seq; [apply first_group; apply first_type; eassumption|].
  cbn [fst snd]. rewrite firstn_length_sub. read_literal.
  eapply first_seq; [apply first_chr|]. cbn [fst snd].
  rewrite <- app_assoc. cbn [app]. rewrite <- app_assoc.
  eapply first_seq_group_star with (w := []);
    [ rewrite app_nil_r; eassumption | reflexivity
    | intros ? ? [|? ?] ? ? ?; [contradiction|discriminate] | ].
  cbn [app].
  eapply first_seq; [apply first_chr|]. cbn [fst snd].
  eapply first_seq_star with (u1 := tail) (w := [">"%char]).
  - rewrite forallb_app. unfold no_nl in *.
    match goal with [ H : forallb dot tail = true |- _ ] => rewrite H end.
    reflexivity.
  - reflexivity.
  - intros prev' caps' [|x w1] w2 Hw Hne; [contradiction|].
    injection Hw as _ Hw. destruct w1; [|discriminate].
    simpl in Hw. subst w2. reflexivity.
  - apply first_chr.
Qed.

(** Inside a line no match of an anchored pattern starts: the scan moves
    on to the character after the line's newline. *)
Lemma finditer_rest_of_line (r : re) (v : text) :
  forall u k prev,
    no_nl u = true ->
    k <= length u ->
    (k = 0 -> at_bol prev = false) ->
    finditer_from (Seq Bol r) prev k (u ++ NL :: v)
    = finditer_from (Seq Bol r) (Some NL) 0 v.
Proof.
  induction u as [|c u IH]; intros k prev Hu Hk Hprev.
  - simpl in Hk. assert (k = 0) by lia. subst k.
    cbn [app finditer_from]. rewrite match_at_not_bol by auto.
    reflexivity.
  - simpl in Hu. apply andb_true_iff in Hu. destruct Hu as [Hc Hu].
    apply dot_not_nl in Hc. cbn [app finditer_from].
    destruct k as [|k].
    + rewrite match_at_not_bol by auto.
      apply IH; [assumption|lia|intros _; exact Hc].
    + apply IH; [assumption|simpl in Hk; lia|intros _; exact Hc].
Qed.

(** A match at the start of a line that ends in the line: the scan
    records it and moves on to the next line. *)
Lemma finditer_line_match (r : re) (l v : text) prev o :
  no_nl l = true ->
  match_at (Seq Bol r) prev (l ++ NL :: v) = Some o ->
  (exists u1 u2, l = u1 ++ u2 /\ snd (fst o) = u2 ++ NL :: v) ->
  finditer_from (Seq Bol r) prev 0 (l ++ NL :: v)
  = snd o :: finditer_from (Seq Bol r) (Some NL) 0 v.
Proof.
  intros Hl Hm [u1 [u2 [El Eo]]].
  destruct l as [|c l].
  - cbn [app finditer_from] in *. rewrite Hm. f_equal.
    symmetry in El. apply app_eq_nil in El. destruct El as [-> ->].
    rewrite Eo. cbn [app]. rewrite Nat.sub_diag. reflexivity.
  - cbn [app finditer_from] in *. rewrite Hm. f_equal.
    simpl in Hl. apply andb_true_iff in Hl. destruct Hl as [Hc Hl].
    apply finditer_rest_of_line.
    + exact Hl.
    + rewrite Eo. cbn [length].
      assert (length (c :: l) = length (u1 ++ u2)) by (rewrite El; reflexivity).
      rewrite !length_app in *. cbn [length] in *. lia.
    + intros _. apply dot_not_nl. exact Hc.
Qed.

(** No match at the start of a line: the scan moves on to the next
    line. *)
Lemma finditer_line_nomatch (r : re) (l v : text) prev :
  no_nl l = true ->
  match_at (Seq Bol r) prev (l ++ NL :: v) = None ->
  finditer_from (Seq Bol r) prev 0 (l ++ NL :: v)
  = finditer_from (Seq Bol r) (Some NL) 0 v.
Proof.
  intros Hl Hm. destruct l as [|c l].
  - cbn [app finditer_from] in *. rewrite Hm. reflexivity.
  - cbn [app finditer_from] in *. rewrite Hm.
    simpl in Hl. apply andb_true_iff in Hl. destruct Hl as [Hc Hl].
    apply finditer_rest_of_line;
      [exact Hl|lia|intros _; apply dot_not_nl; exact Hc].
Qed.

Lemma is_digit_dot (c : ascii) : is_digit c = true -> dot c = true.
Proof.
  intros H. unfold dot. destruct (Ascii.eqb_spec c NL); [|reflexivity].
  subst c. discriminate H.
Qed.

Lemma forallb_digit_dot (u : text) :
  forallb is_digit u = true -> no_nl u = true.
Proof.
  unfold no_nl. induction u as [|c u IH]; simpl; [reflexivity|].
  intros H. apply andb_true_iff in H. destruct H as [Hc Hu].
  rewrite (is_digit_dot c Hc). apply IH. exact Hu.
Qed.

Lemma wf_number_no_nl (letters : string) (num : text) :
  no_nl (txt letters) = true ->
  wf_number letters num = true -> no_nl num = true.
Proof.
  intros Hl H. destruct num as [|c rest]; [reflexivity|]. simpl in H.
  destruct (Ascii.eqb c "-") eqn:Eminus.
  - apply Ascii.eqb_eq in Eminus. subst c.
    apply andb_true_iff in H. destruct H as [_ H].
    unfold no_nl. simpl. apply forallb_digit_dot. exact H.
  - destruct (is_digit c) eqn:Edig.
    + unfold no_nl. simpl. rewrite (is_digit_dot c Edig).
      apply forallb_digit_dot. exact H.
    + apply andb_true_iff in H. destruct H as [Hc Hnil].
      destruct rest; [|discriminate]. unfold no_nl. simpl.
      rewrite andb_true_r. apply orb_true_iff in Hc.
      destruct Hc as [Hc|Hc].
      * apply Ascii.eqb_eq in Hc. subst c. reflexivity.
      * unfold one_of in Hc. apply existsb_exists in Hc.
        destruct Hc as [x [Hx Hc]]. apply Ascii.eqb_eq in Hc. subst x.
        unfold no_nl in Hl. rewrite forallb_forall in Hl. apply Hl.
        exact Hx.
Qed.

Lemma no_nl_attributes (letters : string) (d : Declaration) :
  no_nl (txt letters) = true ->
  wf_number letters (d_number d) = true ->
  no_nl (d_type d) = true ->
  no_nl (d_desc d) = true ->
  no_nl (d_tail d) = true ->
  no_nl (decl_attributes d) = true.
Proof.
  intros Hl Hnum Hty Hdesc Htail. unfold decl_attributes.
  apply (wf_number_no_nl letters _ Hl) in Hnum.
  rewrite !no_nl_app, Hnum, Hty. cbn [no_nl forallb].
  rewrite !no_nl_app. cbn [no_nl forallb]. rewrite !no_nl_app.
  fold (no_nl (d_desc d)). fold (no_nl (d_tail d)).
  rewrite Hdesc, Htail. reflexivity.
Qed.

(** After the identifier of a well-formed FORMAT line the rest of the
    pattern matches, and after no longer candidate it does. *)
Lemma format_attributes_live (d : Declaration) prev caps v :
  wf_number "AGR" (d_number d) = true ->
  negb (is_nil (d_type d)) = true ->
  no_nl (d_type d) = true ->
  no_nl (d_desc d) = true ->
  no_nl (d_tail d) = true ->
  run format_attributes_re (prev, decl_attributes d ++ NL :: v) caps <> [].
Proof.
  destruct d as [id num ty desc tail].
  cbn [d_id d_number d_type d_desc d_tail]. intros Hnum Hne Hty Hdesc Htail.
  destruct ty as [|c ty]; [discriminate|].
  unfold no_nl in *. simpl in Hty. apply andb_true_iff in Hty.
  destruct Hty as [Hc Hty].
  unfold format_attributes_re, decl_attributes.
  cbn [d_id d_number d_type d_desc d_tail].
  rewrite <- !app_assoc. cbn [txt list_ascii_of_string app].
  eapply live_seq;
    [apply in_first; apply first_lit_startswith; reflexivity|].
  cbn [fst snd skipn length txt list_ascii_of_string app].
  eapply live_seq;
    [ apply in_first; apply first_group; apply first_number;
      [exact Hnum|reflexivity] |].
  cbn [fst snd].
  eapply live_seq;
    [apply in_first; apply first_lit_startswith; reflexivity|].
  cbn [fst snd skipn length txt list_ascii_of_string app].
  eapply live_seq; [apply in_group_plus; assumption|].
  cbn [fst snd].
  eapply live_seq;
    [apply in_first; apply first_lit_startswith; reflexivity|].
  cbn [fst snd skipn length txt list_ascii_of_string app].
  eapply live_seq; [apply in_first; apply first_chr|]. cbn [fst snd].
  rewrite <- app_assoc. cbn [app]. rewrite <- app_assoc.
  eapply live_seq; [apply in_group_star; assumption|]. cbn [fst snd].
  eapply live_seq; [apply in_first; apply first_chr|]. cbn [fst snd].
  eapply live_seq; [apply in_run_star; exact Htail|]. cbn [fst snd].
  simpl. discriminate.
Qed.

Lemma format_attributes_dead (d : Declaration) v :
  Py.contains (txt ",Number=") (tl (decl_attributes d)) = false ->
  forall prev' caps' w1 w2,
    decl_attributes d = w1 ++ w2 -> w1 <> [] ->
    run format_attributes_re (prev', w2 ++ NL :: v) caps' = [].
Proof.
  intros Hc prev' caps' w1 w2 Hw Hne.
  destruct w1 as [|x w1]; [contradiction|].
  rewrite Hw in Hc. cbn [tl app] in Hc. apply contains_app_r in Hc.
  apply contains_startswith in Hc.
  assert (Hs : Py.startswith (txt ",Number=") (w2 ++ NL :: v) = false).
  { destruct (Py.startswith (txt ",Number=") (w2 ++ NL :: v)) eqn:E;
      [|reflexivity].
    apply startswith_before_nl in E; [congruence|reflexivity]. }
  unfold format_attributes_re. cbn [run].
  rewrite run_lit_mismatch by exact Hs. reflexivity.
Qed.

(** [RE_FORMAT] at the start of a well-formed FORMAT line: there is a
    match, it ends in the line and its [id] capture is the identifier. *)
Lemma match_format (d : Declaration) prev v :
  wf_format d = true ->
  at_bol prev = true ->
  exists o,
    match_at RE_FORMAT prev (format_line d ++ NL :: v) = Some o
    /\ group "id" (snd o) = d_id d
    /\ in_line (format_line d) v (fst o).
Proof.
  unfold wf_format. intros Hwf Hbol.
  repeat (apply andb_true_iff in Hwf; destruct Hwf as [Hwf ?]).
  match goal with
  | [ H : negb (Py.contains _ _) = true |- _ ] =>
      apply negb_true_iff in H; rename H into Hcont
  end.
  destruct (d_id d) as [|c id] eqn:Eid; [discriminate|].
  match goal with
  | [ H : no_nl (c :: id) = true |- _ ] =>
      unfold no_nl in H; simpl in H; apply andb_true_iff in H;
      destruct H as [Hc Hid]
  end.
  set (cur0 := (before (Some c) id, decl_attributes d ++ NL :: v)).
  set (caps0 := [("id"%string, c :: id)]).
  pose proof (format_attributes_live d (fst cur0) caps0 v
                ltac:(assumption) ltac:(assumption) ltac:(assumption)
                ltac:(assumption) ltac:(assumption)) as Hlive.
  destruct (run format_attributes_re cur0 caps0) as [|o L] eqn:Erun;
    [contradiction|].
  assert (Hin : In o (run format_attributes_re cur0 caps0))
    by (rewrite Erun; left; reflexivity).
  exists o. split; [|split].
  - unfold match_at, format_line, decl_body. rewrite Eid.
    change (hd_error (run ?r ?c ?k)) with (first r c k).
    change RE_FORMAT with
      (Seq Bol (Seq (lit (txt "##FORMAT=<")) (Seq (lit (txt "ID="))
         (Seq (Group "id" (Plus dot)) format_attributes_re)))).
    rewrite <- !app_assoc. cbn [txt list_ascii_of_string app].
    eapply first_seq; [apply first_bol; exact Hbol|]. cbn [fst snd].
    read_literal. read_literal.
    eapply first_seq_group_plus with (w := decl_attributes d);
      [ exact Hc | | reflexivity
      | apply format_attributes_dead; exact Hcont | ].
    + rewrite forallb_app, Hid.
      apply (no_nl_attributes "AGR" d eq_refl); assumption.
    + change (first format_attributes_re cur0 caps0 = Some o).
      unfold first. rewrite Erun. reflexivity.
  - rewrite (run_keeps_group "id" format_attributes_re eq_refl _ _ _ Hin).
    reflexivity.
  - apply (run_in_line (format_line d) v format_attributes_re eq_refl
             cur0 caps0 o); [|exact Hin].
    exists (txt "##FORMAT=<" ++ txt "ID=" ++ c :: id), (decl_attributes d).
    split; [|reflexivity].
    unfold format_line, decl_body. rewrite Eid, <- !app_assoc. reflexivity.
Qed.

Lemma type_name_no_nl (ty : text) :
  Py.list_in ty type_names = true -> no_nl ty = true.
Proof.
  unfold Py.list_in, type_names. simpl. rewrite orb_false_r. intros H.
  repeat (apply orb_true_iff in H; destruct H as [H|H]);
    apply text_eqb_eq in H; subst ty; reflexivity.
Qed.

Lemma wf_info_no_nl (d : Declaration) :
  wf_info d = true -> no_nl (info_line d) = true.
Proof.
  unfold wf_info. intros Hwf.
  repeat (apply andb_true_iff in Hwf; destruct Hwf as [Hwf ?]).
  unfold info_line, decl_body. rewrite !no_nl_app.
  rewrite (no_nl_attributes "AG" d eq_refl)
    by (assumption || (apply type_name_no_nl; assumption)).
  match goal with [ H : no_nl (d_id d) = true |- _ ] => rewrite H end.
  reflexivity.
Qed.

Lemma wf_format_no_nl (d : Declaration) :
  wf_format d = true -> no_nl (format_line d) = true.
Proof.
  unfold wf_format. intros Hwf.
  repeat (apply andb_true_iff in Hwf; destruct Hwf as [Hwf ?]).
  unfold format_line, decl_body. rewrite !no_nl_app.
  rewrite (no_nl_attributes "AGR" d eq_refl) by assumption.
  match goal with [ H : no_nl (d_id d) = true |- _ ] => rewrite H end.
  reflexivity.
Qed.

Lemma header_text_cons (hl : HeaderLine) (ls : list HeaderLine) :
  header_text (hl :: ls) = line_text hl ++ NL :: header_text ls.
Proof. unfold header_text. simpl. rewrite <- app_assoc. reflexivity. Qed.

(** The scans of [RE_INFO] and of [RE_FORMAT] over a header of
    well-formed lines, from any start of line. *)
Lemma info_ids_scan (ls : list HeaderLine) :
  forallb wf_line ls = true ->
  forall prev,
    at_bol prev = true ->
    map (group "id") (finditer_from RE_INFO prev 0 (header_text ls))
    = info_ids ls.
Proof.
  induction ls as [|hl ls IH]; intros Hwf prev Hbol.
  - cbn [header_text flat_map finditer_from info_ids].
    replace (match_at RE_INFO prev []) with (@None outcome);
      [reflexivity|].
    unfold match_at. simpl. destruct (at_bol prev); reflexivity.
  - simpl in Hwf. apply andb_true_iff in Hwf. destruct Hwf as [Hhl Hls].
    rewrite header_text_cons.
    destruct hl as [d|d|l]; simpl in Hhl; cbn [line_text info_ids flat_map].
    + unfold RE_INFO.
      erewrite finditer_line_match;
        [ | apply wf_info_no_nl; exact Hhl
          | apply (match_info d prev _ Hhl Hbol)
          | exists (info_line d), []; split;
            [symmetry; apply app_nil_r|reflexivity] ].
      cbn [map snd group]. simpl String.eqb. cbn [app]. f_equal.
      apply (IH Hls (Some NL) eq_refl).
    + unfold RE_INFO.
      rewrite finditer_line_nomatch;
        [ apply (IH Hls (Some NL) eq_refl)
        | apply wf_format_no_nl; exact Hhl
        | apply (match_at_without_prefix (txt "##INFO=<") (txt "ID="));
          reflexivity ].
    + apply andb_true_iff in Hhl. destruct Hhl as [Hhl Hf].
      apply andb_true_iff in Hhl. destruct Hhl as [Hl Hi].
      apply negb_true_iff in Hi.
      unfold RE_INFO.
      rewrite finditer_line_nomatch;
        [ apply (IH Hls (Some NL) eq_refl)
        | exact Hl
        | apply (match_at_without_prefix (txt "##INFO=<") (txt "ID="));
          [reflexivity|exact Hi] ].
Qed.

Lemma format_ids_scan (ls : list HeaderLine) :
  forallb wf_line ls = true ->
  forall prev,
    at_bol prev = true ->
    map (group "id") (finditer_from RE_FORMAT prev 0 (header_text ls))
    = format_ids ls.
Proof.
  induction ls as [|hl ls IH]; intros Hwf prev Hbol.
  - cbn [header_text flat_map finditer_from format_ids].
    replace (match_at RE_FORMAT prev []) with (@None outcome);
      [reflexivity|].
    unfold match_at. simpl. destruct (at_bol prev); reflexivity.
  - simpl in Hwf. apply andb_true_iff in Hwf. destruct Hwf as [Hhl Hls].
    rewrite header_text_cons.
    destruct hl as [d|d|l]; simpl in Hhl; cbn [line_text format_ids flat_map].
    + unfold RE_FORMAT.
      rewrite finditer_line_nomatch;
        [ apply (IH Hls (Some NL) eq_refl)
        | apply wf_info_no_nl; exact Hhl
        | apply (match_at_without_prefix (txt "##FORMAT=<") (txt "ID="));
          reflexivity ].
    + destruct (match_format d prev (header_text ls) Hhl Hbol)
        as [o [Hm [Hid Hline]]].
      unfold RE_FORMAT in *.
      erewrite finditer_line_match;
        [ | apply wf_format_no_nl; exact Hhl | exact Hm | exact Hline ].
      cbn [map app]. rewrite Hid. f_equal.
      apply (IH Hls (Some NL) eq_refl).
    + apply andb_true_iff in Hhl. destruct Hhl as [Hhl Hf].
      apply andb_true_iff in Hhl. destruct Hhl as [Hl Hi].
      apply negb_true_iff in Hf.
      unfold RE_FORMAT.
      rewrite finditer_line_nomatch;
        [ apply (IH Hls (Some NL) eq_refl)
        | exact Hl
        | apply (match_at_without_prefix (txt "##FORMAT=<") (txt "ID="));
          [reflexivity|exact Hf] ].
Qed.

Lemma info_ids_length (ls : list HeaderLine) :
  length (info_ids ls) = length (filter is_info_line ls).
Proof.
  induction ls as [|[d|d|l] ls IH]; simpl; congruence.
Qed.

Lemma format_ids_length (ls : list HeaderLine) :
  length (format_ids ls) = length (filter is_format_line ls).
Proof.
  induction ls as [|[d|d|l] ls IH]; simpl; congruence.
Qed.

(** Headers of well-formed declarations. For a header made of
    newline-terminated lines, each of them a well-formed one-line INFO
    declaration, a well-formed one-line FORMAT declaration in which
    [,Number=] occurs once, or a line that starts with neither
    [##INFO=<ID=] nor [##FORMAT=<ID=]: [infoFields] is the list of the
    identifiers of the INFO declarations and [formatFields] that of the
    FORMAT declarations, in header order; the other lines contribute
    nothing and repeated identifiers are kept, so the lengths are the
    numbers of INFO and of FORMAT declarations. *)
Theorem header_fields_of_wellformed_lines (ls : list HeaderLine)
    (Hwf : forallb wf_line ls = true) :
  info_fields_of (header_text ls) = info_ids ls
  /\ format_fields_of (header_text ls) = format_ids ls
  /\ length (info_fields_of (header_text ls))
     = length (filter is_info_line ls)
  /\ length (format_fields_of (header_text ls))
     = length (filter is_format_line ls).
Proof.
  assert (Hi : info_fields_of (header_text ls) = info_ids ls)
    by (apply (info_ids_scan ls Hwf None eq_refl)).
  assert (Hf : format_fields_of (header_text ls) = format_ids ls)
    by (apply (format_ids_scan ls Hwf None eq_refl)).
  rewrite Hi, Hf. repeat split.
  - apply info_ids_length.
  - apply format_ids_length.
Qed.

Example wellformed_lines_example :
  info_fields_of (header_text ex_header_lines)
  = map txt ["DP"; "AF"; "DP"]%string
  /\ format_fields_of (header_text ex_header_lines)
     = map txt ["GT"; "AD"]%string.
Proof.
  split.
  - exact (proj1 (header_fields_of_wellformed_lines ex_header_lines
                    eq_refl)).
  - exact (proj1 (proj2 (header_fields_of_wellformed_lines ex_header_lines
                           eq_refl))).
Qed.

(** *** Matches that stay in front of a suffix *)

Lemma star_shrinks (p : ascii -> bool) (s : text) :
  forall prev cur, In cur (star p prev s) -> length (snd cur) <= length s.
Proof.
  induction s as [|x s IH]; intros prev cur H; simpl in H.
  - destruct H as [<-|[]]. simpl. lia.
  - destruct (p x).
    + apply in_app_or in H. destruct H as [H|[<-|[]]].
      * apply IH in H. simpl. lia.
      * simpl. lia.
    + destruct H as [<-|[]]. simpl. lia.
Qed.

Lemma run_shrinks (r : re) :
  forall cur caps o,
    In o (run r cur caps) -> length (snd (fst o)) <= length (snd cur).
Proof.
  induction r as [| |c|p|a IHa b IHb|a IHa b IHb|a IHa|p|p|name a IHa];
    intros [prev s] caps o Ho; simpl in Ho; simpl snd.
  - destruct Ho as [<-|[]]. simpl. lia.
  - destruct (at_bol prev); [|contradiction].
    destruct Ho as [<-|[]]. simpl. lia.
  - destruct s as [|x s]; [contradiction|].
    destruct (Ascii.eqb x c); [|contradiction].
    destruct Ho as [<-|[]]. simpl. lia.
  - destruct s as [|x s]; [contradiction|].
    destruct (p x); [|contradiction].
    destruct Ho as [<-|[]]. simpl. lia.
  - apply in_flat_map in Ho. destruct Ho as [o1 [Ho1 Ho]].
    apply IHa in Ho1. apply IHb in Ho. simpl in Ho1. lia.
  - apply in_app_or in Ho. destruct Ho as [Ho|Ho].
    + apply IHa in Ho. exact Ho.
    + apply IHb in Ho. exact Ho.
  - apply in_app_or in Ho. destruct Ho as [Ho|[<-|[]]].
    + apply IHa in Ho. exact Ho.
    + simpl. lia.
  - apply in_map_iff in Ho. destruct Ho as [cur [<- Hc]].
    apply star_shrinks in Hc. exact Hc.
  - destruct s as [|x s]; [contradiction|].
    destruct (p x); [|contradiction].
    apply in_map_iff in Ho. destruct Ho as [cur [<- Hc]].
    apply star_shrinks in Hc. simpl. lia.
  - apply in_map_iff in Ho. destruct Ho as [o1 [<- Ho1]].
    apply IHa in Ho1. exact Ho1.
Qed.

Lemma filter_flat_map {A B} (P : B -> bool) (g : A -> list B) (l : list A) :
  filter P (flat_map g l) = flat_map (fun x => filter P (g x)) l.
Proof.
  induction l as [|x l IH]; simpl; [reflexivity|].
  rewrite filter_app, IH. reflexivity.
Qed.

Lemma flat_map_filter_nil {A B} (P : A -> bool) (h : A -> list B)
    (l : list A) :
  (forall x, In x l -> P x = false -> h x = []) ->
  flat_map h l = flat_map h (filter P l).
Proof.
  induction l as [|x l IH]; intros H; simpl; [reflexivity|].
  destruct (P x) eqn:E; simpl.
  - f_equal. apply IH. intros y Hy. apply H. right. exact Hy.
  - rewrite (H x (or_introl eq_refl) E). simpl.
    apply IH. intros y Hy. apply H. right. exact Hy.
Qed.

Lemma map_flat_map {A B C} (f : B -> C) (g : A -> list B) (l : list A) :
  map f (flat_map g l) = flat_map (fun x => map f (g x)) l.
Proof.
  induction l as [|x l IH]; simpl; [reflexivity|].
  rewrite map_app, IH. reflexivity.
Qed.

Lemma filter_none {A} (P : A -> bool) (l : list A) :
  (forall x, In x l -> P x = false) -> filter P l = [].
Proof.
  induction l as [|x l IH]; intros H; simpl; [reflexivity|].
  rewrite (H x (or_introl eq_refl)). apply IH. intros y Hy. apply H.
  right. exact Hy.
Qed.

Lemma leb_length_app (t u : text) : (length t <=? length (u ++ t)) = true.
Proof. apply Nat.leb_le. rewrite length_app. lia. Qed.

Lemma leb_length_cons_app (t u : text) (x : ascii) :
  (length t <=? length (x :: u ++ t)) = true.
Proof. apply (leb_length_app t (x :: u)). Qed.

Lemma star_local (p : ascii -> bool) (t : text) :
  forall u prev,
    filter (fun cur : cursor => length t <=? length (snd cur))
      (star p prev (u ++ t))
    = map (fun cur : cursor => (fst cur, snd cur ++ t)) (star p prev u).
Proof.
  induction u as [|x u IH]; intros prev.
  - simpl app. simpl star at 2. simpl map.
    destruct t as [|y t]; [reflexivity|].
    simpl star. destruct (p y).
    + rewrite filter_app. rewrite filter_none.
      * simpl. rewrite Nat.leb_refl. reflexivity.
      * intros cur Hc. apply star_shrinks in Hc.
        apply Nat.leb_gt. simpl. lia.
    + simpl. rewrite Nat.leb_refl. reflexivity.
  - cbn [app star]. destruct (p x).
    + rewrite filter_app, map_app, IH. cbn [filter map fst snd].
      rewrite leb_length_cons_app. reflexivity.
    + cbn [filter map fst snd].
      rewrite leb_length_cons_app. reflexivity.
Qed.

Lemma firstn_consumed (u u' t : text) :
  length u' <= length u ->
  firstn (length (u ++ t) - length (u' ++ t)) (u ++ t)
  = firstn (length u - length u') u.
Proof.
  intros H. rewrite !length_app.
  replace (length u + length t - (length u' + length t))
    with (length u - length u') by lia.
  rewrite firstn_app.
  replace (length u - length u' - length u) with 0 by lia.
  simpl. apply app_nil_r.
Qed.

Lemma filter_map_commute {A B} (P : B -> bool) (f : A -> B) (l : list A) :
  filter P (map f l) = map f (filter (fun x => P (f x)) l).
Proof.
  induction l as [|x l IH]; simpl; [reflexivity|].
  destruct (P (f x)); simpl; rewrite IH; reflexivity.
Qed.

Lemma within_cons_false (y : ascii) (t : text) prev caps :
  within (y :: t) ((prev, t), caps) = false.
Proof. unfold within. apply Nat.leb_gt. simpl. lia. Qed.

Lemma within_app_true (u t : text) prev caps :
  within t ((prev, u ++ t), caps) = true.
Proof. unfold within. apply leb_length_app. Qed.

(** The outcomes that have not read into [t] are the outcomes of the text
    in front of [t], in the same order. *)
Lemma run_local (t : text) (r : re) :
  forall (u : text) prev caps,
    filter (within t) (run r (prev, (u ++ t) : text) caps)
    = map (shift t) (run r (prev, u) caps).
Proof.
  induction r as [| |c|p|a IHa b IHb|a IHa b IHb|a IHa|p|p|name a IHa];
    intros u prev caps.
  - cbn [run filter map]. rewrite within_app_true. reflexivity.
  - cbn [run fst]. destruct (at_bol prev); [|reflexivity].
    cbn [filter map]. rewrite within_app_true. reflexivity.
  - destruct u as [|x u]; cbn [app run fst snd].
    + destruct t as [|y t]; [reflexivity|].
      destruct (Ascii.eqb y c); [|reflexivity].
      cbn [filter map]. rewrite within_cons_false. reflexivity.
    + destruct (Ascii.eqb x c); [|reflexivity].
      cbn [filter map]. rewrite within_app_true. reflexivity.
  - destruct u as [|x u]; cbn [app run fst snd].
    + destruct t as [|y t]; [reflexivity|].
      destruct (p y); [|reflexivity].
      cbn [filter map]. rewrite within_cons_false. reflexivity.
    + destruct (p x); [|reflexivity].
      cbn [filter map]. rewrite within_app_true. reflexivity.
  - cbn [run fst snd].
    rewrite filter_flat_map.
    rewrite (flat_map_filter_nil (within t)).
    + rewrite IHa, flat_map_map_compose, map_flat_map.
      apply flat_map_ext. intros [[p0 u0] caps0]. unfold shift. simpl.
      apply IHb.
    + intros o Ho Hw. apply filter_none. intros o' Ho'.
      apply run_shrinks in Ho'. unfold within in *.
      apply Nat.leb_gt in Hw. apply Nat.leb_gt. lia.
  - cbn [run]. rewrite filter_app, map_app, IHa, IHb. reflexivity.
  - cbn [run]. rewrite filter_app, map_app, IHa. cbn [filter map].
    rewrite within_app_true. reflexivity.
  - cbn [run fst snd]. rewrite !map_map.
    pose proof (star_local p t u prev) as H.
    rewrite <- (map_map (fun cur : cursor => (fst cur, snd cur ++ t))
                  (fun cur => (cur, caps))).
    rewrite <- H. clear H.
    induction (star p prev (u ++ t)) as [|cur l IHl]; [reflexivity|].
    simpl. unfold within at 1. simpl.
    destruct (length t <=? length (snd cur)); simpl; rewrite IHl;
      reflexivity.
  - destruct u as [|x u].
    + simpl app. cbn [run fst snd]. simpl map.
      destruct t as [|y t]; [reflexivity|].
      destruct (p y); [|reflexivity].
      apply filter_none. intros o Ho.
      apply in_map_iff in Ho. destruct Ho as [cur [<- Hc]].
      apply star_shrinks in Hc. unfold within. cbn [fst snd].
      apply Nat.leb_gt. cbn [length]. lia.
    + simpl app. cbn [run fst snd]. destruct (p x); [|reflexivity].
      rewrite !map_map.
      pose proof (star_local p t u (Some x)) as H.
      rewrite <- (map_map (fun cur : cursor => (fst cur, snd cur ++ t))
                    (fun cur => (cur, caps))).
      rewrite <- H. clear H.
      induction (star p (Some x) (u ++ t)) as [|cur l IHl]; [reflexivity|].
      simpl. unfold within at 1. simpl.
      destruct (length t <=? length (snd cur)); simpl; rewrite IHl;
        reflexivity.
  - cbn [run fst snd].
    rewrite filter_map_commute.
    rewrite (filter_ext _ (within t)) by reflexivity.
    rewrite IHa, !map_map.
    apply map_ext_in. intros o0 Ho0. apply run_shrinks in Ho0.
    unfold shift. cbn [fst snd]. f_equal. f_equal. f_equal.
    apply firstn_consumed. exact Ho0.
Qed.

(** *** The character before the cursor matters to [^] only *)

Lemma star_reading (p : ascii -> bool) (s : text) :
  forall p1 p2, map snd (star p p1 s) = map snd (star p p2 s).
Proof.
  destruct s as [|x s]; intros p1 p2; simpl; [reflexivity|].
  destruct (p x); [|reflexivity].
  rewrite !map_app. reflexivity.
Qed.

Lemma flat_map_reading (b : re) (L1 L2 : list outcome) :
  (forall q1 q2 s caps,
     map reading (run b (q1, s) caps) = map reading (run b (q2, s) caps)) ->
  map reading L1 = map reading L2 ->
  map reading (flat_map (fun o => run b (fst o) (snd o)) L1)
  = map reading (flat_map (fun o => run b (fst o) (snd o)) L2).
Proof.
  intros Hb. revert L2. induction L1 as [|o1 L1 IH]; intros [|o2 L2] H;
    try discriminate; [reflexivity|].
  simpl in H. injection H as Hs Hc HL. simpl. rewrite !map_app.
  rewrite (IH L2 HL). f_equal.
  destruct o1 as [[q1 s1] c1], o2 as [[q2 s2] c2].
  simpl in Hs, Hc. subst s2 c2. apply Hb.
Qed.

Lemma run_reading (r : re) :
  bol_free r = true ->
  forall p1 p2 s caps,
    map reading (run r (p1, s) caps) = map reading (run r (p2, s) caps).
Proof.
  induction r as [| |c|p|a IHa b IHb|a IHa b IHb|a IHa|p|p|name a IHa];
    intros Hr p1 p2 s caps; simpl in Hr.
  - reflexivity.
  - discriminate.
  - cbn [run snd]. destruct s as [|x s]; [reflexivity|].
    destruct (Ascii.eqb x c); reflexivity.
  - cbn [run snd]. destruct s as [|x s]; [reflexivity|].
    destruct (p x); reflexivity.
  - apply andb_true_iff in Hr. destruct Hr as [Ha Hb]. cbn [run].
    apply flat_map_reading; [apply (IHb Hb)|apply (IHa Ha)].
  - apply andb_true_iff in Hr. destruct Hr as [Ha Hb]. cbn [run].
    rewrite !map_app, (IHa Ha p1 p2), (IHb Hb p1 p2). reflexivity.
  - cbn [run]. rewrite !map_app, (IHa Hr p1 p2). reflexivity.
  - cbn [run fst snd]. rewrite !map_map.
    assert (E : forall q,
      map (fun x : cursor => reading (x, caps)) (star p q s)
      = map (fun s' : text => (s', caps)) (map snd (star p q s)))
      by (intros q; rewrite map_map; reflexivity).
    rewrite !E, (star_reading p s p1 p2). reflexivity.
  - cbn [run fst snd]. destruct s as [|x s]; [reflexivity|].
    destruct (p x); reflexivity.
  - cbn [run fst snd]. rewrite !map_map.
    pose proof (IHa Hr p1 p2 s caps) as H.
    revert H. generalize (run a (p1, s) caps) (run a (p2, s) caps).
    induction l as [|o1 l IH]; intros [|o2 l2] H; try discriminate;
      [reflexivity|].
    simpl in H. injection H as Hs Hc Hl. cbn [map]. rewrite (IH l2 Hl).
    f_equal. destruct o1 as [[q1 s1] c1], o2 as [[q2 s2] c2].
    simpl in Hs, Hc. subst s2 c2. reflexivity.
Qed.

(** *** Headers whose matches stay in their lines *)

Lemma match_local_none (r : re) prev (l t : text) :
  match_at r prev (l ++ t) = None -> match_at r prev l = None.
Proof.
  unfold match_at. intros H.
  pose proof (run_local t r l prev []) as E. unfold text in *.
  match type of H with
  | hd_error ?x = _ => destruct x; [|simpl in H; discriminate H]
  end.
  simpl in E.
  match goal with
  | [ |- hd_error ?x = _ ] =>
      destruct x; [reflexivity|simpl in E; discriminate E]
  end.
Qed.

Lemma match_local_some (r : re) prev (l t : text) (o : outcome) :
  match_at r prev (l ++ t) = Some o ->
  within t o = true ->
  exists o0, match_at r prev l = Some o0 /\ o = shift t o0
             /\ length (snd (fst o0)) <= length l.
Proof.
  unfold match_at. intros H Hw.
  pose proof (run_local t r l prev []) as E. unfold text in *.
  match type of H with
  | hd_error ?x = _ =>
      destruct x as [|o' L]; [simpl in H; discriminate H|]
  end.
  simpl in H. injection H as ->. simpl in E. rewrite Hw in E.
  match goal with
  | [ |- exists _, hd_error ?x = _ /\ _ ] =>
      destruct x as [|o0 L0] eqn:E0; [simpl in E; discriminate E|]
  end.
  simpl in E. injection E as Ho _.
  exists o0. split; [reflexivity|]. split; [exact Ho|].
  assert (Hin : In o0 (o0 :: L0)) by (left; reflexivity).
  rewrite <- E0 in Hin. apply run_shrinks in Hin. exact Hin.
Qed.

Lemma match_prev (r : re) prev (s : text) :
  bol_free r = true ->
  at_bol prev = true ->
  option_map reading (match_at (Seq Bol r) prev s)
  = option_map reading (match_at (Seq Bol r) None s).
Proof.
  intros Hr Hb. unfold match_at. cbn [run fst snd at_bol]. rewrite Hb.
  cbn [flat_map fst snd]. rewrite !app_nil_r.
  pose proof (run_reading r Hr prev None s []) as E. unfold text in *.
  match type of E with
  | map _ ?x = map _ ?y =>
      destruct x, y; simpl in E; try discriminate E; [reflexivity|]
  end.
  injection E as Hs Hc _. simpl. unfold reading.
  rewrite Hs, Hc. reflexivity.
Qed.

Lemma split_line (l s : text) :
  no_nl l = true -> Py.split NL (l ++ NL :: s) = l :: Py.split NL s.
Proof.
  induction l as [|c l IH]; intros H.
  - simpl. reflexivity.
  - simpl in H. apply andb_true_iff in H. destruct H as [Hc Hl].
    apply dot_not_nl in Hc. simpl. rewrite Hc, (IH Hl). reflexivity.
Qed.

Lemma split_lines (ls : list text) :
  forallb no_nl ls = true ->
  Py.split NL (text_of_lines ls) = ls ++ [[]].
Proof.
  induction ls as [|l ls IH]; intros H; [reflexivity|].
  simpl in H. apply andb_true_iff in H. destruct H as [Hl Hls].
  unfold text_of_lines in *. simpl. rewrite <- app_assoc. simpl.
  rewrite split_line by exact Hl. rewrite (IH Hls). reflexivity.
Qed.

Lemma finditer_line_match_length (r : re) (l v : text) prev o :
  no_nl l = true ->
  match_at (Seq Bol r) prev (l ++ NL :: v) = Some o ->
  (exists u2, length u2 <= length l /\ snd (fst o) = u2 ++ NL :: v) ->
  finditer_from (Seq Bol r) prev 0 (l ++ NL :: v)
  = snd o :: finditer_from (Seq Bol r) (Some NL) 0 v.
Proof.
  intros Hl Hm [u2 [Hlen Eo]].
  destruct l as [|c l].
  - cbn [app finditer_from] in *. rewrite Hm. f_equal.
    destruct u2; [|simpl in Hlen; lia].
    rewrite Eo. cbn [app]. rewrite Nat.sub_diag. reflexivity.
  - cbn [app finditer_from] in *. rewrite Hm. f_equal.
    simpl in Hl. apply andb_true_iff in Hl. destruct Hl as [Hc Hl].
    apply finditer_rest_of_line.
    + exact Hl.
    + rewrite Eo. cbn [length] in *.
      rewrite !length_app. cbn [length]. lia.
    + intros _. apply dot_not_nl. exact Hc.
Qed.

Lemma text_of_lines_cons (l : text) (ls : list text) :
  text_of_lines (l :: ls) = l ++ NL :: text_of_lines ls.
Proof. unfold text_of_lines. simpl. rewrite <- app_assoc. reflexivity. Qed.

Lemma option_map_reading_none (m : option outcome) :
  option_map reading m = None -> m = None.
Proof. destruct m; [discriminate|reflexivity]. Qed.

(** The scan of an anchored pattern over a header whose matches stay in
    their lines finds, line by line, what the pattern matches in the line
    taken alone. *)
Lemma lines_scan (r : re) :
  bol_free r = true ->
  match_at (Seq Bol r) None [] = None ->
  forall ls prev,
    at_bol prev = true ->
    forallb no_nl ls = true ->
    stays_in_lines (Seq Bol r) prev ls = true ->
    map (group "id") (finditer_from (Seq Bol r) prev 0 (text_of_lines ls))
    = flat_map (fun l => match match_at (Seq Bol r) None l with
                         | Some o => [group "id" (snd o)]
                         | None => []
                         end) ls.
Proof.
  intros Hr Hend. induction ls as [|l ls IH]; intros prev Hbol Hnl Hstay.
  - cbn [text_of_lines flat_map finditer_from].
    pose proof (match_prev r prev [] Hr Hbol) as E.
    rewrite Hend in E. apply option_map_reading_none in E.
    rewrite E. reflexivity.
  - simpl in Hnl. apply andb_true_iff in Hnl. destruct Hnl as [Hl Hls].
    cbn [stays_in_lines] in Hstay. apply andb_true_iff in Hstay.
    destruct Hstay as [Hhere Hrest].
    rewrite text_of_lines_cons. cbn [flat_map].
    pose proof (match_prev r prev l Hr Hbol) as Eprev.
    destruct (match_at (Seq Bol r) prev (l ++ NL :: text_of_lines ls))
      as [o|] eqn:Em.
    + destruct (match_local_some _ _ _ _ _ Em Hhere)
        as [o0 [Em0 [Eo Hlen]]].
      rewrite (finditer_line_match_length r l _ prev o Hl Em).
      2:{ exists (snd (fst o0)). split; [exact Hlen|].
          rewrite Eo. reflexivity. }
      cbn [map]. rewrite (IH (Some NL) eq_refl Hls Hrest).
      rewrite Em0 in Eprev.
      destruct (match_at (Seq Bol r) None l) as [o1|]; [|discriminate].
      simpl in Eprev. injection Eprev as _ Hc.
      rewrite Eo. unfold shift. cbn [snd app]. rewrite Hc. reflexivity.
    + rewrite (finditer_line_nomatch r l _ prev Hl Em).
      rewrite (IH (Some NL) eq_refl Hls Hrest).
      apply match_local_none in Em. rewrite Em in Eprev.
      symmetry in Eprev. apply option_map_reading_none in Eprev.
      rewrite Eprev. reflexivity.
Qed.

Lemma ids_of_matching_lines_length (r : re) (ls : list text) :
  length (flat_map (fun l => match match_at r None l with
                             | Some o => [group "id" (snd o)]
                             | None => []
                             end) ls)
  = length (matching_lines r ls).
Proof.
  induction ls as [|l ls IH]; [reflexivity|].
  unfold matching_lines in *. simpl.
  destruct (match_at r None l); simpl; rewrite IH; reflexivity.
Qed.

(** Where the defect of C5 cannot show.  For a header made of
    newline-terminated lines in which no match of the INFO pattern and
    none of the FORMAT pattern that starts at the start of a line reads
    past the end of that line: [infoFields] is the list of the ID captures
    of the lines that match the INFO pattern, [formatFields] that of the
    lines that match the FORMAT pattern, in the order of the lines; the
    lines that match nothing contribute nothing and repeated identifiers
    are kept, so the lengths are the numbers of matching lines. *)
Theorem header_fields_line_by_line (ls : list text)
    (Hlines : forallb no_nl ls = true)
    (Hinfo : stays_in_lines RE_INFO None ls = true)
    (Hformat : stays_in_lines RE_FORMAT None ls = true) :
  info_fields_of (text_of_lines ls)
  = ids_of_matching_lines RE_INFO (text_of_lines ls)
  /\ format_fields_of (text_of_lines ls)
     = ids_of_matching_lines RE_FORMAT (text_of_lines ls)
  /\ length (info_fields_of (text_of_lines ls))
     = length (matching_lines RE_INFO ls)
  /\ length (format_fields_of (text_of_lines ls))
     = length (matching_lines RE_FORMAT ls).
Proof.
  assert (Hi : info_fields_of (text_of_lines ls)
               = flat_map (fun l => match match_at RE_INFO None l with
                                    | Some o => [group "id" (snd o)]
                                    | None => []
                                    end) ls).
  { unfold info_fields_of, finditer, RE_INFO.
    apply lines_scan; try reflexivity; assumption. }
  assert (Hf : format_fields_of (text_of_lines ls)
               = flat_map (fun l => match match_at RE_FORMAT None l with
                                    | Some o => [group "id" (snd o)]
                                    | None => []
                                    end) ls).
  { unfold format_fields_of, finditer, RE_FORMAT.
    apply lines_scan; try reflexivity; assumption. }
  unfold ids_of_matching_lines. rewrite (split_lines ls Hlines).
  rewrite !flat_map_app. cbn [flat_map].
  replace (match_at RE_INFO None []) with (@None outcome) by reflexivity.
  replace (match_at RE_FORMAT None []) with (@None outcome) by reflexivity.
  rewrite !app_nil_r, Hi, Hf.
  repeat split; apply ids_of_matching_lines_length.
Qed.

Example header_fields_line_by_line_example :
  info_fields_of (text_of_lines ex_text_lines)
  = ids_of_matching_lines RE_INFO (text_of_lines ex_text_lines)
  /\ format_fields_of (text_of_lines ex_text_lines)
     = ids_of_matching_lines RE_FORMAT (text_of_lines ex_text_lines)
  /\ length (info_fields_of (text_of_lines ex_text_lines)) = 3
  /\ length (format_fields_of (text_of_lines ex_text_lines)) = 2.
Proof.
  exact (header_fields_line_by_line ex_text_lines eq_refl eq_refl eq_refl).
Qed.

(** C5, at a failing input.  The header has two lines: [##INFO=<ID=A],
    which is no declaration and matches nothing by itself, and a
    well-formed declaration of [B].  By the claim the first line is
    skipped and [infoFields] is [[B]].  The code finds one match, which
    starts on the first line and ends on the second, [[^,]+] having read
    across the newline: [infoFields] is the one text [A], newline,
    [##INFO=<ID=B], the identifier of no declaration.  The sibling
    pattern does what the claim says: [(.+)] stays in its line, and on the
    same header written with [FORMAT] the first line is skipped and
    [formatFields] is [[B]]. *)
Theorem unclosed_info_line_takes_next_line :
  ids_of_matching_lines RE_INFO ex_unclosed_header = [txt "B"]
  /\ info_fields_of ex_unclosed_header
     = [txt "A" ++ [NL] ++ txt "##INFO=<ID=B"]
  /\ info_fields_of ex_unclosed_header
     <> ids_of_matching_lines RE_INFO ex_unclosed_header
  /\ format_fields_of ex_unclosed_format_header
     = ids_of_matching_lines RE_FORMAT ex_unclosed_format_header
  /\ format_fields_of ex_unclosed_format_header = [txt "B"].
Proof.
  split; [reflexivity|]. split; [reflexivity|].
  split; [vm_compute; discriminate|].
  split; reflexivity.
Qed.

(** ** The long header: C6 *)

(** With at least one format field, and no more format fields than
    columns, the trailing [len(format_fields)] names get the prefix and the
    others stay as they are. *)
Lemma long_header_trailing_prefix (a : option nat) (ffs : list text)
    (line : text) :
  0 < length ffs <= length (long_header_names a line) ->
  let names := long_header_names a line in
  let n := length names - length ffs in
  long_header_columns a ffs line
  = firstn n names ++ map (fun x => txt "F_" ++ x) (skipn n names).
Proof.
  intros Hk names n. unfold long_header_columns. cbv zeta.
  fold names. rewrite slice_to_neg, slice_from_neg by exact Hk.
  reflexivity.
Qed.

(** C6, at the failing inputs: with no format field, [header[:-0]] is
    empty and [header[-0:]] is the whole list, so every column name of the
    long header gets the [F_] prefix, and there is at least one. *)
Theorem no_format_fields_prefixes_every_column (a : option nat)
    (line : text) :
  long_header_columns a [] line <> []
  /\ Forall (fun c => Py.startswith (txt "F_") c = true)
       (long_header_columns a [] line)
  /\ long_header None [] ex_long_header_line
     = Py.join [TAB]
         (map txt ["F_CHROM"; "F_POS"; "F_ID"; "F_REF"; "F_ALT"; "F_QUAL";
                   "F_FILTER"; "F_DP"; "F_SAMPLE"; "F_GT"]%string).
Proof.
  unfold long_header_columns. cbv zeta.
  change (- Z.of_nat (length (@nil text)))%Z with 0%Z.
  rewrite slice_to_zero, slice_from_zero. cbn [app].
  split; [|split].
  - unfold long_header_names.
    destruct a as [a|]; intros H; apply map_eq_nil in H.
    + apply app_eq_nil in H. destruct H as [_ H].
      apply app_eq_nil in H. destruct H as [H _]. discriminate.
    + apply map_eq_nil in H. exact (split_not_nil _ _ H).
  - apply Forall_forall. intros c Hc. apply in_map_iff in Hc.
    destruct Hc as [x [<- _]]. reflexivity.
  - reflexivity.
Qed.

(** ** The leading raw lines in long format: C7 *)

(** C7, as stated, fails: with the header requested, raw line 0 lies below
    the sample count and is printed, as the header line. *)
Lemma leading_lines_discarded_fails :
  ~ (forall header n line fill,
       n < length (samples ex_schema) ->
       process_line ex_schema (long_options header false) None fill n line
       = Some ([], fill)).
Proof.
  intros H.
  specialize (H true 0 ex_long_header_line [] ltac:(simpl; lia)).
  vm_compute in H. discriminate.
Qed.

Lemma process_line_long_skip (sc : Schema) (header expand : bool)
    (a : option nat) (fill : list text) (n : nat) (line : text) :
  n < length (samples sc) ->
  header = false \/ n <> 0 ->
  process_line sc (long_options header expand) a fill n line
  = Some ([], fill).
Proof.
  intros Hn Hh. unfold process_line. simpl.
  assert (E : Nat.eqb n 0 && header = false).
  { destruct Hh as [->|Hn0]; [apply andb_false_r|].
    apply Nat.eqb_neq in Hn0. rewrite Hn0. reflexivity. }
  rewrite !andb_true_r, E.
  apply Nat.ltb_lt in Hn. rewrite Hn. reflexivity.
Qed.

Lemma transform_from_long_skip (sc : Schema) (header expand : bool)
    (a : option nat) (fill : list text) (pre rest : list text) (n : nat) :
  n + length pre <= length (samples sc) ->
  header = false \/ n <> 0 ->
  transform_from sc (long_options header expand) a fill n (pre ++ rest)
  = transform_from sc (long_options header expand) a fill (n + length pre)
      rest.
Proof.
  revert n. induction pre as [|line pre IH]; intros n Hn Hh; simpl.
  - rewrite Nat.add_0_r. reflexivity.
  - simpl in Hn. rewrite process_line_long_skip by (assumption || lia).
    rewrite IH by (simpl; lia).
    replace (S n + length pre) with (n + S (length pre)) by lia.
    destruct (transform_from _ _ _ _ _ _). reflexivity.
Qed.

(** C7, amended. In long format a raw line with index [n] below the sample
    count prints nothing and leaves [fill_fields] as it is, unless it is
    raw line 0 of a run with the header requested (that line is rendered as
    the header line).  In particular, without the header the first
    [sampleCount] raw lines do not contribute to the output: the run
    continues after them as if from a fresh state at line [sampleCount]. *)
Theorem leading_lines_discarded (sc : Schema) (header expand : bool)
    (a : option nat) (fill : list text) (n : nat) (line : text)
    (Hn : n < length (samples sc))
    (Hh : header = false \/ n <> 0) :
  process_line sc (long_options header expand) a fill n line
  = Some ([], fill)
  /\ (forall pre rest,
        length pre = length (samples sc) ->
        transform sc (long_options false expand) (pre ++ rest)
        = transform_from sc (long_options false expand)
            (ann_location expand (info_fields sc)) []
            (length (samples sc)) rest).
Proof.
  split.
  - apply process_line_long_skip; assumption.
  - intros pre rest Hlen. unfold transform. simpl.
    rewrite transform_from_long_skip by (simpl; auto; lia).
    rewrite Hlen. reflexivity.
Qed.

Lemma leading_lines_discarded_witness :
  process_line ex_schema (long_options false false) None [] 1 (txt "x")
  = Some ([], [])
  /\ 1 < length (samples ex_schema).
Proof.
  split.
  - exact (proj1 (leading_lines_discarded ex_schema false false None [] 1
                    (txt "x") ltac:(simpl; lia) (or_introl eq_refl))).
  - simpl. lia.
Defined.

(** ** Decoding: line 132 *)

Lemma decoding_end_cons (raw : bytes) (rest : list bytes) :
  decoding_end (raw :: rest)
  = if Py.utf8_valid raw then decoding_end rest else UnicodeDecodeError.
Proof.
  unfold decoding_end. cbn [forallb].
  destruct (Py.utf8_valid raw); reflexivity.
Qed.

(** The loop of the program and the loop over decoded lines.  The run over
    raw lines prints what the run over the lines before the first
    undecodable one prints; it ends as that run does when that is with an
    [IndexError], and otherwise by returning or with the
    [UnicodeDecodeError] of that first undecodable line. *)
Lemma transform_raw_from_decoded (sc : Schema) (opts : Options)
    (a : option nat) (raw_lines : list bytes) :
  forall fill n,
    transform_raw_from sc opts a fill n raw_lines
    = (fst (transform_from sc opts a fill n (decoded_prefix raw_lines)),
       match snd (transform_from sc opts a fill n
                    (decoded_prefix raw_lines)) with
       | Returned => decoding_end raw_lines
       | e => e
       end).
Proof.
  induction raw_lines as [|raw rest IH]; intros fill n; [reflexivity|].
  cbn [transform_raw_from decoded_prefix]. rewrite decoding_end_cons.
  unfold Py.decode. destruct (Py.utf8_valid raw); [|reflexivity].
  cbn [transform_from].
  destruct (process_line sc opts a fill n raw) as [[printed fill']|];
    [|reflexivity].
  rewrite IH.
  destruct (transform_from sc opts a fill' (S n) (decoded_prefix rest))
    as [out e].
  reflexivity.
Qed.

Lemma transform_raw_decoded (sc : Schema) (opts : Options)
    (raw_lines : list bytes) :
  transform_raw sc opts raw_lines
  = (fst (transform sc opts (decoded_prefix raw_lines)),
     match snd (transform sc opts (decoded_prefix raw_lines)) with
     | Returned => decoding_end raw_lines
     | e => e
     end).
Proof. apply transform_raw_from_decoded. Qed.

Lemma decoded_prefix_valid (raw_lines : list bytes) :
  forallb Py.utf8_valid raw_lines = true ->
  decoded_prefix raw_lines = raw_lines.
Proof.
  induction raw_lines as [|raw rest IH]; intros H; [reflexivity|].
  cbn [forallb] in H. apply andb_true_iff in H. destruct H as [Hr H].
  cbn [decoded_prefix]. unfold Py.decode. rewrite Hr, (IH H). reflexivity.
Qed.

(** When every line the engine writes is UTF-8, the loop of the program is
    the loop over decoded lines. *)
Lemma transform_raw_valid (sc : Schema) (opts : Options)
    (raw_lines : list bytes) :
  forallb Py.utf8_valid raw_lines = true ->
  transform_raw sc opts raw_lines = transform sc opts raw_lines.
Proof.
  intros H. rewrite transform_raw_decoded, decoded_prefix_valid by exact H.
  unfold decoding_end. rewrite H.
  destruct (transform sc opts raw_lines) as [out []]; reflexivity.
Qed.

Lemma nth_error_decoded_prefix (raw_lines : list bytes) :
  forall k line,
    nth_error (decoded_prefix raw_lines) k = Some line
    <-> nth_error raw_lines k = Some line
        /\ forallb Py.utf8_valid (firstn (S k) raw_lines) = true.
Proof.
  induction raw_lines as [|raw rest IH]; intros k line.
  - destruct k; cbn; split; try discriminate; intros [H _]; discriminate.
  - cbn [decoded_prefix]. unfold Py.decode.
    change (firstn (S k) (raw :: rest)) with (raw :: firstn k rest).
    cbn [forallb].
    destruct (Py.utf8_valid raw) eqn:E; cbn [andb].
    + destruct k as [|k]; cbn [nth_error].
      * cbn [firstn forallb]. split; [intros H; split; [exact H|reflexivity]
                                      |intros [H _]; exact H].
      * apply IH.
    + split; [destruct k; discriminate|intros [_ H]; discriminate].
Qed.

(** ** The command: C8 and C9 *)

(** C8. A source path that is neither an existing file nor ["-"] ends the
    run with exit code 1 after one diagnostic on standard error: the reader
    is not opened, the engine is not started and nothing is printed. *)
Theorem missing_file_exits_first
    (isfile : text -> bool) (VCF : text -> text * list text)
    (engine : list text -> list bytes)
    (vcf_path : text) (fmt : OutputFormat) (header ann : bool)
    (Hmissing : isfile vcf_path = false)
    (Hnot_stdin : vcf_path <> txt "-") :
  convert_vcf_to_tsv isfile VCF engine vcf_path fmt header ann
  = ([EchoErr (txt "Error: " ++ vcf_path ++ txt " does not exist")], Exit 1)
  /\ stdout_of (fst (convert_vcf_to_tsv isfile VCF engine vcf_path fmt
                       header ann)) = [].
Proof.
  assert (E : convert_vcf_to_tsv isfile VCF engine vcf_path fmt header ann
              = ([EchoErr (txt "Error: " ++ vcf_path ++ txt " does not exist")],
                 Exit 1)).
  { unfold convert_vcf_to_tsv. rewrite Hmissing.
    destruct (text_eqb vcf_path (txt "-")) eqn:E; [|reflexivity].
    apply text_eqb_eq in E. contradiction. }
  rewrite E. split; reflexivity.
Qed.

Lemma txt_b_vcf_not_stdin : txt "b.vcf" <> txt "-".
Proof. discriminate. Qed.

Lemma missing_file_exits_first_witness :
  convert_vcf_to_tsv ex_isfile ex_VCF ex_engine (txt "b.vcf") long true true
  = ([EchoErr (txt "Error: b.vcf does not exist")], Exit 1).
Proof.
  exact (proj1 (missing_file_exits_first ex_isfile ex_VCF ex_engine
                  (txt "b.vcf") long true true eq_refl txt_b_vcf_not_stdin)).
Defined.

(** The loop reads the options through [output_format] and [print_header]
    only; [expand_ann] acts through [ann_loc]. *)
Lemma process_line_options (sc : Schema) (o1 o2 : Options)
    (a : option nat) (fill : list text) (n : nat) (line : text) :
  output_format o1 = output_format o2 ->
  print_header o1 = print_header o2 ->
  process_line sc o1 a fill n line = process_line sc o2 a fill n line.
Proof.
  intros Hf Hh. unfold process_line. rewrite Hf, Hh. reflexivity.
Qed.

Lemma transform_from_options (sc : Schema) (o1 o2 : Options)
    (a : option nat) (lines : list text) :
  output_format o1 = output_format o2 ->
  print_header o1 = print_header o2 ->
  forall fill n,
    transform_from sc o1 a fill n lines = transform_from sc o2 a fill n lines.
Proof.
  intros Hf Hh. induction lines as [|line rest IH]; intros fill n; simpl.
  - reflexivity.
  - rewrite (process_line_options sc o1 o2) by assumption.
    destruct (process_line sc o2 a fill n line) as [[printed fill']|];
      [|reflexivity].
    rewrite IH. reflexivity.
Qed.

Lemma transform_raw_from_options (sc : Schema) (o1 o2 : Options)
    (a : option nat) (raw_lines : list bytes) :
  output_format o1 = output_format o2 ->
  print_header o1 = print_header o2 ->
  forall fill n,
    transform_raw_from sc o1 a fill n raw_lines
    = transform_raw_from sc o2 a fill n raw_lines.
Proof.
  intros Hf Hh. induction raw_lines as [|raw rest IH]; intros fill n; simpl.
  - reflexivity.
  - destruct (Py.decode raw) as [line|]; [|reflexivity].
    rewrite (process_line_options sc o1 o2) by assumption.
    destruct (process_line sc o2 a fill n line) as [[printed fill']|];
      [|reflexivity].
    rewrite IH. reflexivity.
Qed.

(** C9. When ["ANN"] does not occur in [infoFields], a conversion with ANN
    expansion requested does exactly what the conversion without it does:
    the same events in the same order (so the same output) and the same
    ending; [annLocation] is unset in both. *)
Theorem expansion_without_ann_is_inert
    (isfile : text -> bool) (VCF : text -> text * list text)
    (engine : list text -> list bytes)
    (vcf_path : text) (fmt : OutputFormat) (header : bool)
    (Habsent :
       Py.list_in (txt "ANN") (info_fields_of (fst (VCF vcf_path))) = false) :
  ann_location true (info_fields_of (fst (VCF vcf_path))) = None /\
  convert_vcf_to_tsv isfile VCF engine vcf_path fmt header true
  = convert_vcf_to_tsv isfile VCF engine vcf_path fmt header false.
Proof.
  split; [apply ann_location_absent; exact Habsent|].
  unfold convert_vcf_to_tsv.
  destruct (negb (isfile vcf_path) && negb (text_eqb vcf_path (txt "-")));
    [reflexivity|].
  destruct (VCF vcf_path) as [raw_header smpls]. simpl in Habsent.
  unfold transform_raw. simpl.
  rewrite (ann_location_absent true _ Habsent).
  rewrite (transform_raw_from_options _
             {| output_format := fmt; print_header := header;
                expand_ann := true |}
             {| output_format := fmt; print_header := header;
                expand_ann := false |}) by reflexivity.
  reflexivity.
Qed.

Lemma expansion_without_ann_is_inert_witness :
  convert_vcf_to_tsv ex_isfile ex_VCF ex_engine (txt "a.vcf") wide false true
  = convert_vcf_to_tsv ex_isfile ex_VCF ex_engine (txt "a.vcf") wide false
      false.
Proof.
  exact (proj2 (expansion_without_ann_is_inert ex_isfile ex_VCF ex_engine
                  (txt "a.vcf") wide false eq_refl)).
Defined.

(** * Further properties of the program *)

(** ** [ann_loc]: lines 125-127 *)

(** X1. [ann_loc] is set exactly when expansion is requested and ["ANN"] is
    an info field; it is then 7 plus the index of the first ["ANN"], so it
    lies between 7 and the number of columns the info fields end at. *)
Theorem ann_location_bounds (expand : bool) (info : list text) :
  (ann_location expand info = None
   <-> expand = false \/ Py.list_in (txt "ANN") info = false)
  /\ forall a,
       ann_location expand info = Some a ->
       7 <= a < 7 + length info
       /\ nth_error info (a - 7) = Some (txt "ANN")
       /\ forall j, j < a - 7 -> nth_error info j <> Some (txt "ANN").
Proof.
  unfold ann_location. split.
  - destruct expand; cbn [andb].
    + destruct (Py.list_in (txt "ANN") info) eqn:E.
      * destruct (list_in_index _ _ E) as [i ->]. cbn [option_map].
        split; [discriminate|]. intros [H|H]; discriminate.
      * split; auto.
    + split; auto.
  - intros a H.
    destruct (expand && Py.list_in (txt "ANN") info); [|discriminate].
    destruct (Py.list_index (txt "ANN") info) as [i|] eqn:E; [|discriminate].
    simpl in H. injection H as <-.
    destruct (list_index_spec _ _ _ E) as [Hi Hmin].
    replace (i + 7 - 7) with i by lia.
    assert (i < length info) by (apply nth_error_Some; congruence).
    repeat split; try lia; assumption.
Qed.

(** ** How a run ends *)

Lemma process_line_without_expansion (sc : Schema) (opts : Options)
    (fill : list text) (n : nat) (line : text) :
  exists printed fill',
    process_line sc opts None fill n line = Some (printed, fill').
Proof.
  unfold process_line.
  destruct (Nat.eqb n 0 && print_header opts
            && OutputFormat_eqb (output_format opts) wide); [eauto|].
  destruct (Nat.eqb n 0 && print_header opts
            && OutputFormat_eqb (output_format opts) long); [eauto|].
  destruct (Nat.ltb n (length (samples sc))
            && OutputFormat_eqb (output_format opts) long); [eauto|].
  destruct (Nat.leb (length (samples sc)) n
            && OutputFormat_eqb (output_format opts) long).
  - destruct (long_parts (length (info_fields sc)) fill line) as [parts f'].
    simpl. eauto.
  - simpl. eauto.
Qed.

Lemma transform_from_without_expansion (sc : Schema) (opts : Options)
    (lines : list text) :
  forall fill n, snd (transform_from sc opts None fill n lines) = Returned.
Proof.
  induction lines as [|line rest IH]; intros fill n; [reflexivity|].
  simpl.
  destruct (process_line_without_expansion sc opts fill n line)
    as [printed [fill' ->]].
  specialize (IH fill' (S n)).
  destruct (transform_from sc opts None fill' (S n) rest). exact IH.
Qed.

Lemma transform_from_no_exit (sc : Schema) (opts : Options) (a : option nat)
    (lines : list text) :
  forall fill n code,
    snd (transform_from sc opts a fill n lines) <> Exit code.
Proof.
  induction lines as [|line rest IH]; intros fill n code; [discriminate|].
  simpl.
  destruct (process_line sc opts a fill n line) as [[printed fill']|];
    [|discriminate].
  specialize (IH fill' (S n) code).
  destruct (transform_from sc opts a fill' (S n) rest). exact IH.
Qed.

(** X2. Without an ANN column to expand, no subscript of the loop can be out
    of range: in both formats and whatever the engine wrote, the run raises
    no [IndexError]. It returns when every line of the engine is UTF-8, and
    ends in the [UnicodeDecodeError] of line 132 otherwise. *)
Theorem no_expansion_no_index_error (sc : Schema) (opts : Options)
    (raw_lines : list bytes)
    (Hloc : ann_location (expand_ann opts) (info_fields sc) = None) :
  snd (transform_raw sc opts raw_lines) = decoding_end raw_lines
  /\ snd (transform_raw sc opts raw_lines) <> IndexError
  /\ (snd (transform_raw sc opts raw_lines) = Returned
      <-> forallb Py.utf8_valid raw_lines = true).
Proof.
  rewrite transform_raw_decoded. cbn [snd]. unfold transform.
  rewrite Hloc, transform_from_without_expansion. unfold decoding_end.
  destruct (forallb Py.utf8_valid raw_lines).
  - split; [reflexivity|]. split; [discriminate|].
    split; reflexivity.
  - split; [reflexivity|]. split; [discriminate|].
    split; discriminate.
Qed.

Lemma no_expansion_no_index_error_witness :
  snd (transform_raw ex_schema (long_options true false) ex_long_lines)
  = Returned
  /\ snd (transform_raw ex_schema (long_options true false)
            (ex_long_lines ++ [ex_undecodable]))
     = UnicodeDecodeError.
Proof.
  split.
  - exact (proj1 (no_expansion_no_index_error ex_schema
                    (long_options true false) ex_long_lines eq_refl)).
  - exact (proj1 (no_expansion_no_index_error ex_schema
                    (long_options true false)
                    (ex_long_lines ++ [ex_undecodable]) eq_refl)).
Defined.

Lemma transform_no_exit (sc : Schema) (opts : Options) (lines : list text)
    (code : Z) :
  snd (transform sc opts lines) <> Exit code.
Proof. unfold transform. apply transform_from_no_exit. Qed.

Lemma transform_raw_no_exit (sc : Schema) (opts : Options)
    (raw_lines : list bytes) (code : Z) :
  snd (transform_raw sc opts raw_lines) <> Exit code.
Proof.
  rewrite transform_raw_decoded. cbn [snd].
  pose proof (transform_no_exit sc opts (decoded_prefix raw_lines) code) as H.
  destruct (snd (transform sc opts (decoded_prefix raw_lines)));
    try discriminate; [|exact H].
  unfold decoding_end. destruct (forallb Py.utf8_valid raw_lines);
    discriminate.
Qed.

(** X3. The only exit code is 1, and the run exits with it exactly when the
    source path is neither a file nor ["-"]. *)
Theorem exit_only_for_missing_file
    (isfile : text -> bool) (VCF : text -> text * list text)
    (engine : list text -> list bytes)
    (vcf_path : text) (fmt : OutputFormat) (header ann : bool) (code : Z) :
  snd (convert_vcf_to_tsv isfile VCF engine vcf_path fmt header ann)
  = Exit code
  <-> code = 1%Z /\ isfile vcf_path = false /\ vcf_path <> txt "-".
Proof.
  unfold convert_vcf_to_tsv.
  destruct (negb (isfile vcf_path) && negb (text_eqb vcf_path (txt "-")))
    eqn:G.
  - apply andb_true_iff in G. destruct G as [Gf Gs].
    apply negb_true_iff in Gf, Gs. cbn [snd]. split.
    + intros H. injection H as <-. repeat split; [exact Gf|].
      intros Heq. apply text_eqb_eq in Heq. congruence.
    + intros [-> _]. reflexivity.
  - destruct (VCF vcf_path) as [raw smpls].
    match goal with
    | |- context [transform_raw ?sc ?o ?l] =>
        pose proof (transform_raw_no_exit sc o l code) as Hne;
        destruct (transform_raw sc o l) as [out e]
    end.
    cbn [snd] in Hne |- *. split; [intros H; exact (False_ind _ (Hne H))|].
    intros [_ [Hf Hs]]. rewrite Hf in G. cbn [negb andb] in G.
    apply negb_false_iff, text_eqb_eq in G. contradiction.
Qed.

(** ** The loop reads its input line by line *)

Lemma transform_from_app (sc : Schema) (opts : Options) (a : option nat)
    (l1 l2 : list text) :
  forall fill n,
  exists out2,
    fst (transform_from sc opts a fill n (l1 ++ l2))
    = fst (transform_from sc opts a fill n l1) ++ out2
    /\ (snd (transform_from sc opts a fill n l1) = IndexError ->
        out2 = []
        /\ snd (transform_from sc opts a fill n (l1 ++ l2)) = IndexError).
Proof.
  induction l1 as [|line l1 IH]; intros fill n.
  - exists (fst (transform_from sc opts a fill n l2)).
    split; [reflexivity|]. discriminate.
  - cbn [app transform_from].
    destruct (process_line sc opts a fill n line) as [[printed fill']|].
    + destruct (IH fill' (S n)) as [out2 [Hout Herr]].
      exists out2.
      destruct (transform_from sc opts a fill' (S n) (l1 ++ l2)) as [o e].
      destruct (transform_from sc opts a fill' (S n) l1) as [o1 e1].
      cbn [fst snd] in *. rewrite Hout, app_assoc. split; [reflexivity|].
      exact Herr.
    + exists []. split; [reflexivity|]. intros _. split; reflexivity.
Qed.

(** X4. The output is produced in the order of the input: what a run prints
    for the first lines of the engine's output is the beginning of what it
    prints for the whole output. After an [IndexError] nothing more is
    printed, and the lines that follow the offending one do not change how
    the run ends. *)
Theorem output_grows_with_input (sc : Schema) (opts : Options)
    (l1 l2 : list text) :
  exists out2,
    fst (transform sc opts (l1 ++ l2)) = fst (transform sc opts l1) ++ out2
    /\ (snd (transform sc opts l1) = IndexError ->
        out2 = [] /\ snd (transform sc opts (l1 ++ l2)) = IndexError).
Proof. unfold transform. apply transform_from_app. Qed.

(** ** Wide format: lines 134-140 and 176-183 *)

Lemma transform_from_wide_plain (sc : Schema) (header expand : bool)
    (lines : list text) :
  forall fill n,
    n <> 0 \/ header = false ->
    transform_from sc (wide_options header expand) None fill n lines
    = (map (Py.strip [NL]) lines, Returned).
Proof.
  induction lines as [|line rest IH]; intros fill n Hn; [reflexivity|].
  cbn [transform_from map].
  rewrite process_line_wide_data by exact Hn. cbn [wide_rows option_map].
  rewrite IH by (destruct Hn as [Hn| ->]; [left; lia|right; reflexivity]).
  reflexivity.
Qed.

Lemma columns_strip_nl (line : text) :
  columns (Py.strip [NL] line) = columns line.
Proof. rewrite !columns_tabs, tabs_strip by reflexivity. reflexivity. Qed.

Lemma columns_wide_header_plain (line : text) :
  columns (wide_header None line) = columns line.
Proof.
  unfold wide_header. rewrite !columns_tabs.
  change (txt "_") with ["_"%char].
  rewrite tabs_replace_char by reflexivity.
  rewrite tabs_clean_header. reflexivity.
Qed.

Lemma Forall2_columns_strip (lines : list text) :
  Forall2 (fun line row => columns row = columns line) lines
    (map (Py.strip [NL]) lines).
Proof.
  induction lines as [|l ls IH]; constructor;
    [apply columns_strip_nl|exact IH].
Qed.

Lemma transform_wide_plain (sc : Schema) (header expand : bool)
    (lines : list text)
    (Hloc : ann_location expand (info_fields sc) = None) :
  transform sc (wide_options header expand) lines
  = (match lines with
     | [] => []
     | l0 :: rest =>
         (if header then wide_header None l0 else Py.strip [NL] l0)
         :: map (Py.strip [NL]) rest
     end, Returned).
Proof.
  unfold transform. cbn [expand_ann wide_options]. rewrite Hloc.
  destruct lines as [|l0 rest]; [reflexivity|].
  destruct header.
  - cbn [transform_from]. unfold process_line at 1.
    cbn [Nat.eqb print_header output_format wide_options OutputFormat_eqb
         andb].
    rewrite transform_from_wide_plain by (left; discriminate).
    reflexivity.
  - rewrite transform_from_wide_plain by (right; reflexivity).
    reflexivity.
Qed.

(** X5. In wide format with no ANN column to expand, the run prints one text
    for each line the engine writes before the first one that is not UTF-8,
    for every line when there is none: the header line rendered from raw
    line 0 when the header is requested, and every other line with the
    newlines at its two ends removed. Each printed text has the number of
    tab-separated columns of the line it comes from. The run returns when
    every line is UTF-8 and ends in [UnicodeDecodeError] otherwise. *)
Theorem wide_plain_rows (sc : Schema) (header expand : bool)
    (raw_lines : list bytes)
    (Hloc : ann_location expand (info_fields sc) = None) :
  transform_raw sc (wide_options header expand) raw_lines
  = (match decoded_prefix raw_lines with
     | [] => []
     | l0 :: rest =>
         (if header then wide_header None l0 else Py.strip [NL] l0)
         :: map (Py.strip [NL]) rest
     end, decoding_end raw_lines)
  /\ Forall2 (fun line row => columns row = columns line)
       (decoded_prefix raw_lines)
       (fst (transform_raw sc (wide_options header expand) raw_lines)).
Proof.
  rewrite transform_raw_decoded, transform_wide_plain by exact Hloc.
  cbn [fst snd]. split; [reflexivity|].
  destruct (decoded_prefix raw_lines) as [|l0 rest]; constructor.
  - destruct header; [apply columns_wide_header_plain|apply columns_strip_nl].
  - apply Forall2_columns_strip.
Qed.

Lemma wide_plain_rows_witness :
  transform_raw ex_wide_schema (wide_options true false)
    [ex_wide_header_line; ex_line ex_ann2; ex_undecodable; ex_line ex_ann2]
  = ([wide_header None ex_wide_header_line;
      Py.strip [NL] (ex_line ex_ann2)], UnicodeDecodeError).
Proof.
  exact (proj1 (wide_plain_rows ex_wide_schema true false
                  [ex_wide_header_line; ex_line ex_ann2; ex_undecodable;
                   ex_line ex_ann2] eq_refl)).
Defined.

Lemma wide_rows_index_error (a : nat) (line : text) :
  wide_rows (Some a) line = None <-> columns line <= a.
Proof.
  unfold wide_rows, Py.index, columns. cbv zeta.
  destruct (nth_error (Py.split TAB line) a) as [ann|] eqn:E.
  - split; [discriminate|]. intros H.
    apply nth_error_None in H. congruence.
  - split; [|reflexivity]. intros _. apply nth_error_None. exact E.
Qed.

Lemma transform_from_wide_index_error (sc : Schema) (header expand : bool)
    (a : nat) (lines : list text) :
  forall fill n,
    snd (transform_from sc (wide_options header expand) (Some a) fill n lines)
    = IndexError
    <-> exists k line,
          nth_error lines k = Some line
          /\ (n + k <> 0 \/ header = false)
          /\ columns line <= a.
Proof.
  induction lines as [|line rest IH]; intros fill n.
  - cbn [transform_from snd]. split; [discriminate|].
    intros [k [l [H _]]]. destruct k; discriminate.
  - cbn [transform_from].
    destruct (Nat.eqb n 0 && header) eqn:Eh.
    + apply andb_true_iff in Eh. destruct Eh as [En ->].
      apply Nat.eqb_eq in En. subst n.
      unfold process_line at 1.
      cbn [Nat.eqb print_header output_format wide_options OutputFormat_eqb
           andb].
      specialize (IH fill 1).
      destruct (transform_from sc (wide_options true expand) (Some a) fill 1
                  rest) as [out e].
      cbn [snd] in *. rewrite IH. split.
      * intros [k [l [Hk [Hd Hs]]]]. exists (S k), l.
        split; [exact Hk|]. split; [left; lia|exact Hs].
      * intros [[|k] [l [Hk [Hd Hs]]]].
        -- destruct Hd as [Hd|Hd]; [lia|discriminate].
        -- exists k, l. split; [exact Hk|]. split; [left; lia|exact Hs].
    + assert (Hn : n <> 0 \/ header = false).
      { apply andb_false_iff in Eh. destruct Eh as [Eh|Eh]; [left|right].
        - apply Nat.eqb_neq. exact Eh.
        - exact Eh. }
      rewrite process_line_wide_data by exact Hn.
      destruct (wide_rows (Some a) line) as [rows|] eqn:Er; cbn [option_map].
      * specialize (IH fill (S n)).
        destruct (transform_from sc (wide_options header expand) (Some a)
                    fill (S n) rest) as [out e].
        cbn [snd] in *. rewrite IH. split.
        -- intros [k [l [Hk [Hd Hs]]]]. exists (S k), l.
           split; [exact Hk|]. split; [|exact Hs].
           destruct Hd as [Hd|Hd]; [left; lia|right; exact Hd].
        -- intros [[|k] [l [Hk [Hd Hs]]]].
           ++ cbn [nth_error] in Hk. injection Hk as <-.
              apply wide_rows_index_error in Hs. congruence.
           ++ exists k, l. split; [exact Hk|]. split; [|exact Hs].
              destruct Hd as [Hd|Hd]; [left; lia|right; exact Hd].
      * cbn [snd]. split; [|reflexivity]. intros _.
        exists 0, line. split; [reflexivity|].
        split; [rewrite Nat.add_0_r; exact Hn|].
        apply wide_rows_index_error. exact Er.
Qed.

(** X6. In wide format with expansion active, the run ends in [IndexError]
    exactly when some data line (any raw line but the header line) that
    the loop reaches, every line up to it being UTF-8, has no token at
    index [ann_loc], that is, at most [ann_loc] columns. The header line
    never raises [IndexError]. *)
Theorem wide_expansion_raises_on_short_row (sc : Schema)
    (header expand : bool) (a : nat) (raw_lines : list bytes)
    (Hloc : ann_location expand (info_fields sc) = Some a) :
  snd (transform_raw sc (wide_options header expand) raw_lines) = IndexError
  <-> exists k line,
        nth_error raw_lines k = Some line
        /\ forallb Py.utf8_valid (firstn (S k) raw_lines) = true
        /\ (k <> 0 \/ header = false)
        /\ columns line <= a.
Proof.
  rewrite transform_raw_decoded. cbn [snd].
  transitivity
    (snd (transform sc (wide_options header expand)
            (decoded_prefix raw_lines)) = IndexError).
  { destruct (snd (transform sc (wide_options header expand)
                     (decoded_prefix raw_lines))); try reflexivity.
    unfold decoding_end.
    destruct (forallb Py.utf8_valid raw_lines); split; discriminate. }
  unfold transform. cbn [expand_ann wide_options]. rewrite Hloc.
  rewrite transform_from_wide_index_error.
  split; intros [k [line [H1 H2]]]; exists k, line.
  - apply nth_error_decoded_prefix in H1. destruct H1 as [H1 H3].
    split; [exact H1|]. split; [exact H3|exact H2].
  - destruct H2 as [H3 H2].
    split; [apply nth_error_decoded_prefix; split; assumption|exact H2].
Qed.

Lemma wide_expansion_raises_on_short_row_witness :
  snd (transform_raw ex_wide_schema (wide_options true true)
         [ex_wide_header_line; ex_line ex_ann2; txt "chr1"])
  = IndexError.
Proof.
  apply (proj2 (wide_expansion_raises_on_short_row ex_wide_schema true true 8
                  [ex_wide_header_line; ex_line ex_ann2; txt "chr1"]
                  eq_refl)).
  exists 2, (txt "chr1"). split; [reflexivity|].
  split; [reflexivity|].
  split; [left; discriminate|]. vm_compute. lia.
Defined.

(** ** Long format: lines 142-173 *)

Lemma join_split (c : ascii) (s : text) : Py.join [c] (Py.split c s) = s.
Proof.
  induction s as [|x s IH]; [reflexivity|].
  cbn [Py.split]. destruct (Ascii.eqb x c) eqn:E.
  - apply Ascii.eqb_eq in E. subst x.
    pose proof (split_not_nil c s) as Hne.
    destruct (Py.split c s) as [|h t]; [contradiction|].
    change (Py.join [c] ([] :: h :: t))
      with ([] ++ [c] ++ Py.join [c] (h :: t)).
    rewrite IH. reflexivity.
  - pose proof (split_not_nil c s) as Hne.
    destruct (Py.split c s) as [|h t]; [contradiction|].
    destruct t as [|h' t].
    + cbn [Py.join] in *. rewrite IH. reflexivity.
    + change (Py.join [c] ((x :: h) :: h' :: t))
        with (x :: (h ++ [c] ++ Py.join [c] (h' :: t))).
      change (Py.join [c] (h :: h' :: t))
        with (h ++ [c] ++ Py.join [c] (h' :: t)) in IH.
      rewrite IH. reflexivity.
Qed.

Lemma startswith_first_token (c : ascii) (p s : text) :
  forallb (fun x => negb (Ascii.eqb x c)) p = true ->
  Py.startswith p (nth 0 (Py.split c s) []) = Py.startswith p s.
Proof.
  revert p. induction s as [|x s IH]; intros p Hp; [reflexivity|].
  cbn [Py.split]. destruct (Ascii.eqb x c) eqn:E.
  - apply Ascii.eqb_eq in E. subst x. cbn [nth].
    destruct p as [|y p]; [reflexivity|].
    cbn [forallb] in Hp. apply andb_true_iff in Hp. destruct Hp as [Hy _].
    apply negb_true_iff in Hy. cbn [Py.startswith]. rewrite Hy. reflexivity.
  - specialize (IH (tl p)).
    destruct (Py.split c s) as [|h t] eqn:Es.
    + exfalso. exact (split_not_nil c s Es).
    + cbn [nth] in *. destruct p as [|y p]; [reflexivity|].
      cbn [forallb] in Hp. apply andb_true_iff in Hp. destruct Hp as [_ Hp].
      cbn [Py.startswith tl] in *. rewrite IH by exact Hp. reflexivity.
Qed.

Lemma sentinel_first_token (s : text) :
  Py.startswith SENTINEL (nth 0 (Py.split TAB s) []) = Py.startswith SENTINEL s.
Proof. apply startswith_first_token. reflexivity. Qed.

Lemma firstn_startswith (old s : text) :
  Py.startswith old s = true -> firstn (length old) s = old.
Proof.
  intros H. rewrite (startswith_skipn old s H) at 1.
  rewrite firstn_app, Nat.sub_diag, firstn_all. apply app_nil_r.
Qed.

Lemma tabs_replace_from (old new : text) :
  old <> [] -> tabs old = 0 -> tabs new = 0 ->
  forall s k,
    tabs (firstn k s) = 0 ->
    tabs (Py.replace_from old new k s) = tabs s.
Proof.
  intros Hne Ho Hn. induction s as [|c s IH]; intros k Hk.
  - reflexivity.
  - cbn [Py.replace_from]. destruct k as [|k].
    + destruct (Py.startswith old (c :: s)) eqn:E.
      * pose proof (firstn_startswith old (c :: s) E) as Hf.
        destruct old as [|o old]; [contradiction|].
        cbn [length firstn] in Hf. injection Hf as <- Hf.
        rewrite tabs_cons in Ho.
        destruct (Ascii.eqb c TAB) eqn:Ec; [simpl in Ho; lia|].
        simpl in Ho.
        cbn [length Nat.sub]. rewrite Nat.sub_0_r.
        rewrite tabs_app, Hn, tabs_cons, Ec.
        rewrite IH; [reflexivity|]. rewrite Hf. exact Ho.
      * rewrite !tabs_cons. f_equal. apply IH. reflexivity.
    + cbn [firstn] in Hk. rewrite tabs_cons in Hk. rewrite tabs_cons.
      destruct (Ascii.eqb c TAB); [simpl in Hk; lia|].
      simpl in *. apply IH. exact Hk.
Qed.

Lemma tabs_remove_sentinel (s : text) :
  tabs (Py.replace SENTINEL [] s) = tabs s.
Proof.
  unfold Py.replace. apply tabs_replace_from; try reflexivity. discriminate.
Qed.

Lemma slice_zero_nonneg {A} (l : list A) (j : Z) :
  (0 <= j)%Z -> Py.slice 0 j l = firstn (Z.to_nat j) l.
Proof.
  intros Hj. unfold Py.slice.
  replace (Py.norm_bound l 0) with 0 by (unfold Py.norm_bound; simpl; lia).
  cbn [skipn]. apply (slice_to_nonneg l j Hj).
Qed.

(** X7. A fresh variant line (one that does not start with the sentinel) of
    long format, with no ANN column to expand: the row printed is the line
    without the newlines at its two ends and without any ["-->"], it has the
    columns of the line, and [fill_fields] becomes the first [7 +
    len(info_fields)] tokens of the line (all of them when the line has
    fewer). *)
Theorem long_variant_row (sc : Schema) (header expand : bool)
    (fill : list text) (n : nat) (line : text)
    (Hn : length (samples sc) <= n)
    (Hh : n <> 0 \/ header = false)
    (Hfresh : Py.startswith SENTINEL (Py.strip [NL] line) = false) :
  process_line sc (long_options header expand) None fill n line
  = Some ([Py.replace SENTINEL [] (Py.strip [NL] line)],
          firstn (7 + length (info_fields sc))
            (Py.split TAB (Py.strip [NL] line)))
  /\ columns (Py.replace SENTINEL [] (Py.strip [NL] line)) = columns line.
Proof.
  split.
  - rewrite process_line_long_data by assumption.
    unfold long_parts. rewrite sentinel_first_token, Hfresh.
    cbn [fst snd long_rows option_map]. rewrite join_split.
    rewrite slice_zero_nonneg by lia.
    replace (Z.to_nat (7 + Z.of_nat (length (info_fields sc))))
      with (7 + length (info_fields sc)) by lia.
    reflexivity.
  - rewrite !columns_tabs, tabs_remove_sentinel, tabs_strip by reflexivity.
    reflexivity.
Qed.

Lemma long_variant_row_witness :
  process_line ex_schema (long_options false false) None [] 2
    (txt "chr1" ++ [TAB] ++ txt "-->S1" ++ [NL])
  = Some ([txt "chr1" ++ [TAB] ++ txt "S1"], [txt "chr1"; txt "-->S1"]).
Proof.
  exact (proj1 (long_variant_row ex_schema false false [] 2
                  (txt "chr1" ++ [TAB] ++ txt "-->S1" ++ [NL])
                  ltac:(simpl; lia) (or_intror eq_refl) eq_refl)).
Defined.

Lemma slice_from_difference {A} (parts fill : list A) :
  Py.slice_from (Z.of_nat (length parts) - Z.of_nat (length fill)) parts
  = skipn (if length fill <=? length parts
           then length parts - length fill
           else 2 * length parts - length fill) parts.
Proof.
  unfold Py.slice_from, Py.norm_bound. cbv zeta. f_equal.
  destruct (length fill <=? length parts) eqn:E.
  - apply Nat.leb_le in E.
    destruct (Z.of_nat (length parts) - Z.of_nat (length fill) <? 0)%Z eqn:Ez;
      [apply Z.ltb_lt in Ez|apply Z.ltb_ge in Ez]; lia.
  - apply Nat.leb_gt in E.
    destruct (Z.of_nat (length parts) - Z.of_nat (length fill) <? 0)%Z eqn:Ez;
      [apply Z.ltb_lt in Ez|apply Z.ltb_ge in Ez]; lia.
Qed.

(** X8. A continuation line (one that starts with the sentinel): the row is
    the stored prefix followed by [parts[len(parts) - len(fill_fields):]].
    With [p] tokens on the line and [f] in the prefix, that slice leaves out
    the first [p - f] tokens when [f <= p], and the first [2p - f] when [p <
    f < 2p] (the bound is negative and counts from the end); it is the whole
    line exactly when [p = f] or [2p <= f]. [fill_fields] is left as it is. *)
Theorem continuation_row_tokens (n_info : nat) (fill : list text)
    (line : text)
    (Hcont : Py.startswith SENTINEL (Py.strip [NL] line) = true) :
  let parts := Py.split TAB (Py.strip [NL] line) in
  let p := length parts in
  let f := length fill in
  let dropped := if f <=? p then p - f else 2 * p - f in
  long_parts n_info fill line = (fill ++ skipn dropped parts, fill)
  /\ (dropped = 0 <-> p = f \/ 2 * p <= f)
  /\ (fst (long_parts n_info fill line) = fill ++ parts
      <-> p = f \/ 2 * p <= f).
Proof.
  intros parts p f dropped.
  assert (E : long_parts n_info fill line
              = (fill ++ skipn dropped parts, fill)).
  { unfold long_parts. rewrite sentinel_first_token, Hcont.
    rewrite slice_from_difference. reflexivity. }
  assert (Hd : dropped = 0 <-> p = f \/ 2 * p <= f).
  { subst dropped. destruct (f <=? p) eqn:Efp;
      [apply Nat.leb_le in Efp|apply Nat.leb_gt in Efp]; lia. }
  assert (Hp : 0 < p).
  { subst p parts. pose proof (split_not_nil TAB (Py.strip [NL] line)).
    destruct (Py.split TAB (Py.strip [NL] line)); [contradiction|].
    simpl. lia. }
  assert (Hdp : dropped < p \/ dropped = p).
  { subst dropped. destruct (f <=? p) eqn:Efp;
      [apply Nat.leb_le in Efp|apply Nat.leb_gt in Efp]; lia. }
  split; [exact E|]. split; [exact Hd|].
  rewrite E. cbn [fst]. rewrite <- Hd. split.
  - intros H. apply app_inv_head in H.
    assert (Hl : length (skipn dropped parts) = length parts) by congruence.
    rewrite length_skipn in Hl. fold p in Hl. lia.
  - intros ->. reflexivity.
Qed.

Lemma continuation_row_tokens_witness :
  long_parts 1 (map txt ["a"; "b"; "c"; "d"]%string)
    (txt "-->S2" ++ [TAB] ++ txt "0/1" ++ [NL])
  = (map txt ["a"; "b"; "c"; "d"; "-->S2"; "0/1"]%string,
     map txt ["a"; "b"; "c"; "d"]%string).
Proof.
  exact (proj1 (continuation_row_tokens 1 (map txt ["a"; "b"; "c"; "d"]%string)
                  (txt "-->S2" ++ [TAB] ++ txt "0/1" ++ [NL]) eq_refl)).
Defined.

Lemma slice_to_neg_any {A} (l : list A) (k : nat) :
  0 < k -> Py.slice_to (- Z.of_nat k) l = firstn (length l - k) l.
Proof.
  intros Hk. unfold Py.slice_to, Py.norm_bound.
  destruct (- Z.of_nat k <? 0)%Z eqn:E; [|apply Z.ltb_ge in E; lia].
  f_equal. lia.
Qed.

Lemma slice_from_neg_any {A} (l : list A) (k : nat) :
  0 < k -> Py.slice_from (- Z.of_nat k) l = skipn (length l - k) l.
Proof.
  intros Hk. unfold Py.slice_from, Py.norm_bound.
  destruct (- Z.of_nat k <? 0)%Z eqn:E; [|apply Z.ltb_ge in E; lia].
  f_equal. lia.
Qed.

Lemma long_header_columns_length (a : option nat) (ffs : list text)
    (line : text) :
  length (long_header_columns a ffs line)
  = length (long_header_names a line).
Proof.
  unfold long_header_columns, Py.slice_to, Py.slice_from. cbv zeta.
  rewrite length_app, length_map, <- length_app, firstn_skipn. reflexivity.
Qed.

(** X9. With at least one format field, the long header carries the [F_]
    prefix on its last [len(format_fields)] column names, on all of them
    when there are fewer columns than format fields, and leaves the names
    before them as they are; no column is added or lost. *)
Theorem long_header_prefix_split (a : option nat) (ffs : list text)
    (line : text) (Hk : ffs <> []) :
  let names := long_header_names a line in
  let n := length names - length ffs in
  long_header_columns a ffs line
  = firstn n names ++ map (fun x => txt "F_" ++ x) (skipn n names)
  /\ length (long_header_columns a ffs line) = length names.
Proof.
  intros names n. split; [|apply long_header_columns_length].
  assert (H : 0 < length ffs) by (destruct ffs; [contradiction|simpl; lia]).
  unfold long_header_columns. cbv zeta. fold names.
  rewrite slice_to_neg_any, slice_from_neg_any by exact H. reflexivity.
Qed.

Lemma long_header_prefix_split_witness :
  long_header_columns None [txt "GT"] ex_long_header_line
  = firstn
      (length (long_header_names None ex_long_header_line) - 1)
      (long_header_names None ex_long_header_line)
    ++ map (fun x => txt "F_" ++ x)
         (skipn (length (long_header_names None ex_long_header_line) - 1)
            (long_header_names None ex_long_header_line)).
Proof.
  exact (proj1 (long_header_prefix_split None [txt "GT"] ex_long_header_line
                  ltac:(discriminate))).
Defined.

Lemma nth_tab_free (l : list text) (k : nat) :
  Forall (fun t => tabs t = 0) l -> tabs (nth k l []) = 0.
Proof.
  intros H. revert k. induction H as [|x l Hx Hl IH]; intros [|k]; simpl;
    auto.
Qed.

Lemma unqualify_tab_free (var : text) :
  tabs var = 0 -> tabs (unqualify var) = 0.
Proof.
  intros H. unfold unqualify. destruct (Py.contains [COLON] var); [|exact H].
  apply nth_tab_free. apply split_tab_free; [reflexivity|exact H].
Qed.

Lemma Forall_map_tab_free (f : text -> text) (l : list text) :
  (forall t, tabs t = 0 -> tabs (f t) = 0) ->
  Forall (fun t => tabs t = 0) l -> Forall (fun t => tabs t = 0) (map f l).
Proof.
  intros Hf H. induction H; simpl; constructor; auto.
Qed.

Lemma long_header_names_tab_free (a : option nat) (line : text) :
  Forall (fun t => tabs t = 0) (long_header_names a line).
Proof.
  assert (H : Forall (fun t => tabs t = 0)
                (map unqualify (Py.split TAB (clean_header line)))).
  { apply Forall_map_tab_free; [apply unqualify_tab_free|].
    apply split_tab_tokens. }
  unfold long_header_names. cbv zeta. destruct a as [a|]; [|exact H].
  apply Forall_app. split; [|apply Forall_app; split].
  - apply Forall_firstn. exact H.
  - exact ann_header_tab_free.
  - apply Forall_skipn. exact H.
Qed.

Lemma long_header_columns_tab_free (a : option nat) (ffs : list text)
    (line : text) :
  Forall (fun t => tabs t = 0) (long_header_columns a ffs line).
Proof.
  pose proof (long_header_names_tab_free a line) as H.
  unfold long_header_columns. cbv zeta. apply Forall_app. split.
  - apply Forall_firstn. exact H.
  - apply Forall_map_tab_free.
    + intros t Ht. rewrite tabs_app, Ht. reflexivity.
    + apply Forall_skipn. exact H.
Qed.

Lemma columns_long_header (a : option nat) (ffs : list text) (line : text) :
  columns (long_header a ffs line)
  = Nat.max 1 (length (long_header_names a line)).
Proof.
  unfold long_header. rewrite columns_tabs, tabs_remove_sentinel.
  rewrite tabs_join by apply long_header_columns_tab_free.
  rewrite long_header_columns_length. reflexivity.
Qed.

(** X10. The long header line has the columns of the raw header line when no
    ANN column is expanded, whatever the format fields are. With expansion
    it has 13 more: two names of the raw line (at indices [ann_loc - 1] and
    [ann_loc]) make room for the 15 names of the ANN sub-fields. *)
Theorem long_header_column_count (ffs : list text) (line : text) :
  columns (long_header None ffs line) = columns line
  /\ forall i,
       i + 8 <= columns line ->
       columns (long_header (Some (i + 7)) ffs line) = columns line + 13.
Proof.
  assert (Hlen : length (map unqualify (Py.split TAB (clean_header line)))
                 = columns line).
  { rewrite length_map. change (length (Py.split TAB (clean_header line)))
      with (columns (clean_header line)).
    rewrite !columns_tabs, tabs_clean_header. reflexivity. }
  split.
  - rewrite columns_long_header. unfold long_header_names. cbv zeta.
    rewrite Hlen, columns_tabs. lia.
  - intros i Hi. rewrite columns_long_header.
    unfold long_header_names. cbv zeta.
    rewrite slice_to_nonneg, slice_from_nonneg by lia.
    rewrite !length_app, length_firstn, length_skipn, Hlen.
    change (length ANN_HEADER) with 15. lia.
Qed.

(** ** The command line of the engine: lines 100-122 *)

Lemma query_string_not_empty (fmt : OutputFormat) (info ffs : list text) :
  exists c s, query_string fmt info ffs = c :: s.
Proof. destruct fmt; eexists; eexists; reflexivity. Qed.

Lemma command_of_path (fmt : OutputFormat) (header : bool)
    (info ffs : list text) (path : text) :
  path <> [] ->
  command fmt header info ffs path
  = [txt "bcftools"; txt "query"]
    ++ (if header then [txt "--print-header"] else [])
    ++ [txt "-f"; query_string fmt info ffs; path].
Proof.
  intros Hp. unfold command. cbv zeta.
  destruct (query_string_not_empty fmt info ffs) as [c [s ->]].
  destruct path as [|x path]; [contradiction|].
  destruct header; reflexivity.
Qed.

Lemma convert_past_check
    (isfile : text -> bool) (VCF : text -> text * list text)
    (engine : list text -> list bytes)
    (vcf_path : text) (fmt : OutputFormat) (header ann : bool) :
  negb (isfile vcf_path) && negb (text_eqb vcf_path (txt "-")) = false ->
  convert_vcf_to_tsv isfile VCF engine vcf_path fmt header ann
  = let sc := {| info_fields := info_fields_of (fst (VCF vcf_path));
                 format_fields := format_fields_of (fst (VCF vcf_path));
                 samples := snd (VCF vcf_path) |} in
    let opts := {| output_format := fmt; print_header := header;
                   expand_ann := ann |} in
    let cmd :=
      command fmt header (info_fields sc) (format_fields sc) vcf_path in
    (OpenVCF vcf_path :: Popen cmd
       :: map Print (fst (transform_raw sc opts (engine cmd))),
     snd (transform_raw sc opts (engine cmd))).
Proof.
  intros G. unfold convert_vcf_to_tsv. rewrite G.
  destruct (VCF vcf_path) as [raw smpls]. cbn [fst snd]. cbv zeta.
  match goal with
  | |- context [transform_raw ?sc ?o ?l] => destruct (transform_raw sc o l)
  end.
  reflexivity.
Qed.

(** X11. The engine is started once, after the reader has been opened, with
    the arguments [bcftools query], [--print-header] when the header is
    requested and only then, [-f], the query string and the source path; no
    argument is empty. (The empty path is not a file, so the check of line
    87 lets no empty path through.) *)
Theorem engine_command
    (isfile : text -> bool) (VCF : text -> text * list text)
    (engine : list text -> list bytes)
    (vcf_path : text) (fmt : OutputFormat) (header ann : bool)
    (cmd : list text)
    (Hempty : isfile [] = false)
    (Hcmd : In (Popen cmd)
              (fst (convert_vcf_to_tsv isfile VCF engine vcf_path fmt header
                      ann))) :
  cmd = [txt "bcftools"; txt "query"]
        ++ (if header then [txt "--print-header"] else [])
        ++ [txt "-f";
            query_string fmt (info_fields_of (fst (VCF vcf_path)))
              (format_fields_of (fst (VCF vcf_path)));
            vcf_path]
  /\ Forall (fun arg => arg <> []) cmd
  /\ exists out,
       fst (convert_vcf_to_tsv isfile VCF engine vcf_path fmt header ann)
       = OpenVCF vcf_path :: Popen cmd :: map Print out.
Proof.
  destruct (negb (isfile vcf_path) && negb (text_eqb vcf_path (txt "-")))
    eqn:G.
  - unfold convert_vcf_to_tsv in Hcmd. rewrite G in Hcmd.
    destruct Hcmd as [H|[]]. discriminate.
  - assert (Hp : vcf_path <> []).
    { intros ->. rewrite Hempty in G. discriminate. }
    rewrite convert_past_check in Hcmd |- * by exact G.
    cbv zeta in Hcmd |- *. cbn [fst info_fields format_fields] in Hcmd |- *.
    rewrite command_of_path in Hcmd |- * by exact Hp.
    destruct Hcmd as [H|[H|H]]; [discriminate| |].
    + injection H as <-. split; [reflexivity|]. split.
      * destruct (query_string_not_empty fmt
                    (info_fields_of (fst (VCF vcf_path)))
                    (format_fields_of (fst (VCF vcf_path)))) as [c [s ->]].
        destruct header; repeat constructor; try discriminate; exact Hp.
      * eexists. reflexivity.
    + apply in_map_iff in H. destruct H as [x [H _]]. discriminate.
Qed.

Lemma engine_command_witness :
  command wide true (info_fields_of (fst (ex_VCF (txt "a.vcf"))))
    (format_fields_of (fst (ex_VCF (txt "a.vcf")))) (txt "a.vcf")
  = [txt "bcftools"; txt "query"; txt "--print-header"; txt "-f";
     query_string wide (info_fields_of (fst (ex_VCF (txt "a.vcf"))))
       (format_fields_of (fst (ex_VCF (txt "a.vcf"))));
     txt "a.vcf"].
Proof.
  assert (Hin : In (Popen (command wide true
                             (info_fields_of (fst (ex_VCF (txt "a.vcf"))))
                             (format_fields_of (fst (ex_VCF (txt "a.vcf"))))
                             (txt "a.vcf")))
                  (fst (convert_vcf_to_tsv ex_isfile ex_VCF ex_engine
                          (txt "a.vcf") wide true false))).
  { right. left. reflexivity. }
  exact (proj1 (engine_command ex_isfile ex_VCF ex_engine (txt "a.vcf") wide
                  true false _ eq_refl Hin)).
Defined.

(** ** The entry point: lines 186-206 *)

(** X12. Run with a source path and no option, the program takes the wide
    format without header and without expansion: it starts the engine
    without [--print-header] and prints the lines the engine writes, each
    with the newlines at its two ends removed, up to the first line that
    is not UTF-8. It returns when every line is UTF-8 and ends in
    [UnicodeDecodeError] otherwise. *)
Theorem main_defaults
    (isfile : text -> bool) (VCF : text -> text * list text)
    (engine : list text -> list bytes) (vcf : text)
    (Hsource : isfile vcf = true \/ vcf = txt "-")
    (Hpath : vcf <> []) :
  let cmd := [txt "bcftools"; txt "query"; txt "-f";
              query_string wide (info_fields_of (fst (VCF vcf)))
                (format_fields_of (fst (VCF vcf)));
              vcf] in
  main isfile VCF engine vcf None None None
  = (OpenVCF vcf :: Popen cmd
       :: map Print (map (Py.strip [NL]) (decoded_prefix (engine cmd))),
     decoding_end (engine cmd)).
Proof.
  intros cmd. unfold main.
  assert (G : negb (isfile vcf) && negb (text_eqb vcf (txt "-")) = false).
  { destruct Hsource as [->| ->]; [reflexivity|]. apply andb_false_iff.
    right. apply negb_false_iff. apply text_eqb_eq. reflexivity. }
  rewrite convert_past_check by exact G.
  cbv zeta. cbn [info_fields format_fields].
  rewrite command_of_path by exact Hpath. cbn [app]. fold cmd.
  rewrite transform_raw_decoded.
  unfold transform. cbn [expand_ann info_fields ann_location andb].
  rewrite (transform_from_wide_plain _ false false) by (right; reflexivity).
  reflexivity.
Qed.

Lemma main_defaults_witness :
  main ex_isfile ex_VCF ex_engine (txt "a.vcf") None None None
  = (OpenVCF (txt "a.vcf")
     :: Popen [txt "bcftools"; txt "query"; txt "-f";
               query_string wide
                 (info_fields_of (fst (ex_VCF (txt "a.vcf"))))
                 (format_fields_of (fst (ex_VCF (txt "a.vcf"))));
               txt "a.vcf"]
     :: map Print
          (map (Py.strip [NL])
             (ex_engine
                [txt "bcftools"; txt "query"; txt "-f";
                 query_string wide
                   (info_fields_of (fst (ex_VCF (txt "a.vcf"))))
                   (format_fields_of (fst (ex_VCF (txt "a.vcf"))));
                 txt "a.vcf"])),
     Returned).
Proof.
  exact (main_defaults ex_isfile ex_VCF ex_engine (txt "a.vcf")
           (or_introl eq_refl) ltac:(discriminate)).
Defined.

(** ** The header schema of a header without declarations: lines 97-98 *)

Lemma match_at_needs_prefix (a b : text) (r : re) (s : text) prev :
  Py.startswith (a ++ b) s = false ->
  match_at (Seq Bol (Seq (lit a) (Seq (lit b) r))) prev s = None.
Proof.
  intros Hs.
  unfold match_at. cbn [run fst snd]. destruct (at_bol prev); [|reflexivity].
  cbn [flat_map fst snd]. rewrite app_nil_r.
  destruct (Py.startswith a s) eqn:Ea.
  - rewrite run_lit_startswith by exact Ea.
    cbn [flat_map fst snd]. rewrite app_nil_r.
    rewrite startswith_app_split in Hs by exact Ea.
    rewrite run_lit_mismatch by exact Hs. reflexivity.
  - rewrite run_lit_mismatch by exact Ea. reflexivity.
Qed.

Lemma finditer_needs_prefix (a b : text) (r : re) (s : text) :
  Py.contains (a ++ b) s = false ->
  forall prev,
    finditer_from (Seq Bol (Seq (lit a) (Seq (lit b) r))) prev 0 s = [].
Proof.
  induction s as [|c s IH]; intros H prev.
  - cbn [finditer_from]. rewrite match_at_needs_prefix; [reflexivity|].
    apply contains_startswith. exact H.
  - cbn [finditer_from]. rewrite match_at_needs_prefix.
    + apply IH. cbn [Py.contains] in H. apply orb_false_iff in H. apply H.
    + apply contains_startswith. exact H.
Qed.

(** X13. A header in which [##INFO=<ID=] does not occur has no info field,
    and one in which [##FORMAT=<ID=] does not occur has no format field;
    with no info field there is no ANN column, whatever is requested. *)
Theorem no_declaration_no_field (raw_header : text) :
  (Py.contains (txt "##INFO=<ID=") raw_header = false ->
   info_fields_of raw_header = []
   /\ forall expand, ann_location expand (info_fields_of raw_header) = None)
  /\ (Py.contains (txt "##FORMAT=<ID=") raw_header = false ->
      format_fields_of raw_header = []).
Proof.
  split.
  - intros H.
    assert (E : info_fields_of raw_header = []).
    { unfold info_fields_of, finditer, RE_INFO.
      rewrite (finditer_needs_prefix (txt "##INFO=<") (txt "ID="))
        by exact H.
      reflexivity. }
    split; [exact E|]. intros expand. rewrite E.
    unfold ann_location. cbn [Py.list_in existsb].
    rewrite andb_false_r. reflexivity.
  - intros H. unfold format_fields_of, finditer, RE_FORMAT.
    rewrite (finditer_needs_prefix (txt "##FORMAT=<") (txt "ID="))
      by exact H.
    reflexivity.
Qed.

(** ** The positional markers: lines 140 and 144 *)

Lemma match_marker_prev (p p' : option ascii) (s : text) :
  match_at RE_MARKER p s = match_at RE_MARKER p' s.
Proof.
  unfold match_at, RE_MARKER. cbn [run fst snd]. destruct s; reflexivity.
Qed.

Lemma sub_marker_prev (repl : text) (p p' : option ascii) (k : nat)
    (s : text) :
  sub_from RE_MARKER repl p k s = sub_from RE_MARKER repl p' k s.
Proof.
  destruct s as [|c s]; cbn [sub_from]; destruct k as [|k];
    try reflexivity; rewrite (match_marker_prev p p'); reflexivity.
Qed.

Lemma match_marker_none (p : option ascii) (s : text) :
  Py.startswith ["["%char] s = false -> match_at RE_MARKER p s = None.
Proof.
  intros H. unfold match_at, RE_MARKER. cbn [run fst snd].
  destruct s as [|x s]; [reflexivity|].
  cbn [Py.startswith] in H. rewrite andb_true_r, Ascii.eqb_sym in H.
  rewrite H. reflexivity.
Qed.

Lemma sub_marker_nil (p : option ascii) :
  sub_from RE_MARKER [] p 0 [] = [].
Proof. reflexivity. Qed.

(** a text without [[] goes through unchanged *)
Lemma sub_marker_plain (u v : text) :
  forallb (fun x => negb (Ascii.eqb x "[")) u = true ->
  forall p,
    sub_from RE_MARKER [] p 0 (u ++ v) = u ++ sub_from RE_MARKER [] None 0 v.
Proof.
  induction u as [|x u IH]; intros Hu p.
  - apply sub_marker_prev.
  - cbn [forallb] in Hu. apply andb_true_iff in Hu. destruct Hu as [Hx Hu].
    apply negb_true_iff in Hx.
    cbn [app sub_from]. rewrite match_marker_none.
    + f_equal. apply IH. exact Hu.
    + cbn [Py.startswith]. rewrite Ascii.eqb_sym, Hx. reflexivity.
Qed.

Lemma sub_marker_skip (u v : text) :
  forall p,
    sub_from RE_MARKER [] p (length u) (u ++ v)
    = sub_from RE_MARKER [] None 0 v.
Proof.
  induction u as [|x u IH]; intros p.
  - apply sub_marker_prev.
  - cbn [length app sub_from]. apply IH.
Qed.

Lemma match_marker (ds rest : text) (p : option ascii) :
  ds <> [] -> forallb is_digit ds = true ->
  match_at RE_MARKER p ("["%char :: ds ++ "]"%char :: rest)
  = Some ((Some "]"%char, rest), []).
Proof.
  intros Hne Hds. destruct ds as [|d ds]; [contradiction|].
  cbn [forallb] in Hds. apply andb_true_iff in Hds. destruct Hds as [Hd Hds].
  change (match_at RE_MARKER p ("["%char :: (d :: ds) ++ "]"%char :: rest))
    with (first RE_MARKER (p, "["%char :: (d :: ds) ++ "]"%char :: rest) []).
  unfold RE_MARKER.
  eapply first_seq; [apply first_chr|]. cbn [fst snd].
  eapply first_seq.
  - cbn [app]. apply (first_plus_greedy is_digit d ds ("]"%char :: rest));
      [exact Hd|exact Hds|reflexivity].
  - cbn [fst snd]. apply first_chr.
Qed.

(** a marker is removed *)
Lemma sub_marker_marker (ds rest : text) (p : option ascii) :
  ds <> [] -> forallb is_digit ds = true ->
  sub_from RE_MARKER [] p 0 ("["%char :: ds ++ "]"%char :: rest)
  = sub_from RE_MARKER [] None 0 rest.
Proof.
  intros Hne Hds. cbn [sub_from].
  rewrite match_marker by auto. cbn [fst snd].
  replace (length ("["%char :: ds ++ "]"%char :: rest) - length rest)
    with (S (length (ds ++ ["]"%char])))
    by (cbn [length]; rewrite !length_app; cbn [length]; lia).
  cbn [app].
  change (ds ++ "]"%char :: rest) with (ds ++ ["]"%char] ++ rest).
  rewrite app_assoc. apply sub_marker_skip.
Qed.

Lemma marker_ok_inv (c : text * text) :
  marker_ok c = true ->
  fst c <> [] /\ forallb is_digit (fst c) = true
  /\ forallb (fun x => negb (Ascii.eqb x "[")) (snd c) = true.
Proof.
  unfold marker_ok. intros H.
  apply andb_true_iff in H. destruct H as [H H3].
  apply andb_true_iff in H. destruct H as [H1 H2].
  repeat split; try assumption.
  intros E. rewrite E in H1. discriminate.
Qed.

Lemma sub_marked (cols : list (text * text)) (v : text) :
  forallb marker_ok cols = true ->
  forall p,
    sub_from RE_MARKER [] p 0 (marked cols ++ v)
    = Py.join [TAB] (map snd cols) ++ sub_from RE_MARKER [] None 0 v.
Proof.
  unfold marked. induction cols as [|c cols IH]; intros H p.
  - apply sub_marker_prev.
  - cbn [forallb] in H. apply andb_true_iff in H. destruct H as [Hc H].
    destruct (marker_ok_inv c Hc) as [Hne [Hds Hname]].
    destruct cols as [|c' cols].
    + cbn [map Py.join]. cbn [app]. rewrite <- app_assoc. cbn [app].
      rewrite sub_marker_marker by assumption.
      apply sub_marker_plain. exact Hname.
    + change (Py.join [TAB]
                (map (fun c0 => "["%char :: fst c0 ++ "]"%char :: snd c0)
                   (c :: c' :: cols)))
        with (("["%char :: fst c ++ "]"%char :: snd c) ++ [TAB]
              ++ Py.join [TAB]
                   (map (fun c0 => "["%char :: fst c0 ++ "]"%char :: snd c0)
                      (c' :: cols))).
      change (Py.join [TAB] (map snd (c :: c' :: cols)))
        with (snd c ++ [TAB] ++ Py.join [TAB] (map snd (c' :: cols))).
      cbn [app]. rewrite <- !app_assoc. cbn [app].
      rewrite sub_marker_marker by assumption.
      rewrite sub_marker_plain by exact Hname. f_equal.
      cbn [sub_from]. rewrite match_marker_none by reflexivity.
      f_equal. rewrite (sub_marker_prev [] (Some TAB) None).
      apply IH. exact H.
Qed.

Lemma lstrip_app_member (chars : text) (c : ascii) (y : text) :
  Py.in_chars chars c = true ->
  Py.rstrip chars (Py.lstrip chars (y ++ [c]))
  = Py.rstrip chars (Py.lstrip chars y).
Proof.
  intros Hc. induction y as [|x y IH].
  - cbn [app Py.lstrip]. rewrite Hc. reflexivity.
  - cbn [app Py.lstrip]. destruct (Py.in_chars chars x); [exact IH|].
    unfold Py.rstrip. f_equal.
    change (x :: y ++ [c]) with ((x :: y) ++ [c]).
    rewrite rev_app_distr. cbn [rev app Py.lstrip]. rewrite Hc.
    reflexivity.
Qed.

Lemma sub_marked_line (cols : list (text * text)) :
  forallb marker_ok cols = true ->
  Re.sub RE_MARKER [] (marked cols) = Py.join [TAB] (map snd cols).
Proof.
  intros Hcols. unfold Re.sub. rewrite <- (app_nil_r (marked cols)).
  rewrite sub_marked by exact Hcols. cbn [sub_from].
  rewrite app_nil_r. reflexivity.
Qed.

Lemma clean_header_marked (cols : list (text * text)) :
  forallb marker_ok cols = true ->
  clean_header ("#"%char :: marked cols ++ [NL])
  = Py.strip ["#"%char; NL; " "%char] (Py.join [TAB] (map snd cols)).
Proof.
  intros Hcols. unfold clean_header, Re.sub.
  rewrite (sub_marker_plain ["#"%char] (marked cols ++ [NL]) eq_refl).
  rewrite sub_marked by exact Hcols.
  replace (sub_from RE_MARKER [] None 0 [NL]) with [NL] by reflexivity.
  unfold Py.strip. cbn [app].
  change (Py.lstrip ["#"%char; NL; " "%char]
            ("#"%char :: Py.join [TAB] (map snd cols) ++ [NL]))
    with (Py.lstrip ["#"%char; NL; " "%char]
            (Py.join [TAB] (map snd cols) ++ [NL])).
  apply lstrip_app_member. reflexivity.
Qed.

(** X14. The engine's header line, read back: for columns whose markers are
    digits between brackets and whose names hold no [[], removing the
    markers leaves the names, tab-separated; the [#] in front of the line
    and the newline at its end are then stripped. *)
Theorem header_markers_removed (cols : list (text * text))
    (Hcols : forallb marker_ok cols = true) :
  Re.sub RE_MARKER [] (marked cols) = Py.join [TAB] (map snd cols)
  /\ clean_header ("#"%char :: marked cols ++ [NL])
     = Py.strip ["#"%char; NL; " "%char] (Py.join [TAB] (map snd cols)).
Proof.
  split; [apply sub_marked_line|apply clean_header_marked]; exact Hcols.
Qed.

Lemma header_markers_removed_witness :
  clean_header
    ("#"%char
     :: marked [(txt "1", txt "CHROM"); (txt "2", txt "POS");
                (txt "3", txt "S1:GT")] ++ [NL])
  = txt "CHROM" ++ [TAB] ++ txt "POS" ++ [TAB] ++ txt "S1:GT".
Proof.
  exact (proj2 (header_markers_removed
                  [(txt "1", txt "CHROM"); (txt "2", txt "POS");
                   (txt "3", txt "S1:GT")] eq_refl)).
Defined.

(** ** What the printed texts of wide format look like: lines 140, 181, 183 *)

Lemma replace_char_map (c d : ascii) (s : text) :
  Py.replace [c] [d] s = map (fun x => if Ascii.eqb c x then d else x) s.
Proof.
  unfold Py.replace. induction s as [|x s IH]; [reflexivity|].
  cbn [Py.replace_from Py.startswith length Nat.sub map].
  rewrite andb_true_r. destruct (Ascii.eqb c x).
  - cbn [app]. f_equal. exact IH.
  - f_equal. exact IH.
Qed.

Lemma lstrip_map (chars : text) (g : ascii -> ascii) (s : text) :
  (forall x, Py.in_chars chars (g x) = Py.in_chars chars x) ->
  Py.lstrip chars (map g s) = map g (Py.lstrip chars s).
Proof.
  intros Hg. induction s as [|x s IH]; [reflexivity|].
  cbn [map Py.lstrip]. rewrite Hg.
  destruct (Py.in_chars chars x); [exact IH|reflexivity].
Qed.

Lemma strip_map (chars : text) (g : ascii -> ascii) (s : text) :
  (forall x, Py.in_chars chars (g x) = Py.in_chars chars x) ->
  Py.strip chars (map g s) = map g (Py.strip chars s).
Proof.
  intros Hg. unfold Py.strip, Py.rstrip.
  rewrite lstrip_map, <- map_rev, lstrip_map, map_rev by exact Hg.
  reflexivity.
Qed.

Lemma lstrip_idem (chars s : text) :
  Py.lstrip chars (Py.lstrip chars s) = Py.lstrip chars s.
Proof.
  induction s as [|x s IH]; [reflexivity|].
  cbn [Py.lstrip]. destruct (Py.in_chars chars x) eqn:E; [exact IH|].
  cbn [Py.lstrip]. rewrite E. reflexivity.
Qed.

Lemma lstrip_app_keep (chars : text) (c : ascii) (u : text) :
  Py.in_chars chars c = false ->
  Py.lstrip chars (u ++ [c]) = Py.lstrip chars u ++ [c].
Proof.
  intros Hc. induction u as [|x u IH].
  - cbn [app Py.lstrip]. rewrite Hc. reflexivity.
  - cbn [app Py.lstrip]. destruct (Py.in_chars chars x); [exact IH|].
    reflexivity.
Qed.

Lemma lstrip_head (chars s : text) :
  match Py.lstrip chars s with
  | [] => True
  | c :: _ => Py.in_chars chars c = false
  end.
Proof.
  induction s as [|x s IH]; [exact I|].
  cbn [Py.lstrip]. destruct (Py.in_chars chars x) eqn:E; [exact IH|exact E].
Qed.

Lemma lstrip_rstrip_lstrip (chars s : text) :
  Py.lstrip chars (Py.rstrip chars (Py.lstrip chars s))
  = Py.rstrip chars (Py.lstrip chars s).
Proof.
  pose proof (lstrip_head chars s) as Hh.
  destruct (Py.lstrip chars s) as [|c t]; [reflexivity|].
  unfold Py.rstrip. cbn [rev].
  rewrite lstrip_app_keep by exact Hh.
  rewrite rev_app_distr. cbn [rev app Py.lstrip]. rewrite Hh. reflexivity.
Qed.

Lemma rstrip_idem (chars s : text) :
  Py.rstrip chars (Py.rstrip chars s) = Py.rstrip chars s.
Proof.
  unfold Py.rstrip. rewrite rev_involutive, lstrip_idem. reflexivity.
Qed.

Lemma strip_idem (chars s : text) :
  Py.strip chars (Py.strip chars s) = Py.strip chars s.
Proof.
  unfold Py.strip. rewrite lstrip_rstrip_lstrip. apply rstrip_idem.
Qed.

(** X15. The texts that wide format prints are trimmed. The header line
    holds no colon, and stripping [#], newlines and spaces from its two ends
    again changes nothing: it neither starts nor ends with one of them. A
    data row neither starts nor ends with a newline, with or without
    expansion. *)
Theorem wide_output_trimmed (a : option nat) (line : text) :
  ~ In COLON (wide_header a line)
  /\ Py.strip ["#"%char; NL; " "%char] (wide_header a line)
     = wide_header a line
  /\ forall rows,
       wide_rows a line = Some rows ->
       Forall (fun row => Py.strip [NL] row = row) rows.
Proof.
  split; [|split].
  - unfold wide_header. cbv zeta. change (txt "_") with ["_"%char].
    rewrite replace_char_map. intros H. apply in_map_iff in H.
    destruct H as [x [Hx _]].
    destruct (Ascii.eqb COLON x) eqn:E; [discriminate|].
    subst x. rewrite Ascii.eqb_refl in E. discriminate.
  - unfold wide_header. cbv zeta. change (txt "_") with ["_"%char].
    rewrite replace_char_map. unfold clean_header.
    rewrite strip_map.
    + rewrite strip_idem. reflexivity.
    + intros x. destruct (Ascii.eqb COLON x) eqn:E; [|reflexivity].
      apply Ascii.eqb_eq in E. subst x. reflexivity.
  - intros rows H. unfold wide_rows in H. destruct a as [a|].
    + cbv zeta in H.
      destruct (Py.index (Py.split TAB line) a) as [ann|]; [|discriminate].
      injection H as <-. apply Forall_forall. intros row Hrow.
      apply in_map_iff in Hrow. destruct Hrow as [ve [<- _]].
      apply strip_idem.
    + injection H as <-. constructor; [apply strip_idem|constructor].
Qed.

(** ** Long format with expansion and with the header: lines 142-171 *)

Lemma ann_splice_tab_free (a : nat) (parts : list text) (ve : text) :
  Forall (fun t => tabs t = 0) parts -> tabs ve = 0 ->
  Forall (fun t => tabs t = 0) (ann_splice a parts ve).
Proof.
  intros Hp Hve. unfold ann_splice. apply Forall_app. split.
  - apply Forall_firstn. exact Hp.
  - apply Forall_app. split.
    + apply split_tab_free; [reflexivity|exact Hve].
    + apply Forall_skipn. exact Hp.
Qed.

(** X16. In long format too, an expanded row is the reconstructed row with
    three of its tokens (at indices [ann_loc - 1], [ann_loc] and [ann_loc +
    1]) replaced by the sub-fields of one sub-record: a row of a 15-field
    sub-record has 12 columns more than the line has tokens, one fewer than
    the 13 the header line gains. *)
Theorem long_expanded_row_columns (i : nat) (parts : list text) (ann : text)
    (Hfree : Forall (fun t => tabs t = 0) parts)
    (Hlen : i + 9 <= length parts)
    (Hann : nth_error parts (i + 7) = Some ann) :
  exists rows,
    long_rows (Some (i + 7)) parts = Some rows
    /\ length rows = length (Py.split COMMA ann)
    /\ forall k row var_effect,
         nth_error rows k = Some row ->
         nth_error (Py.split COMMA ann) k = Some var_effect ->
         columns row + 3
         = length parts + length (Py.split PIPE var_effect).
Proof.
  unfold long_rows, Py.index. rewrite Hann.
  eexists. split; [reflexivity|]. split; [apply length_map|].
  intros k row ve Hrow Hve.
  rewrite nth_error_map, Hve in Hrow. simpl in Hrow. injection Hrow as <-.
  rewrite columns_tabs, tabs_remove_sentinel, tabs_strip by reflexivity.
  assert (Htok : tabs ann = 0).
  { rewrite Forall_forall in Hfree. apply Hfree.
    apply (nth_error_In _ _ Hann). }
  assert (Hve0 : tabs ve = 0).
  { pose proof (split_tab_free COMMA ann eq_refl Htok) as Hall.
    rewrite Forall_forall in Hall. apply Hall.
    apply (nth_error_In _ _ Hve). }
  rewrite tabs_join by (apply ann_splice_tab_free; assumption).
  rewrite ann_splice_eq.
  rewrite !length_app, length_firstn, length_skipn.
  pose proof (split_not_nil PIPE ve) as Hne.
  destruct (Py.split PIPE ve) as [|f fs]; [contradiction|].
  simpl length. lia.
Qed.

Lemma long_expanded_row_columns_witness :
  exists rows,
    long_rows (Some 8) (ex_row ex_ann2) = Some rows
    /\ length rows = 2.
Proof.
  destruct (long_expanded_row_columns 1 (ex_row ex_ann2) (txt ex_ann2)
              ltac:(repeat constructor) ltac:(simpl; lia) eq_refl)
    as [rows [Hrows [Hcount _]]].
  exists rows. split; [exact Hrows|exact Hcount].
Defined.



(** ** The column names of the long header: lines 146-149 *)

Lemma split_colon_free (c : ascii) (a rest : text) :
  forallb (fun x => negb (Ascii.eqb x c)) a = true ->
  Py.split c (a ++ c :: rest) = a :: Py.split c rest.
Proof.
  intros Ha. induction a as [|x a IH].
  - cbn [app Py.split]. rewrite Ascii.eqb_refl. reflexivity.
  - cbn [forallb] in Ha. apply andb_true_iff in Ha. destruct Ha as [Hx Ha].
    apply negb_true_iff in Hx. cbn [app Py.split]. rewrite Hx, (IH Ha).
    reflexivity.
Qed.

Lemma contains_char (c : ascii) (s : text) :
  Py.contains [c] s = existsb (Ascii.eqb c) s.
Proof.
  induction s as [|x s IH]; [reflexivity|].
  cbn [Py.contains Py.startswith existsb]. rewrite andb_true_r, IH.
  reflexivity.
Qed.

(** X18. A column name without a colon is kept; of a name with a colon, the
    text between the first colon and the second (or the end) is kept:
    [sample:field] becomes [field]. *)
Theorem unqualify_keeps_second_part (sample rest : text)
    (Hsample : forallb (fun x => negb (Ascii.eqb x COLON)) sample = true) :
  unqualify sample = sample
  /\ unqualify (sample ++ COLON :: rest) = nth 0 (Py.split COLON rest) []
  /\ (forallb (fun x => negb (Ascii.eqb x COLON)) rest = true ->
      unqualify (sample ++ COLON :: rest) = rest).
Proof.
  assert (E : unqualify (sample ++ COLON :: rest)
              = nth 0 (Py.split COLON rest) []).
  { unfold unqualify. rewrite contains_char, existsb_app.
    cbn [existsb]. rewrite Ascii.eqb_refl, orb_true_r.
    rewrite split_colon_free by exact Hsample. reflexivity. }
  split; [|split].
  - unfold unqualify. rewrite contains_char.
    replace (existsb (Ascii.eqb COLON) sample) with false; [reflexivity|].
    symmetry. clear E. induction sample as [|x s IH]; [reflexivity|].
    cbn [forallb] in Hsample. apply andb_true_iff in Hsample.
    destruct Hsample as [Hx Hs]. apply negb_true_iff in Hx.
    cbn [existsb]. rewrite Ascii.eqb_sym, Hx. exact (IH Hs).
  - exact E.
  - intros Hrest. rewrite E. clear E.
    destruct rest as [|x rest]; [reflexivity|].
    assert (H : exists t, Py.split COLON (x :: rest) = (x :: rest) :: t).
    { clear Hsample. revert x Hrest. induction rest as [|y rest IH];
        intros x Hrest.
      - cbn [forallb] in Hrest. apply andb_true_iff in Hrest.
        destruct Hrest as [Hx _]. apply negb_true_iff in Hx.
        cbn [Py.split]. rewrite Hx. exists []. reflexivity.
      - cbn [forallb] in Hrest. apply andb_true_iff in Hrest.
        destruct Hrest as [Hx Hrest]. apply negb_true_iff in Hx.
        destruct (IH y Hrest) as [t Ht].
        change (Py.split COLON (x :: y :: rest))
          with (if Ascii.eqb x COLON then [] :: Py.split COLON (y :: rest)
                else match Py.split COLON (y :: rest) with
                     | h :: t => (x :: h) :: t
                     | [] => [[x]]
                     end).
        rewrite Hx, Ht. exists t. reflexivity. }
    destruct H as [t ->]. reflexivity.
Qed.

Lemma unqualify_keeps_second_part_witness :
  unqualify (txt "S1" ++ COLON :: txt "GT") = txt "GT".
Proof.
  exact (proj2 (proj2 (unqualify_keeps_second_part (txt "S1") (txt "GT")
                         eq_refl)) eq_refl).
Defined.

(** ** Declarations with [Number=R]: lines 37 and 47 *)

Lemma finditer_from_start (r : re) (s : text) prev :
  bol_free r = true -> at_bol prev = true ->
  finditer_from (Seq Bol r) prev 0 s = finditer_from (Seq Bol r) None 0 s.
Proof.
  intros Hr Hb. pose proof (match_prev r prev s Hr Hb) as E.
  destruct s as [|c s]; cbn [finditer_from];
    destruct (match_at (Seq Bol r) prev _) as [o|];
    destruct (match_at (Seq Bol r) None _) as [o'|];
    cbn [option_map] in E; try discriminate E; try reflexivity;
    injection E as E1 E2; rewrite ?E1, ?E2; reflexivity.
Qed.

Lemma plus_inv (p : ascii -> bool) (s : text) prev caps (o : outcome) :
  In o (run (Plus p) (prev, s) caps) ->
  exists u, s = u ++ snd (fst o) /\ forallb p u = true.
Proof.
  cbn [run fst snd]. destruct s as [|x s]; [intros []|].
  destruct (p x) eqn:Ex; [|intros []].
  intros H. apply in_map_iff in H. destruct H as [cur [<- Hcur]].
  apply star_inv in Hcur. destruct Hcur as [u [-> Hu]].
  exists (x :: u). split; [reflexivity|]. cbn [forallb]. rewrite Ex. exact Hu.
Qed.

Lemma comma_free_prefix (id u z w : text) :
  forallb (not_char COMMA) id = true ->
  forallb (not_char COMMA) u = true ->
  id ++ COMMA :: z = u ++ w ->
  exists id2, id = u ++ id2 /\ w = id2 ++ COMMA :: z.
Proof.
  revert u. induction id as [|a id IH]; intros u Hid Hu E.
  - destruct u as [|x u].
    + exists []. split; [reflexivity|]. symmetry. exact E.
    + cbn [app] in E. injection E as <- _. discriminate Hu.
  - destruct u as [|x u].
    + exists (a :: id). split; [reflexivity|]. symmetry. exact E.
    + cbn [app] in E. injection E as <- E.
      cbn [forallb] in Hid, Hu.
      apply andb_true_iff in Hid. destruct Hid as [_ Hid].
      apply andb_true_iff in Hu. destruct Hu as [_ Hu].
      destruct (IH u Hid Hu E) as [id2 [-> ->]].
      exists id2. split; reflexivity.
Qed.

Lemma flat_map_nil {A B} (f : A -> list B) (l : list A) :
  (forall x, In x l -> f x = []) -> flat_map f l = [].
Proof.
  induction l as [|x l IH]; intros H; [reflexivity|].
  cbn [flat_map]. rewrite (H x) by (left; reflexivity).
  apply IH. intros y Hy. apply H. right. exact Hy.
Qed.

(** [RE_INFO] matches no line that declares [Number=R] *)
Lemma match_info_number_r (id z : text) prev :
  forallb (not_char COMMA) id = true ->
  match_at RE_INFO prev
    (txt "##INFO=<" ++ txt "ID=" ++ id ++ txt ",Number=" ++ "R"%char :: z)
  = None.
Proof.
  intros Hid. unfold match_at, RE_INFO. cbn [run fst snd].
  destruct (at_bol prev); [|reflexivity].
  cbn [flat_map fst snd]. rewrite app_nil_r.
  rewrite run_lit_prefix. cbn [flat_map fst snd]. rewrite app_nil_r.
  rewrite run_lit_prefix. cbn [flat_map fst snd]. rewrite app_nil_r.
  rewrite flat_map_nil; [reflexivity|].
  intros o Ho. apply in_map_iff in Ho. destruct Ho as [o1 [<- Ho1]].
  cbn [fst snd].
  destruct (plus_inv (not_char COMMA) _ None [] o1 Ho1) as [u [E Hu]].
  change (txt ",Number=") with (COMMA :: txt "Number=") in E.
  cbn [app] in E.
  destruct (comma_free_prefix id u _ _ Hid Hu E) as [id2 [Hid2 Hw]].
  destruct o1 as [[p1 w] caps1]. cbn [fst snd] in *. subst w.
  destruct id2 as [|a id2].
  - cbn [app].
    change (COMMA :: txt "Number=" ++ "R"%char :: z)
      with (txt ",Number=" ++ "R"%char :: z).
    rewrite run_lit_prefix. reflexivity.
  - assert (Ha : not_char COMMA a = true).
    { rewrite Hid2, forallb_app in Hid. apply andb_true_iff in Hid.
      destruct Hid as [_ H]. cbn [forallb] in H.
      apply andb_true_iff in H. apply H. }
    rewrite run_lit_mismatch; [reflexivity|].
    cbn [app txt list_ascii_of_string Py.startswith].
    destruct (Ascii.eqb_spec ","%char a) as [<-|_]; [|reflexivity].
    cbv in Ha. discriminate Ha.
Qed.

Lemma info_line_number_r (d : Declaration) (v : text) :
  d_number d = txt "R" ->
  info_line d ++ NL :: v
  = txt "##INFO=<" ++ txt "ID=" ++ d_id d ++ txt ",Number="
    ++ "R"%char
       :: (txt ",Type=" ++ d_type d ++ txt ",Description="
           ++ QUOTE :: d_desc d ++ QUOTE :: d_tail d ++ txt ">")
          ++ NL :: v.
Proof.
  intros Hnum. unfold info_line, decl_body, decl_attributes. rewrite Hnum.
  repeat rewrite <- app_assoc. reflexivity.
Qed.

(** X19. An INFO declaration with [Number=R] is no declaration for
    [RE_INFO], whose number is [-?\d+], [.], [A] or [G]: its line adds
    nothing to [info_fields], so the field is in neither the query string
    nor the output. The same declaration as a FORMAT line is accepted,
    [RE_FORMAT] having [R] among its numbers. *)
Theorem number_r_info_skipped (d : Declaration) (v : text)
    (Hnum : d_number d = txt "R")
    (Hfmt : wf_format d = true)
    (Hid : forallb (not_char COMMA) (d_id d) = true) :
  info_fields_of (info_line d ++ NL :: v) = info_fields_of v
  /\ format_fields_of (format_line d ++ NL :: v)
     = d_id d :: format_fields_of v.
Proof.
  pose proof (wf_format_no_nl d Hfmt) as Hnl.
  split.
  - assert (Hnl' : no_nl (info_line d) = true).
    { unfold format_line in Hnl. unfold info_line.
      rewrite !no_nl_app in Hnl |- *.
      apply andb_true_iff in Hnl. destruct Hnl as [_ Hnl].
      apply andb_true_iff in Hnl. destruct Hnl as [_ Hnl].
      rewrite Hnl. reflexivity. }
    unfold info_fields_of, finditer, RE_INFO. f_equal.
    rewrite finditer_line_nomatch.
    + apply finditer_from_start; reflexivity.
    + exact Hnl'.
    + fold RE_INFO. rewrite info_line_number_r by exact Hnum.
      apply match_info_number_r. exact Hid.
  - destruct (match_format d None v Hfmt eq_refl) as [o [Hm [Hg Hin]]].
    unfold format_fields_of, finditer. unfold RE_FORMAT in *.
    rewrite (finditer_line_match _ _ _ _ o Hnl Hm Hin).
    cbn [map]. rewrite Hg. f_equal. f_equal.
    apply finditer_from_start; reflexivity.
Qed.

Lemma number_r_info_skipped_witness :
  info_fields_of
    (info_line (ex_decl "AD" "R" "Integer" "Allelic depths") ++ NL :: [])
  = []
  /\ format_fields_of
       (format_line (ex_decl "AD" "R" "Integer" "Allelic depths")
        ++ NL :: [])
     = [txt "AD"].
Proof.
  exact (number_r_info_skipped (ex_decl "AD" "R" "Integer" "Allelic depths")
           [] eq_refl eq_refl eq_refl).
Defined.

(** ** The long header line, from the engine's header line to the printed
       text: lines 142-154 *)

Lemma split_free (c : ascii) (t : text) :
  forallb (fun x => negb (Ascii.eqb x c)) t = true -> Py.split c t = [t].
Proof.
  induction t as [|x t IH]; intros H; [reflexivity|].
  cbn [forallb] in H. apply andb_true_iff in H. destruct H as [Hx H].
  apply negb_true_iff in Hx. cbn [Py.split]. rewrite Hx, (IH H).
  reflexivity.
Qed.

Lemma split_join (c : ascii) (l : list text) :
  l <> [] ->
  forallb (forallb (fun x => negb (Ascii.eqb x c))) l = true ->
  Py.split c (Py.join [c] l) = l.
Proof.
  induction l as [|t l IH]; intros Hne H; [contradiction|].
  cbn [forallb] in H. apply andb_true_iff in H. destruct H as [Ht H].
  destruct l as [|t' l].
  - cbn [Py.join]. apply split_free. exact Ht.
  - change (Py.join [c] (t :: t' :: l))
      with (t ++ c :: Py.join [c] (t' :: l)).
    rewrite split_colon_free by exact Ht. f_equal.
    apply IH; [discriminate|exact H].
Qed.

(** X20. The long header, end to end. From the header line the engine writes
    for the columns [cols] (markers in front of the names, [#] before and a
    newline after), with at least one format field, the program prints the
    names (the text after the colon for a name [sample:field]), the last
    [len(format_fields)] of them with [F_] in front, tab-separated and with
    every ["-->"] removed. With [ann_loc] unset the names are those of the
    columns; with [ann_loc = i + 7] the names at indices [i + 6] and
    [i + 7] are first replaced by the 15 names of the ANN sub-fields, so
    that the prefix goes to the last names of the list so made. The names
    of the columns hold no tab, and stripping [#], newlines and spaces off
    the ends of their line changes nothing. *)
Theorem long_header_of_columns (ann : option nat)
    (cols : list (text * text)) (ffs : list text)
    (Hcols : forallb marker_ok cols = true)
    (Hnames :
       forallb (forallb (fun x => negb (Ascii.eqb x TAB))) (map snd cols)
       = true)
    (Hstrip : Py.strip ["#"%char; NL; " "%char]
                (Py.join [TAB] (map snd cols))
              = Py.join [TAB] (map snd cols))
    (Hne : cols <> [])
    (Hffs : ffs <> []) :
  let column_names := map unqualify (map snd cols) in
  let names :=
    match ann with
    | Some i =>
        firstn (i + 6) column_names ++ ANN_HEADER
        ++ skipn (i + 8) column_names
    | None => column_names
    end in
  let n := length names - length ffs in
  long_header (option_map (fun i => i + 7) ann) ffs
    ("#"%char :: marked cols ++ [NL])
  = Py.replace SENTINEL []
      (Py.join [TAB]
         (firstn n names ++ map (fun x => txt "F_" ++ x) (skipn n names))).
Proof.
  intros column_names names n.
  assert (Hk : 0 < length ffs) by (destruct ffs; [contradiction|simpl; lia]).
  assert (E0 : map unqualify
                 (Py.split TAB
                    (clean_header ("#"%char :: marked cols ++ [NL])))
               = column_names).
  { rewrite clean_header_marked by exact Hcols. rewrite Hstrip.
    rewrite split_join; [reflexivity| |exact Hnames].
    destruct cols; [contradiction|discriminate]. }
  assert (E : long_header_names (option_map (fun i => i + 7) ann)
                ("#"%char :: marked cols ++ [NL])
              = names).
  { unfold long_header_names. cbv zeta. rewrite E0.
    destruct ann as [i|]; [|reflexivity]. cbn [option_map].
    rewrite slice_to_nonneg, slice_from_nonneg by lia.
    replace (Z.to_nat (Z.of_nat (i + 7) - 1)) with (i + 6) by lia.
    replace (Z.to_nat (Z.of_nat (i + 7) + 1)) with (i + 8) by lia.
    reflexivity. }
  unfold long_header, long_header_columns. cbv zeta. rewrite E.
  rewrite slice_to_neg_any, slice_from_neg_any by exact Hk. reflexivity.
Qed.

Lemma long_header_of_columns_witness :
  long_header None [txt "GT"]
    ("#"%char
     :: marked [(txt "1", txt "CHROM"); (txt "2", txt "POS");
                (txt "3", txt "-->S1:GT")] ++ [NL])
  = txt "CHROM" ++ [TAB] ++ txt "POS" ++ [TAB] ++ txt "F_GT"
  /\ long_header (Some 7) [txt "GT"]
       ("#"%char
        :: marked [(txt "1", txt "CHROM"); (txt "2", txt "POS");
                   (txt "3", txt "-->S1:GT")] ++ [NL])
     = Py.join [TAB]
         ([txt "CHROM"; txt "POS"; txt "GT"]
          ++ firstn 14 ANN_HEADER ++ [txt "F_error"]).
Proof.
  split.
  - exact (long_header_of_columns None
             [(txt "1", txt "CHROM"); (txt "2", txt "POS");
              (txt "3", txt "-->S1:GT")] [txt "GT"]
             eq_refl eq_refl eq_refl ltac:(discriminate)
             ltac:(discriminate)).
  - exact (long_header_of_columns (Some 0)
             [(txt "1", txt "CHROM"); (txt "2", txt "POS");
              (txt "3", txt "-->S1:GT")] [txt "GT"]
             eq_refl eq_refl eq_refl ltac:(discriminate)
             ltac:(discriminate)).
Defined.
